(** * looker-custom-viz: the table visualization's value layer

    A shallow embedding of the TypeScript sources

    - [src/utils/tableUtils.ts]: [formatFieldLabel], [getFieldValue],
      [transformLookerData];
    - [hooks/useTableLogic]: [createColumns] with its [cell] renderer and
      the pagination-reset effect;
    - the [Visualization] component: [transformQueryData] and
      [handleDataUpdate].

    The sources are typed [any] almost everywhere, so the embedding works
    on a type of JavaScript values and keeps the language's dynamic
    checks ([typeof], [in], truthiness) and its [TypeError]s explicit.

    Modelling conventions.
    - Values are data (what the host delivers through the extension
      bridge): [undefined], [null], booleans, numbers, strings, arrays and
      plain objects.
    - A read under a name that the source computes ([fieldName in obj],
      [value[part]]) looks at the own properties and then at the members
      inherited from [Object.prototype] and [Array.prototype]
      ([Js.has], [Js.lookup]); what it gives is data or a member of the
      host ([Js.Fetched]).  Under the names that the sources write out
      ([value], [rendered], [name], [label], [data], [length], ...)
      nothing is inherited, and [Js.get] and [Js.has_property] read the
      own properties ([JsFacts.get_written_name],
      [JsFacts.has_written_name]).
    - An object is the list of its own enumerable properties in
      enumeration order; writing a new key appends.  (The engine's
      reordering of integer-like keys is not modelled; nothing below
      depends on it.)  An assignment under the key [__proto__] writes
      no property but runs the setter of [Object.prototype]
      ([Js.assign]); the prototype it may install is not represented,
      and what is said of the contents of an assigned row is said of
      rows without that key ([Js.has_proto_key]).
    - Conversions to a primitive ([Number(v)], [v > 0], template
      literals) throw a [TypeError] on an object that has a [toString] of
      its own, which as data is not callable ([Js.convertible]).
    - Numbers are binary64 floats ([spec_float]).
    - Strings are sequences of ASCII characters in [TableUtils] and in
      everything built on it; [CodeUnits] has [formatFieldLabel] on the
      strings of the host, sequences of 16-bit code units, with the
      host's case conversions left open.
    - [console.log] and friends have no effect on any value and are
      dropped, but the expressions they evaluate are kept when they can
      throw. *)

From Stdlib Require Import List String Ascii Bool Arith ZArith Lia.
From Stdlib Require Import SpecFloat DecimalString.
Import ListNotations.
Local Open Scope string_scope.
Set Warnings "-register-all".

(** ** JavaScript values *)

Module Js.

Definition number : Type := spec_float.

Definition number_of_nat (n : nat) : number :=
  binary_normalize 53 1024 (Z.of_nat n) 0 false.

Definition number_zero : number := S754_zero false.

(** [ToBoolean] on a number: [+0], [-0] and [NaN] are falsy. *)
Definition number_truthy (n : number) : bool :=
  match n with
  | S754_zero _ | S754_nan => false
  | S754_infinity _ | S754_finite _ _ _ => true
  end.

Inductive JsVal : Type :=
| JUndefined
| JNull
| JBool (b : bool)
| JNum (n : number)
| JStr (s : string)
| JArr (elems : list JsVal)
| JObj (props : list (string * JsVal)).

Inductive JsError : Type :=
| TypeError (msg : string).

(** Outcome of evaluating an expression or a function body. *)
Inductive Completion (A : Type) : Type :=
| Normal (a : A)
| Throw (e : JsError).
Arguments Normal {A} a.
Arguments Throw {A} e.

Definition bind {A B} (c : Completion A) (k : A -> Completion B) : Completion B :=
  match c with
  | Normal a => k a
  | Throw e => Throw e
  end.

(** [try { c } catch (_) { h }] *)
Definition try_catch {A} (c : Completion A) (h : JsError -> Completion A) : Completion A :=
  match c with
  | Normal a => Normal a
  | Throw e => h e
  end.

Fixpoint mapM {A B} (f : A -> Completion B) (l : list A) : Completion (list B) :=
  match l with
  | [] => Normal []
  | x :: xs =>
      bind (f x) (fun y => bind (mapM f xs) (fun ys => Normal (y :: ys)))
  end.

(** *** Dynamic tests *)

Definition is_null (v : JsVal) : bool :=
  match v with JNull => true | _ => false end.

Definition is_undefined (v : JsVal) : bool :=
  match v with JUndefined => true | _ => false end.

(** [v === null || v === undefined] *)
Definition is_nullish (v : JsVal) : bool := is_null v || is_undefined v.

(** [typeof v === 'object'] (true of [null] as well). *)
Definition typeof_object (v : JsVal) : bool :=
  match v with
  | JNull | JArr _ | JObj _ => true
  | _ => false
  end.

(** [ToBoolean] *)
Definition truthy (v : JsVal) : bool :=
  match v with
  | JUndefined | JNull => false
  | JBool b => b
  | JNum n => number_truthy n
  | JStr s => negb (String.eqb s EmptyString)
  | JArr _ | JObj _ => true
  end.

(** [v === 0] *)
Definition strict_eq_zero (v : JsVal) : bool :=
  match v with
  | JNum n => SFeqb n number_zero
  | _ => false
  end.

(** A primitive in the language's sense: everything but arrays and objects. *)
Definition is_primitive (v : JsVal) : bool :=
  match v with
  | JArr _ | JObj _ => false
  | _ => true
  end.

(** *** Properties *)

Fixpoint assoc (k : string) (l : list (string * JsVal)) : option JsVal :=
  match l with
  | [] => None
  | (k', v) :: l' => if String.eqb k k' then Some v else assoc k l'
  end.

Definition string_of_nat (n : nat) : string :=
  NilZero.string_of_uint (Nat.to_uint n).

(** Index keys are decimal numerals. *)
Definition is_digit (c : ascii) : bool :=
  let n := nat_of_ascii c in ((48 <=? n) && (n <=? 57))%nat.

Definition starts_with_digit (s : string) : bool :=
  match s with
  | EmptyString => false
  | String c _ => is_digit c
  end.

(** The indexed properties of an array-like: ["0"], ["1"], ... *)
Definition index_entries (l : list JsVal) : list (string * JsVal) :=
  combine (map string_of_nat (seq 0 (List.length l))) l.

Definition chars (s : string) : list JsVal :=
  map (fun c => JStr (String c EmptyString)) (list_ascii_of_string s).

(** Own enumerable string-keyed properties, in enumeration order. *)
Definition own_entries (v : JsVal) : list (string * JsVal) :=
  match v with
  | JObj props => props
  | JArr elems => index_entries elems
  | JStr s => index_entries (chars s)
  | _ => []
  end.

(** The non-enumerable [length] of arrays and strings. *)
Definition own_length (v : JsVal) : option nat :=
  match v with
  | JArr elems => Some (List.length elems)
  | JStr s => Some (String.length s)
  | _ => None
  end.

(** [Object.entries(v)] *)
Definition Object_entries (v : JsVal) : Completion (list (string * JsVal)) :=
  if is_nullish v
  then Throw (TypeError "Cannot convert undefined or null to object")
  else Normal (own_entries v).

(** [v.k] for a name [k] that the source writes out: the own property.
    (None of those names is inherited by data; [lookup] below is the
    read under a computed name.) *)
Definition get (v : JsVal) (k : string) : Completion JsVal :=
  if is_nullish v
  then Throw (TypeError "Cannot read properties of undefined or null")
  else
    match assoc k (own_entries v) with
    | Some x => Normal x
    | None =>
        match own_length v with
        | Some n => if String.eqb k "length"
                    then Normal (JNum (number_of_nat n))
                    else Normal JUndefined
        | None => Normal JUndefined
        end
    end.

(** [v?.k] *)
Definition get_opt (v : JsVal) (k : string) : Completion JsVal :=
  if is_nullish v then Normal JUndefined else get v k.

(** [k in v] for a name [k] that the source writes out; [has] below is
    the test under a computed name. *)
Definition has_property (k : string) (v : JsVal) : Completion bool :=
  match v with
  | JObj props =>
      Normal (match assoc k props with Some _ => true | None => false end)
  | JArr elems =>
      Normal (match assoc k (index_entries elems) with
              | Some _ => true
              | None => String.eqb k "length"
              end)
  | _ => Throw (TypeError "Cannot use 'in' operator to search for a key in a non-object")
  end.

(** Defining the property [k] of a plain object, on its property list:
    what an object literal and a spread do, and what an assignment does
    under every key but [__proto__]. *)
Fixpoint set (o : list (string * JsVal)) (k : string) (v : JsVal)
  : list (string * JsVal) :=
  match o with
  | [] => [(k, v)]
  | (k', v') :: o' =>
      if String.eqb k k' then (k, v) :: o' else (k', v') :: set o' k v
  end.

(** The assignment [o[k] = v] to a plain object.  Under [__proto__],
    unless the object has such a property of its own, it runs the
    setter that the object inherits and writes no property.  (With an
    object or [null] for [v] the setter changes the prototype of [o];
    prototypes are not represented, and the theorems about the objects
    so built are stated for rows without that key.) *)
Definition assign (o : list (string * JsVal)) (k : string) (v : JsVal)
  : list (string * JsVal) :=
  if String.eqb k "__proto__" then
    match assoc k o with
    | Some _ => set o k v
    | None => o
    end
  else set o k v.

(** The entries that an assignment writes as properties. *)
Definition assignable (entries : list (string * JsVal)) : list (string * JsVal) :=
  filter (fun kv => negb (String.eqb (fst kv) "__proto__")) entries.

(** [entries.forEach(f)] where [f] assigns into an object under
    construction, which is threaded through the calls. *)
Fixpoint forEach_entries
    (f : list (string * JsVal) -> string * JsVal -> Completion (list (string * JsVal)))
    (entries : list (string * JsVal)) (acc : list (string * JsVal))
  : Completion (list (string * JsVal)) :=
  match entries with
  | [] => Normal acc
  | e :: es => bind (f acc e) (forEach_entries f es)
  end.

(** [a || b] with [b] already evaluated (used where [b] cannot throw). *)
Definition or_else (a b : JsVal) : JsVal := if truthy a then a else b.

(** *** What data inherits

    The string-keyed members of [Object.prototype] and of
    [Array.prototype] (ECMAScript 2023, Annex B included; [length]
    apart, which every array has as its own).  An object inherits the
    former, an array both. *)
Definition Object_prototype_names : list string :=
  [ "constructor"; "__defineGetter__"; "__defineSetter__"; "hasOwnProperty";
    "__lookupGetter__"; "__lookupSetter__"; "isPrototypeOf";
    "propertyIsEnumerable"; "toString"; "valueOf"; "__proto__";
    "toLocaleString" ].

Definition Array_prototype_names : list string :=
  [ "constructor"; "at"; "concat"; "copyWithin"; "fill"; "find";
    "findIndex"; "findLast"; "findLastIndex"; "lastIndexOf"; "pop"; "push";
    "reverse"; "shift"; "unshift"; "slice"; "sort"; "splice"; "includes";
    "indexOf"; "join"; "keys"; "entries"; "values"; "forEach"; "filter";
    "flat"; "flatMap"; "map"; "every"; "some"; "reduce"; "reduceRight";
    "toLocaleString"; "toString"; "toReversed"; "toSorted"; "toSpliced";
    "with" ].

Definition inherited (k : string) : bool :=
  existsb (String.eqb k) (Object_prototype_names ++ Array_prototype_names).

(** *** Reading under a computed name

    The two prototypes that data has. *)
Inductive Prototype : Type := ObjectPrototype | ArrayPrototype.

(** What [v[k]] gives when [k] is computed: data, one of the two
    prototype objects (under [__proto__]), or a function that is a
    member of one of them. *)
Inductive Fetched : Type :=
| Data (v : JsVal)
| PrototypeObject (p : Prototype)
| BuiltinFunction (p : Prototype) (name : string).

(** The values with [typeof value === 'object'] other than [null]: the
    ones the sources read from under a computed name. *)
Inductive Obj : Type :=
| DataObject (props : list (string * JsVal))
| DataArray (elems : list JsVal)
| Proto (p : Prototype).

Definition as_object (value : Fetched) : option Obj :=
  match value with
  | Data (JObj props) => Some (DataObject props)
  | Data (JArr elems) => Some (DataArray elems)
  | Data _ => None
  | PrototypeObject p => Some (Proto p)
  | BuiltinFunction _ _ => None
  end.

(** The prototype of an object; [Object.prototype] has none. *)
Definition prototype_of (o : Obj) : option Prototype :=
  match o with
  | DataObject _ => Some ObjectPrototype
  | DataArray _ => Some ArrayPrototype
  | Proto ArrayPrototype => Some ObjectPrototype
  | Proto ObjectPrototype => None
  end.

(** The function that the prototype [p] holds under [k].  ([__proto__]
    is an accessor, and [Array.prototype.length] a number.) *)
Definition member (p : Prototype) (k : string) : option Fetched :=
  match p with
  | ObjectPrototype =>
      if String.eqb k "__proto__" then None
      else if existsb (String.eqb k) Object_prototype_names
      then Some (BuiltinFunction ObjectPrototype k)
      else None
  | ArrayPrototype =>
      if existsb (String.eqb k) Array_prototype_names
      then Some (BuiltinFunction ArrayPrototype k)
      else None
  end.

(** The own property [k] of an object, the accessor [__proto__] of
    [Object.prototype] apart. *)
Definition own (o : Obj) (k : string) : option Fetched :=
  match o with
  | DataObject props => option_map Data (assoc k props)
  | DataArray elems =>
      match assoc k (index_entries elems) with
      | Some x => Some (Data x)
      | None => if String.eqb k "length"
                then Some (Data (JNum (number_of_nat (List.length elems))))
                else None
      end
  | Proto ArrayPrototype =>
      if String.eqb k "length" then Some (Data (JNum number_zero))
      else member ArrayPrototype k
  | Proto ObjectPrototype => member ObjectPrototype k
  end.

(** The property [k] as the objects above [o] on its prototype chain
    hold it, the nearest first. *)
Definition above (o : Obj) (k : string) : option Fetched :=
  match prototype_of o with
  | Some ArrayPrototype =>
      match own (Proto ArrayPrototype) k with
      | Some x => Some x
      | None => own (Proto ObjectPrototype) k
      end
  | Some ObjectPrototype => own (Proto ObjectPrototype) k
  | None => None
  end.

(** [o[k]].  The accessor [__proto__], which every object here has or
    inherits, gives the prototype of the object it is read from. *)
Definition lookup (o : Obj) (k : string) : Fetched :=
  match own o k with
  | Some x => x
  | None =>
      if String.eqb k "__proto__" then
        match prototype_of o with
        | Some p => PrototypeObject p
        | None => Data JNull
        end
      else
        match above o k with
        | Some x => x
        | None => Data JUndefined
        end
  end.

(** [k in o] *)
Definition has (k : string) (o : Obj) : bool :=
  match own o k with
  | Some _ => true
  | None =>
      String.eqb k "__proto__"
      || match above o k with Some _ => true | None => false end
  end.

(** The names under which the sources read a property written out
    ([row.data], [value.rendered], ['value' in value], ...). *)
Definition written_names : list string :=
  [ "value"; "rendered"; "name"; "label"; "data"; "length"; "_queryResponse";
    "queryResponse"; "fieldDimensions"; "fieldMeasures";
    "fieldTableCalculations"; "visualizationData"; "visConfig"; "title";
    "title_alignment"; "title_size"; "title_weight"; "title_color";
    "title_padding"; "subtitle"; "subtitle_position"; "subtitle_size";
    "subtitle_color"; "enable_search"; "enable_expand_collapse";
    "rows_per_page"; "enable_column_resizing"; "enable_row_selection";
    "enable_column_filters"; "enable_pinning"; "enable_grouping";
    "column_resize_mode" ].

(** Whether [v] has an own property named [__proto__] (as
    [JSON.parse] can make one). *)
Definition has_proto_key (v : JsVal) : bool :=
  existsb (fun k => String.eqb k "__proto__") (map fst (own_entries v)).

(** *** Conversion to a primitive

    [ToPrimitive] asks the value for its [toString] and its [valueOf].
    An object converts through the inherited [toString] unless it has a
    [toString] of its own, which as data cannot be called; the inherited
    [valueOf] returns the object itself, so nothing else can convert it.
    An array converts through [join], which converts each element other
    than [null] and [undefined].  The hint makes no difference on data. *)
Fixpoint convertible (v : JsVal) : bool :=
  match v with
  | JObj props =>
      match assoc "toString" props with Some _ => false | None => true end
  | JArr elems => forallb convertible elems
  | _ => true
  end.

(** [ToPrimitive(v)] for its completion alone: where the source discards
    the primitive, or hands it to the host. *)
Definition ToPrimitive_effect (v : JsVal) : Completion unit :=
  if convertible v then Normal tt
  else Throw (TypeError "Cannot convert object to primitive value").

End Js.

Export Js.

Declare Scope js_scope.
Notation "x <- c ;; k" := (bind c (fun x => k))
  (at level 61, c at next level, right associativity) : js_scope.
Local Open Scope js_scope.

(** ** [src/utils/tableUtils.ts] *)

Module TableUtils.

(** *** String primitives used by [formatFieldLabel], on ASCII strings

    The case conversions below are those of the language on the ASCII
    letters and leave every other character alone; the separators are
    those of [[_\s]] below 128.  [CodeUnits] has the primitives on the
    strings of the host, and on ASCII strings the two agree. *)

Definition is_lower (c : ascii) : bool :=
  let n := nat_of_ascii c in ((97 <=? n) && (n <=? 122))%nat.

Definition is_upper (c : ascii) : bool :=
  let n := nat_of_ascii c in ((65 <=? n) && (n <=? 90))%nat.

Definition char_toUpperCase (c : ascii) : ascii :=
  if is_lower c then ascii_of_nat (nat_of_ascii c - 32)%nat else c.

Definition char_toLowerCase (c : ascii) : ascii :=
  if is_upper c then ascii_of_nat (nat_of_ascii c + 32)%nat else c.

Fixpoint string_map (f : ascii -> ascii) (s : string) : string :=
  match s with
  | EmptyString => EmptyString
  | String c s' => String (f c) (string_map f s')
  end.

Definition toUpperCase : string -> string := string_map char_toUpperCase.
Definition toLowerCase : string -> string := string_map char_toLowerCase.

(** [s.charAt(0)] *)
Definition charAt0 (s : string) : string :=
  match s with
  | EmptyString => EmptyString
  | String c _ => String c EmptyString
  end.

(** [s.slice(1)] *)
Definition slice1 (s : string) : string :=
  match s with
  | EmptyString => EmptyString
  | String _ s' => s'
  end.

(** [s.split(sep)] for a one-character separator: never empty, an empty
    piece on each side of every separator. *)
Fixpoint split_on (sep : ascii) (s : string) : list string :=
  match s with
  | EmptyString => [EmptyString]
  | String c s' =>
      if Ascii.eqb c sep then EmptyString :: split_on sep s'
      else match split_on sep s' with
           | w :: ws => String c w :: ws
           | [] => [String c EmptyString]
           end
  end.

(** The character class [[_\s]] on ASCII: underscore, space, and the
    control characters tab, line feed, vertical tab, form feed, carriage
    return. *)
Definition is_word_sep (c : ascii) : bool :=
  let n := nat_of_ascii c in
  ((n =? 95) || (n =? 32) || ((9 <=? n) && (n <=? 13)))%nat.

Definition starts_with_sep (s : string) : bool :=
  match s with
  | EmptyString => false
  | String c _ => is_word_sep c
  end.

(** [s.split(/[_\s]+/)]: a maximal run of separators is one cut; a run at
    either end leaves an empty piece there. *)
Fixpoint split_word_seps (s : string) : list string :=
  match s with
  | EmptyString => [EmptyString]
  | String c s' =>
      if is_word_sep c then
        if starts_with_sep s' then split_word_seps s'
        else EmptyString :: split_word_seps s'
      else match split_word_seps s' with
           | w :: ws => String c w :: ws
           | [] => [String c EmptyString]
           end
  end.

(** [words.join(' ')] *)
Fixpoint join_space (l : list string) : string :=
  match l with
  | [] => EmptyString
  | [w] => w
  | w :: ws => w ++ " " ++ join_space ws
  end.

(** [word.charAt(0).toUpperCase() + word.slice(1).toLowerCase()] *)
Definition capitalize (word : string) : string :=
  toUpperCase (charAt0 word) ++ toLowerCase (slice1 word).

Definition formatFieldLabel (fieldName : string) : string :=
  let parts := split_on "."%char fieldName in
  let displayName := List.last parts EmptyString in
  let words := split_word_seps displayName in
  join_space (map capitalize words).

(** *** [getFieldValue] *)

(** [value && typeof value === 'object' && 'value' in value] *)
Definition is_value_object (value : JsVal) : Completion bool :=
  if truthy value then
    if typeof_object value then has_property "value" value
    else Normal false
  else Normal false.

(** [if (value && typeof value === 'object' && 'value' in value)
    value = value.value] on what a read gave. *)
Definition unwrap_value (value : Fetched) : Fetched :=
  match as_object value with
  | Some o => if has "value" o then lookup o "value" else value
  | None => value
  end.

(** The body of [for (const part of parts)] followed by [return value].
    The guard at the head of the loop lets through what [as_object]
    recognises. *)
Fixpoint nested_access (value : Fetched) (parts : list string) : Fetched :=
  match parts with
  | [] => value
  | part :: rest =>
      match as_object value with
      | None => Data JUndefined
      | Some o => nested_access (unwrap_value (lookup o part)) rest
      end
  end.

(** [fieldName in obj] throws unless [obj] is an object. *)
Definition getFieldValue (obj : JsVal) (fieldName : string) : Completion Fetched :=
  match as_object (Data obj) with
  | None =>
      Throw (TypeError "Cannot use 'in' operator to search for a key in a non-object")
  | Some o =>
      if has fieldName o then Normal (unwrap_value (lookup o fieldName))
      else Normal (nested_access (Data obj) (split_on "."%char fieldName))
  end.

(** *** [transformLookerData] *)

(** The [try] block of the per-field callback; the result is the row
    under construction after the assignment. *)
Definition transformField_try (transformedRow : list (string * JsVal))
    (key : string) (value : JsVal) : Completion (list (string * JsVal)) :=
  if is_null value || is_undefined value then
    Normal (assign transformedRow key JNull)
  else
    w <- (if typeof_object value then has_property "value" value
          else Normal false) ;;
    if w then
      inner <- get value "value" ;;
      Normal (assign transformedRow key inner)
    else
      Normal (assign transformedRow key value).

(** The [catch] block of the per-field callback. *)
Definition transformField_catch (transformedRow : list (string * JsVal))
    (key : string) (error : JsError) : Completion (list (string * JsVal)) :=
  Normal (assign transformedRow key JNull).

(** The callback of [Object.entries(row).forEach]. *)
Definition transformField (transformedRow : list (string * JsVal))
    (entry : string * JsVal) : Completion (list (string * JsVal)) :=
  let '(key, value) := entry in
  try_catch (transformField_try transformedRow key value)
            (transformField_catch transformedRow key).

(** The callback of [data.map]. *)
Definition transformLookerRow (row : JsVal) : Completion JsVal :=
  entries <- Object_entries row ;;
  transformedRow <- forEach_entries transformField entries [] ;;
  Normal (JObj transformedRow).

Definition transformLookerData (data : list JsVal) : Completion (list JsVal) :=
  mapM transformLookerRow data.

End TableUtils.

(** ** [hooks/useTableLogic] *)

Module TableLogic.

Import TableUtils.

(** [TableFeatureConfig]: every flag may be missing. *)
Record TableFeatureConfig : Type := {
  enableColumnResizing : option bool;
  enableRowSelection : option bool;
  enableColumnFilters : option bool;
  enablePinning : option bool;
  enableGrouping : option bool;
}.

(** [config?.flag ?? false] *)
Definition flag (config : option TableFeatureConfig)
    (proj : TableFeatureConfig -> option bool) : bool :=
  match config with
  | Some c => match proj c with Some b => b | None => false end
  | None => false
  end.

Inductive FieldType : Type := dimension | measure | calculation.

Record Field : Type := {
  name : JsVal;
  label : JsVal;
  type : FieldType;
}.

(** What [columnHelper.accessor] is given for one field.  The column's
    [enablePinning] and [enableGrouping] carry a prefix here, the plain
    names being those of the configuration. *)
Record Column : Type := {
  id : JsVal;
  header : JsVal;
  field_type : FieldType;
  enableSorting : bool;
  enableColumnFilter : bool;
  columnEnablePinning : bool;
  columnEnableGrouping : bool;
  enableResizing : bool;
}.

(** What a cell renderer hands to the rendering layer: a value as it is,
    or the result of one of the two host formatting calls.  The last two
    are the same for a function and a prototype object of the host. *)
Inductive Rendered : Type :=
| Rendered_value (v : JsVal)
| JSON_stringify (v : JsVal)
| toLocaleString (n : number)
| Rendered_function (p : Prototype) (name : string)
| JSON_stringify_prototype (p : Prototype).

Definition placeholder : JsVal := JStr "-".

(** The [cell] option of a column, as a function of [info.getValue()]. *)
Definition cell (value : JsVal) : Completion Rendered :=
  if is_null value || is_undefined value then
    Normal (Rendered_value placeholder)
  else if typeof_object value && negb (is_null value) then
    w <- has_property "value" value ;;
    if w then
      rendered <- get value "rendered" ;;
      if truthy rendered then Normal (Rendered_value rendered)
      else
        inner <- get value "value" ;;
        Normal (Rendered_value (or_else inner placeholder))
    else Normal (JSON_stringify value)
  else
    match value with
    | JNum n => Normal (toLocaleString n)
    | _ => Normal (Rendered_value value)
    end.

(** [formatFieldLabel] applied to an untyped argument: [split] exists on
    strings only. *)
Definition formatFieldLabel_any (fieldName : JsVal) : Completion JsVal :=
  match fieldName with
  | JStr s => Normal (JStr (formatFieldLabel s))
  | JUndefined | JNull =>
      Throw (TypeError "Cannot read properties of undefined or null")
  | _ => Throw (TypeError "fieldName.split is not a function")
  end.

(** The callback of the three [map]s over the field metadata. *)
Definition make_field (t : FieldType) (f : JsVal) : Completion Field :=
  n <- get f "name" ;;
  l <- get f "label" ;;
  l' <- (if truthy l then Normal l else formatFieldLabel_any n) ;;
  Normal {| name := n; label := l'; type := t |}.

(** [if (fields) allFields.push(...fields.map(...))], returning what is
    pushed. *)
Definition push_fields (t : FieldType) (fields : JsVal) : Completion (list Field) :=
  if truthy fields then
    match fields with
    | JArr l => mapM (make_field t) l
    | _ => Throw (TypeError "map is not a function")
    end
  else Normal [].

Definition make_column (config : option TableFeatureConfig) (field : Field) : Column :=
  {| id := name field;
     header := label field;
     field_type := type field;
     enableSorting := true;
     enableColumnFilter := flag config enableColumnFilters;
     columnEnablePinning := flag config enablePinning;
     columnEnableGrouping := flag config enableGrouping;
     enableResizing := flag config enableColumnResizing |}.

(** The callback of [allFields.map]: its logging lines put [field.name]
    into a template literal, which converts it to a string, and the
    column is made of what [columnHelper.accessor] is given. *)
Definition create_column (config : option TableFeatureConfig) (field : Field)
  : Completion Column :=
  _name <- ToPrimitive_effect (name field) ;;
  Normal (make_column config field).

(** [createColumns]: the columns it returns are also what it passes to
    [setColumns], as its last statement. *)
Definition createColumns (config : option TableFeatureConfig)
    (queryResponse : JsVal) : Completion (list Column) :=
  fieldDimensions <- get queryResponse "fieldDimensions" ;;
  fieldMeasures <- get queryResponse "fieldMeasures" ;;
  fieldTableCalculations <- get queryResponse "fieldTableCalculations" ;;
  dims <- push_fields dimension fieldDimensions ;;
  meas <- push_fields measure fieldMeasures ;;
  calcs <- push_fields calculation fieldTableCalculations ;;
  let allFields := (dims ++ meas ++ calcs)%list in
  mapM (create_column config) allFields.

(** *** The hook's state and the pagination-reset effect

    Arrays held in React state are compared by identity, so [data] and
    [columns] are represented by their references.  [effect_deps] is what
    the effect [useEffect(..., [data, columns])] saw when it last ran
    ([None] before the first commit). *)
Record HookState : Type := {
  data : nat;
  columns : nat;
  pageIndex : nat;
  pageSize : nat;
  effect_deps : option (nat * nat);
}.

(** The setters that the hook exposes or calls. *)
Inductive Setter : Type :=
| setData (ref : nat)
| setColumns (ref : nat)
| setPageIndex (n : nat)
| setPageSize (n : nat).

Definition apply_setter (s : HookState) (a : Setter) : HookState :=
  match a with
  | setData r =>
      {| data := r; columns := columns s; pageIndex := pageIndex s;
         pageSize := pageSize s; effect_deps := effect_deps s |}
  | setColumns r =>
      {| data := data s; columns := r; pageIndex := pageIndex s;
         pageSize := pageSize s; effect_deps := effect_deps s |}
  | setPageIndex n =>
      {| data := data s; columns := columns s; pageIndex := n;
         pageSize := pageSize s; effect_deps := effect_deps s |}
  | setPageSize n =>
      {| data := data s; columns := columns s; pageIndex := pageIndex s;
         pageSize := n; effect_deps := effect_deps s |}
  end.

Definition deps_eqb (a b : nat * nat) : bool :=
  Nat.eqb (fst a) (fst b) && Nat.eqb (snd a) (snd b).

(** Whether the effect is due after a commit: on mount, or when one of
    its dependencies is not the one it last saw. *)
Definition effect_due (s : HookState) : bool :=
  match effect_deps s with
  | None => true
  | Some d => negb (deps_eqb d (data s, columns s))
  end.

(** After a commit: the effect, when due, calls [setPageIndex(0)], and the
    render that follows leaves the dependencies as they are. *)
Definition run_effect (s : HookState) : HookState :=
  if effect_due s then
    {| data := data s; columns := columns s; pageIndex := 0;
       pageSize := pageSize s; effect_deps := Some (data s, columns s) |}
  else s.

(** One update: the setter calls of an event handler are batched, the
    component renders and commits, and the effect runs. *)
Definition step (s : HookState) (batch : list Setter) : HookState :=
  run_effect (fold_left apply_setter batch s).

(** [useTableLogic(initialData, config)] before the first commit. *)
Definition initial (initialData : nat) (initialColumns : nat)
    (rowsPerPage : nat) : HookState :=
  {| data := initialData; columns := initialColumns; pageIndex := 0;
     pageSize := (if Nat.eqb rowsPerPage 0 then 10 else rowsPerPage);
     effect_deps := None |}.

(** The states the hook can be in once mounted. *)
Inductive reachable : HookState -> Prop :=
| reachable_mount d c r : reachable (run_effect (initial d c r))
| reachable_step s batch : reachable s -> reachable (step s batch).

End TableLogic.

(** ** The [Visualization] component *)

Module Visualization.

Import TableUtils.

(** The component state that [handleDataUpdate] writes: its own [error]
    and [isLoading], and the hook's [data] and [columns]. *)
Record State : Type := {
  error : option string;
  isLoading : bool;
  data : list JsVal;
  columns : list TableLogic.Column;
}.

(** The callback of [Object.entries(row).forEach] in
    [transformQueryData]. *)
Definition transformQueryField (transformedRow : list (string * JsVal))
    (entry : string * JsVal) : Completion (list (string * JsVal)) :=
  let '(key, value) := entry in
  w <- is_value_object value ;;
  if w then
    inner <- get value "value" ;;
    let transformedRow1 := assign transformedRow key inner in
    rendered <- get value "rendered" ;;
    companion <- (if truthy rendered then Normal rendered
                  else get value "value") ;;
    Normal (assign transformedRow1 (key ++ "_rendered") companion)
  else
    Normal (assign transformedRow key value).

(** The callback of [rawData.map]. *)
Definition transformQueryRow (row : JsVal) : Completion JsVal :=
  entries <- Object_entries row ;;
  transformedRow <- forEach_entries transformQueryField entries [] ;;
  Normal (JObj transformedRow).

Definition transformQueryData (rawData : JsVal) : Completion (list JsVal) :=
  len <- get rawData "length" ;;
  if negb (truthy rawData) || strict_eq_zero len then Normal []
  else
    match rawData with
    | JArr rows => mapM transformQueryRow rows
    | _ => Throw (TypeError "rawData.map is not a function")
    end.

(** [queryResponse?._queryResponse?.data || queryResponse?.data || []] *)
Definition resolve_rawData (queryResponse : JsVal) : Completion JsVal :=
  inner <- get_opt queryResponse "_queryResponse" ;;
  nested <- get_opt inner "data" ;;
  if truthy nested then Normal nested
  else
    top <- get_opt queryResponse "data" ;;
    if truthy top then Normal top else Normal (JArr []).

(** The object literal [fields]. *)
Definition fields : list (string * JsVal) :=
  [ ("fieldDimensions",
     JArr [ JObj [ ("name", JStr "executive_summary.dynamic_reporting");
                   ("label", JStr "Reporting Date") ] ]);
    ("fieldMeasures",
     JArr [ JObj [ ("name", JStr "executive_summary.total_order_count_dynamic");
                   ("label", JStr "Total Order Count") ] ]) ].

(** [{...target, ...source}] continued: the properties of [source] are
    written one by one. *)
Definition spread (target source : list (string * JsVal)) : list (string * JsVal) :=
  fold_left (fun o kv => set o (fst kv) (snd kv)) source target.

(** [{ ...queryResponse, ...fields, data: transformedData }] *)
Definition createColumns_argument (queryResponse : JsVal)
    (transformedData : list JsVal) : JsVal :=
  JObj (set (spread (spread [] (own_entries queryResponse)) fields)
            "data" (JArr transformedData)).

Definition no_data (st : State) : State :=
  {| error := Some "No data available"; isLoading := false;
     data := data st; columns := columns st |}.

Definition failed (st : State) : State :=
  {| error := Some "Failed to process visualization data"; isLoading := false;
     data := data st; columns := columns st |}.

(** The [try] block of [handleDataUpdate].  No setter runs before the
    last point that can throw, so a state is produced only on normal
    completion. *)
Definition handleDataUpdate_try (config : option TableLogic.TableFeatureConfig)
    (queryResponse : JsVal) (st : State) : Completion State :=
  rawData <- resolve_rawData queryResponse ;;
  transformedData <- transformQueryData rawData ;;
  if Nat.eqb (List.length transformedData) 0 then Normal (no_data st)
  else
    newColumns <- TableLogic.createColumns config
                    (createColumns_argument queryResponse transformedData) ;;
    Normal {| error := None; isLoading := false;
              data := transformedData; columns := newColumns |}.

Definition handleDataUpdate (config : option TableLogic.TableFeatureConfig)
    (queryResponse : JsVal) (st : State) : Completion State :=
  _logged <- get_opt queryResponse "data" ;;
  try_catch (handleDataUpdate_try config queryResponse st)
            (fun _ => Normal (failed st)).

(** What the component returns from its render. *)
Inductive View : Type :=
| ErrorMessage (message : string)
| TableSkeleton
| Table (columns : list TableLogic.Column) (rows : list JsVal).

Definition render (st : State) : View :=
  match error st with
  | Some message =>
      if String.eqb message EmptyString then
        if isLoading st then TableSkeleton else Table (columns st) (data st)
      else ErrorMessage message
  | None =>
      if isLoading st then TableSkeleton else Table (columns st) (data st)
  end.

End Visualization.

(** ** What the specification says, in its own words

    The definitions of this module are written from the prose of the
    specification, not from the sources; the theorems below compare them
    with the embedding of the code. *)

Module Spec.

(** "Wrapper object": an object that contains a [value] key. *)
Definition wrapper (v : JsVal) : bool :=
  match v with
  | JObj props =>
      match assoc "value" props with Some _ => true | None => false end
  | _ => false
  end.

(** The field [k] of an object, [undefined] when there is none. *)
Definition field (v : JsVal) (k : string) : JsVal :=
  match v with
  | JObj props =>
      match assoc k props with Some x => x | None => JUndefined end
  | _ => JUndefined
  end.

(** "Unwrap it to its [value] before descending further." *)
Definition unwrap (v : JsVal) : JsVal :=
  if wrapper v then field v "value" else v.

(** A field that is there: neither missing nor [null]. *)
Definition present (v : JsVal) : bool := negb (is_nullish v).

(** A plain object with pairwise distinct keys. *)
Definition is_row (row : JsVal) : Prop :=
  match row with
  | JObj props => NoDup (map fst props)
  | _ => False
  end.

(** *** Field Label Formatter *)

(** "Take the last dot-delimited segment": scan the identifier, starting
    afresh after every dot. *)
Fixpoint last_segment_from (cur : string) (s : string) : string :=
  match s with
  | EmptyString => cur
  | String c s' =>
      if Ascii.eqb c "."%char then last_segment_from EmptyString s'
      else last_segment_from (cur ++ String c EmptyString) s'
  end.

Definition last_segment (identifier : string) : string :=
  last_segment_from EmptyString identifier.

Definition underscore_or_whitespace (c : ascii) : bool :=
  match c with
  | "_"%char | " "%char | "009"%char | "010"%char | "011"%char
  | "012"%char | "013"%char => true
  | _ => false
  end.

(** "Split that segment on underscores or whitespace runs": scan the
    segment; the first separator of a run closes the current word, the
    others of the run are skipped. *)
Fixpoint words_from (cur : string) (in_run : bool) (s : string) : list string :=
  match s with
  | EmptyString => [cur]
  | String c s' =>
      if underscore_or_whitespace c then
        if in_run then words_from EmptyString true s'
        else cur :: words_from EmptyString true s'
      else words_from (cur ++ String c EmptyString) false s'
  end.

Definition words (segment : string) : list string :=
  words_from EmptyString false segment.

Definition upper (c : ascii) : ascii :=
  let n := nat_of_ascii c in
  if ((97 <=? n) && (n <=? 122))%nat then ascii_of_nat (n - 32) else c.

Definition lower (c : ascii) : ascii :=
  let n := nat_of_ascii c in
  if ((65 <=? n) && (n <=? 90))%nat then ascii_of_nat (n + 32) else c.

Fixpoint lower_all (s : string) : string :=
  match s with
  | EmptyString => EmptyString
  | String c s' => String (lower c) (lower_all s')
  end.

(** "First character upper, remainder lower." *)
Definition title_case (word : string) : string :=
  match word with
  | EmptyString => EmptyString
  | String c rest => String (upper c) (lower_all rest)
  end.

(** "Join with single spaces." *)
Definition label (identifier : string) : string :=
  String.concat " " (map title_case (words (last_segment identifier))).

(** *** Field Value Normalizer: a path that does not resolve *)

(** "If the current value is [null], not an object, or missing the next
    segment, stop"; an intermediate wrapper is unwrapped before
    descending.  Here a segment is missing when the value has no such
    key: the path is followed inside the row. *)
Inductive unresolved_in_row : JsVal -> list string -> Prop :=
| unresolved_in_row_not_object v part rest :
    (is_nullish v || negb (typeof_object v)) = true ->
    unresolved_in_row v (part :: rest)
| unresolved_in_row_missing v part rest :
    (is_nullish v || negb (typeof_object v)) = false ->
    has_property part v = Normal false ->
    unresolved_in_row v (part :: rest)
| unresolved_in_row_below v part rest child :
    (is_nullish v || negb (typeof_object v)) = false ->
    get v part = Normal child ->
    unresolved_in_row (unwrap child) rest ->
    unresolved_in_row v (part :: rest).

(** Unwrapping what a read gave: the members of the host are no
    wrappers. *)
Definition unwrap_fetched (value : Fetched) : Fetched :=
  match value with
  | Data v => Data (unwrap v)
  | _ => value
  end.

(** The same with a segment missing when the value neither has it nor
    inherits it. *)
Inductive unresolved : Fetched -> list string -> Prop :=
| unresolved_not_object value part rest :
    as_object value = None ->
    unresolved value (part :: rest)
| unresolved_missing value o part rest :
    as_object value = Some o ->
    has part o = false ->
    unresolved value (part :: rest)
| unresolved_below value o part rest :
    as_object value = Some o ->
    unresolved (unwrap_fetched (lookup o part)) rest ->
    unresolved value (part :: rest).

(** *** Row Transformer *)

(** "If absent/null, emit [null]; if a wrapper object, emit its [value];
    otherwise pass through unchanged." *)
Definition normalize_cell (v : JsVal) : JsVal :=
  if is_nullish v then JNull
  else if wrapper v then field v "value"
  else v.

Definition normalize_row (row : JsVal) : JsVal :=
  JObj (map (fun kv => (fst kv, normalize_cell (snd kv))) (own_entries row)).

(** "Once normalized, a row's values are primitives or [null]." *)
Definition normalized (rows : list JsVal) : Prop :=
  forall row, In row rows ->
  forall key value, In (key, value) (own_entries row) ->
  is_primitive value = true.

(** A cell that one level of unwrapping makes a primitive. *)
Definition flat_cell (v : JsVal) : bool :=
  is_primitive v || (wrapper v && is_primitive (field v "value")).

(** *** Cell rendering policy *)

(** The policy with "if present" read as "is there": what the
    specification states. *)
Definition rendering_as_stated (v : JsVal) : TableLogic.Rendered :=
  match v with
  | JUndefined | JNull => TableLogic.Rendered_value TableLogic.placeholder
  | JObj _ =>
      if wrapper v then
        if present (field v "rendered")
        then TableLogic.Rendered_value (field v "rendered")
        else if present (field v "value")
        then TableLogic.Rendered_value (field v "value")
        else TableLogic.Rendered_value TableLogic.placeholder
      else TableLogic.JSON_stringify v
  | JArr _ => TableLogic.JSON_stringify v
  | JNum n => TableLogic.toLocaleString n
  | JBool _ | JStr _ => TableLogic.Rendered_value v
  end.

(** The policy with "if present" read as "is truthy". *)
Definition rendering_policy (v : JsVal) : TableLogic.Rendered :=
  match v with
  | JUndefined | JNull => TableLogic.Rendered_value TableLogic.placeholder
  | JObj _ =>
      if wrapper v then
        if truthy (field v "rendered")
        then TableLogic.Rendered_value (field v "rendered")
        else if truthy (field v "value")
        then TableLogic.Rendered_value (field v "value")
        else TableLogic.Rendered_value TableLogic.placeholder
      else TableLogic.JSON_stringify v
  | JArr _ => TableLogic.JSON_stringify v
  | JNum n => TableLogic.toLocaleString n
  | JBool _ | JStr _ => TableLogic.Rendered_value v
  end.

(** *** The controller *)

(** The companion value with "absent" read as "not there". *)
Definition companion_as_stated (value : JsVal) : JsVal :=
  if present (field value "rendered") then field value "rendered"
  else field value "value".

(** What the controller's row transformation is said to leave in the
    output row [out] for the wrapper fields of the input row [props]. *)
Definition companions_hold (props out : list (string * JsVal)) : Prop :=
  forall key value,
    In (key, value) props -> wrapper value = true ->
    assoc key out = Some (field value "value") /\
    assoc (key ++ "_rendered") out = Some (companion_as_stated value).

(** The two columns of the hard-coded field descriptors. *)
Definition hard_coded_columns (config : option TableLogic.TableFeatureConfig)
  : list TableLogic.Column :=
  map (TableLogic.make_column config)
    [ {| TableLogic.name := JStr "executive_summary.dynamic_reporting";
         TableLogic.label := JStr "Reporting Date";
         TableLogic.type := TableLogic.dimension |};
      {| TableLogic.name := JStr "executive_summary.total_order_count_dynamic";
         TableLogic.label := JStr "Total Order Count";
         TableLogic.type := TableLogic.measure |} ].

(** The table calculations that the query response itself carries. *)
Definition response_table_calculations (queryResponse : JsVal) : JsVal :=
  field (JObj (Visualization.spread [] (own_entries queryResponse)))
        "fieldTableCalculations".

(** "Prefer a nested raw-data field if present, else a top-level data
    field, else treat as empty." *)
Definition resolved_data (queryResponse : JsVal) : JsVal :=
  let nested := field (field queryResponse "_queryResponse") "data" in
  let top := field queryResponse "data" in
  if truthy nested then nested
  else if truthy top then top
  else JArr [].

End Spec.

(** ** Sample inputs *)

Module Samples.

Definition seven : JsVal := JNum (number_of_nat 7).
Definition zero : JsVal := JNum number_zero.

(** [{ count: { value: 7, rendered: "7 orders" } }] *)
Definition wrapped_count_row : list (string * JsVal) :=
  [ ("count", JObj [ ("value", seven); ("rendered", JStr "7 orders") ]) ].

(** [{ view: { total: null } }], asked for ["view.total.x"]. *)
(** [{ view: { total: 1 } }] *)
Definition total_row : list (string * JsVal) :=
  [ ("view", JObj [ ("total", JNum (number_of_nat 1)) ]) ].

(** [{ "__proto__": 1, a: 2 }] as [JSON.parse] builds it. *)
Definition proto_key_row : list (string * JsVal) :=
  [ ("__proto__", JNum (number_of_nat 1)); ("a", JNum (number_of_nat 2)) ].

Definition null_inside_row : list (string * JsVal) :=
  [ ("view", JObj [ ("total", JNull) ]) ].

(** [[{ a: { value: { value: "x" } }, b: { c: null } }]] *)
Definition nested_wrapper_rows : list JsVal :=
  [ JObj [ ("a", JObj [ ("value", JObj [ ("value", JStr "x") ]) ]);
           ("b", JObj [ ("c", JNull) ]) ] ].

(** [[{ date: { value: "2024-01-01" }, count: 5 },
      { date: { value: "2024-01-02" }, count: { value: 7, rendered: "7 orders" } }]] *)
Definition scenario_rows : list JsVal :=
  [ JObj [ ("date", JObj [ ("value", JStr "2024-01-01") ]);
           ("count", JNum (number_of_nat 5)) ];
    JObj [ ("date", JObj [ ("value", JStr "2024-01-02") ]);
           ("count", JObj [ ("value", seven); ("rendered", JStr "7 orders") ]) ] ].

(** [{ value: 0 }] and [{ value: 5, rendered: '' }] *)
Definition zero_wrapper : JsVal := JObj [ ("value", zero) ].
Definition empty_rendered_wrapper : JsVal :=
  JObj [ ("value", JNum (number_of_nat 5)); ("rendered", JStr EmptyString) ].

(** A mounted hook showing data 0 and columns 0. *)
Definition mounted : TableLogic.HookState :=
  TableLogic.run_effect (TableLogic.initial 0 0 10).

(** A pager click to page 3 batched with a data update. *)
Definition page_then_update : list TableLogic.Setter :=
  [ TableLogic.setPageIndex 3; TableLogic.setColumns 1; TableLogic.setData 1 ].

Definition idle : Visualization.State :=
  {| Visualization.error := None; Visualization.isLoading := true;
     Visualization.data := []; Visualization.columns := [] |}.

(** [{ data: [{ a: 1 }], _queryResponse: { data: [] } }] *)
Definition empty_nested_response : JsVal :=
  JObj [ ("data", JArr [ JObj [ ("a", JNum (number_of_nat 1)) ] ]);
         ("_queryResponse", JObj [ ("data", JArr []) ]) ].

(** [{ data: [null] }] *)
Definition null_row_response : JsVal :=
  JObj [ ("data", JArr [ JNull ]) ].

(** [{ data: [{ a: 1 }], fieldDimensions: [{ name: "x.y" }] }] and the
    same with [fieldTableCalculations: [{ name: "calc_one" }]] added. *)
Definition plain_response : JsVal :=
  JObj [ ("data", JArr [ JObj [ ("a", JNum (number_of_nat 1)) ] ]);
         ("fieldDimensions", JArr [ JObj [ ("name", JStr "x.y") ] ]) ].

Definition calculation_response : JsVal :=
  JObj [ ("data", JArr [ JObj [ ("a", JNum (number_of_nat 1)) ] ]);
         ("fieldDimensions", JArr [ JObj [ ("name", JStr "x.y") ] ]);
         ("fieldTableCalculations", JArr [ JObj [ ("name", JStr "calc_one") ] ]) ].

(** What the update with [plain_response] leaves in the state. *)
Definition plain_table_state : Visualization.State :=
  {| Visualization.error := None; Visualization.isLoading := false;
     Visualization.data := [ JObj [ ("a", JNum (number_of_nat 1)) ] ];
     Visualization.columns := Spec.hard_coded_columns None |}.

(** [{ a: { value: 7, rendered: "7 orders" }, a_rendered: true }] *)
Definition colliding_row : list (string * JsVal) :=
  [ ("a", JObj [ ("value", seven); ("rendered", JStr "7 orders") ]);
    ("a_rendered", JBool true) ].

(** [{ a: { value: 5, rendered: '' } }] *)
Definition empty_rendered_row : list (string * JsVal) :=
  [ ("a", empty_rendered_wrapper) ].

(** [{ fieldTableCalculations: [{ name: { toString: 1 }, label: "L" }] }] *)
Definition unconvertible_calculation_response : JsVal :=
  JObj [ ("fieldTableCalculations",
          JArr [ JObj [ ("name", JObj [ ("toString", JNum (number_of_nat 1)) ]);
                        ("label", JStr "L") ] ]) ].

(** [{ fieldDimensions: [{ name: "x.y" }],
       fieldTableCalculations: [{ name: 7 }] }] *)
Definition bad_calculation_response : JsVal :=
  JObj [ ("fieldDimensions", JArr [ JObj [ ("name", JStr "x.y") ] ]);
         ("fieldTableCalculations", JArr [ JObj [ ("name", seven) ] ]) ].

(** An SDK object whose response has
    [data: { length: { toString: 1 } }]. *)
Definition unconvertible_length_sdk : JsVal :=
  JObj [ ("queryResponse",
          JObj [ ("data",
                  JObj [ ("length",
                          JObj [ ("toString", JNum (number_of_nat 1)) ]) ]) ]) ].

(** SDK objects with the saved settings [{ rows_per_page: 25 }] and
    [{ title_size: { toString: 1 } }]. *)
Definition saved_rows_sdk : JsVal :=
  JObj [ ("visualizationData",
          JObj [ ("visConfig",
                  JObj [ ("rows_per_page", JNum (number_of_nat 25)) ]) ]) ].

Definition unconvertible_size_sdk : JsVal :=
  JObj [ ("visualizationData",
          JObj [ ("visConfig",
                  JObj [ ("title_size",
                          JObj [ ("toString", JNum (number_of_nat 1)) ]) ]) ]) ].

(** The same with [{ rows_per_page: [[{ toString: 1 }]] }]. *)
Definition unconvertible_array_sdk : JsVal :=
  JObj [ ("visualizationData",
          JObj [ ("visConfig",
                  JObj [ ("rows_per_page",
                          JArr [ JArr [ JObj [ ("toString",
                                                JNum (number_of_nat 1)) ] ] ]) ]) ]) ].

End Samples.

(** ** Predicates on strings *)

Module Chars.

Fixpoint string_forall (P : ascii -> bool) (s : string) : bool :=
  match s with
  | EmptyString => true
  | String c s' => P c && string_forall P s'
  end.

(** An ASCII string: every character below 128.  On these the string
    primitives of [TableUtils] are those of the host. *)
Definition is_ascii (s : string) : bool :=
  string_forall (fun c => (nat_of_ascii c <? 128)%nat) s.

(** A character that a formatted label may hold: a space, or anything
    that is neither a dot nor one of the word separators. *)
Definition label_char (c : ascii) : bool :=
  Ascii.eqb c " " || negb (TableUtils.is_word_sep c || Ascii.eqb c ".").

(** A character of a word: neither a dot nor a word separator. *)
Definition word_char (c : ascii) : bool :=
  negb (TableUtils.is_word_sep c || Ascii.eqb c ".").

(** Of the words after the first, all but the last are non-empty: what
    [split(/[_\s]+/)] guarantees of its pieces. *)
Fixpoint inner_nonempty (tl : list string) : bool :=
  match tl with
  | [] => true
  | w :: rest =>
      match rest with
      | [] => true
      | _ :: _ => negb (String.eqb w EmptyString) && inner_nonempty rest
      end
  end.

Definition sep_free (w : string) : bool :=
  string_forall (fun c => negb (TableUtils.is_word_sep c)) w.

End Chars.

(** ** The rest of the table hook: what a cell shows *)

Module Cells.

(** The accessor given to [columnHelper.accessor] for the field
    [fieldName]; the table engine calls it on the row, and
    [info.getValue()] is its result. *)
Definition accessor (fieldName : string) (row : JsVal) : Completion Fetched :=
  TableUtils.getFieldValue row fieldName.

(** The column's [cell] on what the accessor returns.  Data goes through
    [TableLogic.cell].  A prototype object is an object without a
    [value] member and is given to [JSON.stringify]; a function is
    neither [null], nor an object, nor a number, and is returned as it
    is. *)
Definition cell (value : Fetched) : Completion TableLogic.Rendered :=
  match value with
  | Data v => TableLogic.cell v
  | PrototypeObject p => Normal (TableLogic.JSON_stringify_prototype p)
  | BuiltinFunction p name => Normal (TableLogic.Rendered_function p name)
  end.

(** What is displayed in the cell of [row] in the column of [fieldName]:
    the column's [cell] applied to [info.getValue()]. *)
Definition render_cell (fieldName : string) (row : JsVal)
  : Completion TableLogic.Rendered :=
  value <- accessor fieldName row ;;
  cell value.

End Cells.

(** ** Field descriptors as [createColumns] reads them *)

Module Descriptors.

(** [v.k], [undefined] where the read would throw. *)
Definition read (v : JsVal) (k : string) : JsVal :=
  match get v k with
  | Normal x => x
  | Throw _ => JUndefined
  end.

(** The descriptors that one of the three metadata fields contributes:
    the elements of an array, nothing for a falsy value. *)
Definition descriptors (metadata : JsVal) : list JsVal :=
  match metadata with
  | JArr l => l
  | _ => []
  end.


Definition is_string (v : JsVal) : bool :=
  match v with JStr _ => true | _ => false end.


(** A descriptor from which no column can be made: [null], [undefined],
    or one with neither a truthy [label] nor a string [name]. *)
Definition unusable (f : JsVal) : bool :=
  is_nullish f
  || (negb (truthy (read f "label")) && negb (is_string (read f "name"))).


(** All descriptors of a query response, in the order [createColumns]
    takes them. *)
Definition all_descriptors (queryResponse : JsVal) : list JsVal :=
  (descriptors (read queryResponse "fieldDimensions")
   ++ descriptors (read queryResponse "fieldMeasures")
   ++ descriptors (read queryResponse "fieldTableCalculations"))%list.

End Descriptors.

(** ** Numeric coercions *)

Module Coercion.

Section Host.

(** The host's numeric parser, on the text of a string and on the text
    that an array converts to; it is left open. *)
Variable parse : JsVal -> number.

Definition number_one : number := number_of_nat 1.

(** [Number(v)].  An object that converts does so to the text
    ["[object Object]"], which is not a number. *)
Definition ToNumber (v : JsVal) : Completion number :=
  match v with
  | JUndefined => Normal S754_nan
  | JNull => Normal number_zero
  | JBool b => Normal (if b then number_one else number_zero)
  | JNum n => Normal n
  | JStr _ => Normal (parse v)
  | JArr _ => _primitive <- ToPrimitive_effect v ;; Normal (parse v)
  | JObj _ => _primitive <- ToPrimitive_effect v ;; Normal S754_nan
  end.

(** [v > 0] *)
Definition greater_than_zero (v : JsVal) : Completion bool :=
  n <- ToNumber v ;;
  Normal (SFltb number_zero n).

(** [Number(v) || fallback] *)
Definition Number_or (v : JsVal) (fallback : number) : Completion JsVal :=
  n <- ToNumber v ;;
  Normal (or_else (JNum n) (JNum fallback)).

End Host.

(** [v ?? fallback] *)
Definition nullish_or (v fallback : JsVal) : JsVal :=
  if is_nullish v then fallback else v.

End Coercion.

(** ** The rest of the [Visualization] component *)

Module Controller.

Import Visualization.

Section Host.

Variable parse : JsVal -> number.

Definition sdk_unavailable (st : State) : State :=
  {| error := Some "Visualization SDK not available"; isLoading := false;
     data := data st; columns := columns st |}.

Definition keep_loading (st : State) : State :=
  {| error := error st; isLoading := true;
     data := data st; columns := columns st |}.

(** The initial data load effect, run with the SDK object of the
    extension context. *)
Definition initial_load (config : option TableLogic.TableFeatureConfig)
    (visualizationSDK : JsVal) (st : State) : Completion State :=
  if negb (truthy visualizationSDK) then Normal (sdk_unavailable st)
  else
    queryResponse <- get visualizationSDK "queryResponse" ;;
    logged <- get_opt queryResponse "data" ;;
    has_rows <- (if truthy logged then
                   rows <- get queryResponse "data" ;;
                   len <- get rows "length" ;;
                   Coercion.greater_than_zero parse len
                 else Normal false) ;;
    if has_rows then handleDataUpdate config queryResponse st
    else Normal (keep_loading st).

End Host.

(** *** The pager buttons

    Page indices and page counts are integers; [pageCount] is what
    [table.getPageCount()] returns. *)

Definition first_page : Z := 0%Z.

Definition previous_page (pageIndex : Z) : Z := Z.max (pageIndex - 1) 0.

Definition next_page (pageIndex pageCount : Z) : Z :=
  Z.min (pageIndex + 1) (pageCount - 1).

Definition last_page (pageCount : Z) : Z := (pageCount - 1)%Z.

End Controller.

(** ** The mapping of the saved settings to the configuration *)

Module ConfigMapping.

Import Coercion.

(** [VisualizationConfig]; a setting is whatever the host saved, so the
    fields hold values.  [columns] is [undefined] when absent. *)
Record VisualizationConfig : Type := {
  chartTitle : JsVal;
  titleAlignment : JsVal;
  titleSize : JsVal;
  titleWeight : JsVal;
  titleColor : JsVal;
  titlePadding : JsVal;
  subtitle : JsVal;
  subtitlePosition : JsVal;
  subtitleSize : JsVal;
  subtitleColor : JsVal;
  subtitleWeight : JsVal;
  enableSearchBar : JsVal;
  enableExpandCollapse : JsVal;
  rowsPerPage : JsVal;
  enableColumnResizing : JsVal;
  enableRowSelection : JsVal;
  enableColumnFilters : JsVal;
  enablePinning : JsVal;
  enableGrouping : JsVal;
  columnResizeMode : JsVal;
  columns : JsVal;
}.

Definition num (n : nat) : JsVal := JNum (number_of_nat n).

(** The defaults, around a given [columns]. *)
Definition defaults (cols : JsVal) : VisualizationConfig :=
  {| chartTitle := JStr EmptyString;
     titleAlignment := JStr "left";
     titleSize := num 16;
     titleWeight := num 500;
     titleColor := JStr "#1F2937";
     titlePadding := JStr "normal";
     subtitle := JStr EmptyString;
     subtitlePosition := JStr "below";
     subtitleSize := num 14;
     subtitleColor := JStr "#6B7280";
     subtitleWeight := num 400;
     enableSearchBar := JBool true;
     enableExpandCollapse := JBool true;
     rowsPerPage := num 10;
     enableColumnResizing := JBool true;
     enableRowSelection := JBool true;
     enableColumnFilters := JBool true;
     enablePinning := JBool true;
     enableGrouping := JBool true;
     columnResizeMode := JStr "onChange";
     columns := cols |}.

(** The initial state of [config]. *)
Definition initial_config : VisualizationConfig := defaults JUndefined.

(** The four settings that the mapping converts to numbers, in the order
    it converts them. *)
Definition numeric_settings (visConfig : JsVal) : list JsVal :=
  [ Descriptors.read visConfig "title_size";
    Descriptors.read visConfig "title_weight";
    Descriptors.read visConfig "subtitle_size";
    Descriptors.read visConfig "rows_per_page" ].

(** The saved settings that the configuration effect maps:
    [visualizationSDK.visualizationData.visConfig || {}]. *)
Definition saved_settings (visualizationSDK : JsVal) : JsVal :=
  or_else (Descriptors.read (Descriptors.read visualizationSDK "visualizationData")
             "visConfig")
          (JObj []).

Section Host.

Variable parse : JsVal -> number.

(** [JSON.stringify] on configurations. *)
Variable stringify : VisualizationConfig -> string.

(** [newConfig], from [{ ...prevConfig, chartTitle: ..., ... }].  The
    properties of the literal are evaluated in its order; of them only
    the four conversions can throw, and they are taken in that order. *)
Definition mapConfig (visConfig : JsVal) (prevConfig : VisualizationConfig)
  : Completion VisualizationConfig :=
  let setting := Descriptors.read visConfig in
  titleSize' <- Number_or parse (setting "title_size") (number_of_nat 16) ;;
  titleWeight' <- Number_or parse (setting "title_weight") (number_of_nat 500) ;;
  subtitleSize' <- Number_or parse (setting "subtitle_size") (number_of_nat 14) ;;
  rowsPerPage' <- Number_or parse (setting "rows_per_page") (number_of_nat 10) ;;
  Normal
    {| chartTitle := or_else (setting "title") (JStr EmptyString);
       titleAlignment := or_else (setting "title_alignment") (JStr "left");
       titleSize := titleSize';
       titleWeight := titleWeight';
       titleColor := or_else (setting "title_color") (JStr "#1F2937");
       titlePadding := or_else (setting "title_padding") (JStr "normal");
       subtitle := or_else (setting "subtitle") (JStr EmptyString);
       subtitlePosition := or_else (setting "subtitle_position") (JStr "below");
       subtitleSize := subtitleSize';
       subtitleColor := or_else (setting "subtitle_color") (JStr "#6B7280");
       subtitleWeight := num 400;
       enableSearchBar := nullish_or (setting "enable_search") (JBool true);
       enableExpandCollapse :=
         nullish_or (setting "enable_expand_collapse") (JBool true);
       rowsPerPage := rowsPerPage';
       enableColumnResizing :=
         nullish_or (setting "enable_column_resizing") (JBool true);
       enableRowSelection :=
         nullish_or (setting "enable_row_selection") (JBool true);
       enableColumnFilters :=
         nullish_or (setting "enable_column_filters") (JBool true);
       enablePinning := nullish_or (setting "enable_pinning") (JBool true);
       enableGrouping := nullish_or (setting "enable_grouping") (JBool true);
       columnResizeMode := or_else (setting "column_resize_mode") (JStr "onChange");
       columns := columns prevConfig |}.

(** The function given to [setConfig]. *)
Definition updater (visConfig : JsVal) (prevConfig : VisualizationConfig)
  : Completion VisualizationConfig :=
  newConfig <- mapConfig visConfig prevConfig ;;
  Normal (if negb (String.eqb (stringify newConfig) (stringify prevConfig))
          then newConfig else prevConfig).

(** The configuration effect, as the configuration it leaves; a
    [TypeError] of the function given to [setConfig] surfaces when the
    update is applied. *)
Definition config_effect (visualizationSDK : JsVal)
    (prevConfig : VisualizationConfig) : Completion VisualizationConfig :=
  visualizationData <- get_opt visualizationSDK "visualizationData" ;;
  if negb (truthy visualizationData) then Normal prevConfig
  else
    saved <- get visualizationData "visConfig" ;;
    updater (or_else saved (JObj [])) prevConfig.

End Host.

End ConfigMapping.

(** ** The collapsible header *)

Module CollapsibleHeader.

(** The props that the header's logic reads. *)
Record Props : Type := {
  isLoading : bool;
  isExpanded : bool;
  enableExpandCollapse : bool;
  titleAlignment : string;
  titlePadding : string;
}.

(** [handleClick]: the argument of its call of [setIsExpanded], if it
    makes one. *)
Definition handleClick (props : Props) : option bool :=
  if negb (isLoading props) && enableExpandCollapse props
  then Some (negb (isExpanded props))
  else None.

(** [handleHeaderKeyDown]: whether [preventDefault] is called, and the
    argument of the call of [setIsExpanded], if one is made. *)
Definition handleHeaderKeyDown (props : Props) (key : string) : bool * option bool :=
  if String.eqb key "Enter" || String.eqb key " " then
    (true,
     if negb (isLoading props) && enableExpandCollapse props
     then Some (negb (isExpanded props))
     else None)
  else (false, None).

Inductive Event : Type :=
| Click
| KeyDown (key : string).

(** The parent keeps [isExpanded] in its state and hands it back. *)
Definition with_expanded (props : Props) (call : option bool) : Props :=
  match call with
  | Some expanded =>
      {| isLoading := isLoading props; isExpanded := expanded;
         enableExpandCollapse := enableExpandCollapse props;
         titleAlignment := titleAlignment props;
         titlePadding := titlePadding props |}
  | None => props
  end.

Definition after (props : Props) (e : Event) : Props :=
  match e with
  | Click => with_expanded props (handleClick props)
  | KeyDown key => with_expanded props (snd (handleHeaderKeyDown props key))
  end.

Definition after_all (props : Props) (events : list Event) : Props :=
  fold_left after events props.

(** An event that asks for a toggle. *)
Definition activates (e : Event) : bool :=
  match e with
  | Click => true
  | KeyDown key => String.eqb key "Enter" || String.eqb key " "
  end.

(** [tabIndex] *)
Definition tabIndex (props : Props) : Z :=
  if negb (enableExpandCollapse props) || isLoading props then (-1)%Z else 0%Z.

(** [role] *)
Definition role (props : Props) : string :=
  if enableExpandCollapse props then "button" else "banner".

(** [aria-expanded] *)
Definition aria_expanded (props : Props) : option bool :=
  if enableExpandCollapse props then Some (isExpanded props) else None.

(** Whether the content section is mounted. *)
Definition content_mounted (props : Props) : bool :=
  isExpanded props || negb (enableExpandCollapse props).

(** The header's own [getTitleClasses]. *)
Definition getTitleClasses (props : Props) : string :=
  TableUtils.join_space
    [ "transition-all duration-200";
      "text-" ++ titleAlignment props;
      "py-" ++ (if String.eqb (titlePadding props) "compact" then "2"
                else if String.eqb (titlePadding props) "relaxed" then "4"
                else "3") ].

End CollapsibleHeader.

(** ** [getTitleClasses] of [tableUtils] *)

Module TitleClasses.

Definition alignmentClasses : list (string * string) :=
  [ ("left", "text-left"); ("center", "text-center"); ("right", "text-right") ].

Definition paddingClasses : list (string * string) :=
  [ ("compact", "py-2"); ("normal", "py-3"); ("relaxed", "py-4") ].

(** [record[key]] on the own keys of the two records above, for a key
    that is not the name of a member of [Object.prototype]: [None]
    stands for [undefined]. *)
Fixpoint lookup (key : string) (record : list (string * string)) : option string :=
  match record with
  | [] => None
  | (k, v) :: rest => if String.eqb key k then Some v else lookup key rest
  end.

(** [classes.join(' ')]: an [undefined] element counts as the empty
    string. *)
Definition join_classes (classes : list (option string)) : string :=
  TableUtils.join_space
    (map (fun c => match c with Some x => x | None => EmptyString end) classes).

Definition getTitleClasses (titleAlignment titlePadding : string) : string :=
  join_classes
    [ Some "transition-all duration-200";
      lookup titleAlignment alignmentClasses;
      lookup titlePadding paddingClasses ].

End TitleClasses.

(** ** [formatFieldLabel] on the strings of the host

    A string of the host is a sequence of 16-bit code units.  [split],
    [charAt], [slice] and the regular expression work on code units;
    [toUpperCase] and [toLowerCase] work on whole strings, by the
    Unicode tables of the host (one character may become two), and are
    left open. *)

Module CodeUnits.

Local Open Scope N_scope.
Local Open Scope list_scope.

Definition code_unit : Type := N.
Definition ustring : Type := list code_unit.

(** The code units of an ASCII string. *)
Definition of_string (s : string) : ustring :=
  map N_of_ascii (list_ascii_of_string s).

Definition full_stop : code_unit := 46.
Definition low_line : code_unit := 95.
Definition space : code_unit := 32.

(** The class [\s]: the white space and the line terminators of the
    language (tab to carriage return, space, no-break space, ogham space
    mark, en quad to hair space, line and paragraph separators, narrow
    no-break space, medium mathematical space, ideographic space, byte
    order mark). *)
Definition is_white_space (c : code_unit) : bool :=
  ((9 <=? c) && (c <=? 13)) || (c =? 32) || (c =? 160) || (c =? 5760)
  || ((8192 <=? c) && (c <=? 8202)) || (c =? 8232) || (c =? 8233)
  || (c =? 8239) || (c =? 8287) || (c =? 12288) || (c =? 65279).

(** The class [[_\s]]. *)
Definition is_word_sep (c : code_unit) : bool :=
  (c =? low_line) || is_white_space c.

(** [s.charAt(0)] *)
Definition charAt0 (s : ustring) : ustring :=
  match s with
  | [] => []
  | c :: _ => [c]
  end.

(** [s.slice(1)] *)
Definition slice1 (s : ustring) : ustring :=
  match s with
  | [] => []
  | _ :: s' => s'
  end.

(** [s.split(sep)] for a separator of one code unit. *)
Fixpoint split_on (sep : code_unit) (s : ustring) : list ustring :=
  match s with
  | [] => [[]]
  | c :: s' =>
      if c =? sep then [] :: split_on sep s'
      else match split_on sep s' with
           | w :: ws => (c :: w) :: ws
           | [] => [[c]]
           end
  end.

Definition starts_with_sep (s : ustring) : bool :=
  match s with
  | [] => false
  | c :: _ => is_word_sep c
  end.

(** [s.split(/[_\s]+/)] *)
Fixpoint split_word_seps (s : ustring) : list ustring :=
  match s with
  | [] => [[]]
  | c :: s' =>
      if is_word_sep c then
        if starts_with_sep s' then split_word_seps s'
        else [] :: split_word_seps s'
      else match split_word_seps s' with
           | w :: ws => (c :: w) :: ws
           | [] => [[c]]
           end
  end.

(** [words.join(' ')] *)
Fixpoint join_space (l : list ustring) : ustring :=
  match l with
  | [] => []
  | [w] => w
  | w :: ws => w ++ space :: join_space ws
  end.

Section Host.

Variables toUpperCase toLowerCase : ustring -> ustring.

(** [word.charAt(0).toUpperCase() + word.slice(1).toLowerCase()] *)
Definition capitalize (word : ustring) : ustring :=
  toUpperCase (charAt0 word) ++ toLowerCase (slice1 word).

Definition formatFieldLabel (fieldName : ustring) : ustring :=
  let parts := split_on full_stop fieldName in
  let displayName := List.last parts [] in
  let words := split_word_seps displayName in
  join_space (map capitalize words).

End Host.

(** The case conversions of the language cut down to the ASCII letters:
    what they do on ASCII strings. *)
Definition ascii_toUpperCase (s : ustring) : ustring :=
  map (fun c => if (97 <=? c) && (c <=? 122) then c - 32 else c) s.

Definition ascii_toLowerCase (s : ustring) : ustring :=
  map (fun c => if (65 <=? c) && (c <=? 90) then c + 32 else c) s.

(** A host whose case conversions are those of [TableUtils] on ASCII
    strings, as the conversions of the language are. *)
Definition ascii_host (toUpperCase toLowerCase : ustring -> ustring) : Prop :=
  forall word, Chars.is_ascii word = true ->
    toUpperCase (of_string word) = of_string (TableUtils.toUpperCase word) /\
    toLowerCase (of_string word) = of_string (TableUtils.toLowerCase word).

End CodeUnits.

(** ** The specification's formatter, on the strings of the host *)

Module SpecUnits.

Import CodeUnits.

Local Open Scope N_scope.
Local Open Scope list_scope.

(** "Take the last dot-delimited segment": scan the identifier, starting
    afresh after every dot. *)
Fixpoint last_segment_from (cur s : ustring) : ustring :=
  match s with
  | [] => cur
  | c :: s' =>
      if c =? 46 then last_segment_from [] s'
      else last_segment_from (cur ++ [c]) s'
  end.

Definition last_segment (identifier : ustring) : ustring :=
  last_segment_from [] identifier.

Definition underscore_or_whitespace (c : code_unit) : bool :=
  (c =? 95) || is_white_space c.

(** "Split that segment on underscores or whitespace runs". *)
Fixpoint words_from (cur : ustring) (in_run : bool) (s : ustring) : list ustring :=
  match s with
  | [] => [cur]
  | c :: s' =>
      if underscore_or_whitespace c then
        if in_run then words_from [] true s'
        else cur :: words_from [] true s'
      else words_from (cur ++ [c]) false s'
  end.

Definition words (segment : ustring) : list ustring :=
  words_from [] false segment.

Section Host.

Variables upper lower : ustring -> ustring.

(** "First character upper, remainder lower." *)
Definition title_case (word : ustring) : ustring :=
  upper (firstn 1 word) ++ lower (skipn 1 word).

(** "Join with single spaces." *)
Definition label (identifier : ustring) : ustring :=
  match map title_case (words (last_segment identifier)) with
  | [] => []
  | w :: ws => w ++ flat_map (cons 32) ws
  end.

End Host.

End SpecUnits.

(** ** Facts about values and properties *)

Module JsFacts.

Lemma assoc_set_same o k v : assoc k (set o k v) = Some v.
Proof.
  induction o as [|[k' v'] o IH]; simpl.
  - now rewrite String.eqb_refl.
  - destruct (String.eqb k k') eqn:E; simpl.
    + now rewrite String.eqb_refl.
    + now rewrite E.
Qed.

Lemma assoc_set_other o k k' v : k <> k' -> assoc k (set o k' v) = assoc k o.
Proof.
  intros Hne. induction o as [|[k0 v0] o IH]; simpl.
  - apply String.eqb_neq in Hne. now rewrite Hne.
  - destruct (String.eqb k' k0) eqn:E; simpl.
    + apply String.eqb_eq in E. subst k0.
      apply String.eqb_neq in Hne. now rewrite Hne.
    + destruct (String.eqb k k0); [reflexivity | exact IH].
Qed.

Lemma assoc_None_notin k l : assoc k l = None <-> ~ In k (map fst l).
Proof.
  induction l as [|[k' v'] l IH]; simpl.
  - tauto.
  - destruct (String.eqb k k') eqn:E.
    + apply String.eqb_eq in E. subst. split; [discriminate | tauto].
    + apply String.eqb_neq in E. rewrite IH. split.
      * intros H [H1 | H1]; [now apply E | now apply H].
      * tauto.
Qed.

(** Writing a new key appends. *)
Lemma set_fresh o k v : ~ In k (map fst o) -> set o k v = (o ++ [(k, v)])%list.
Proof.
  induction o as [|[k' v'] o IH]; simpl; [reflexivity|].
  intros Hn. destruct (String.eqb k k') eqn:E.
  - apply String.eqb_eq in E. subst. exfalso. apply Hn. now left.
  - rewrite IH; [reflexivity | tauto].
Qed.

Lemma string_of_nat_digit n : starts_with_digit (string_of_nat n) = true.
Proof.
  unfold string_of_nat, NilZero.string_of_uint.
  destruct (Nat.to_uint n); reflexivity.
Qed.

(** An array has no own property whose name does not start with a digit,
    [length] apart. *)
Lemma assoc_index_entries_None k l :
  starts_with_digit k = false -> assoc k (index_entries l) = None.
Proof.
  intros Hk. apply assoc_None_notin. unfold index_entries.
  intros Hin. apply in_map_iff in Hin. destruct Hin as [[k' v] [Hfst Hin]].
  simpl in Hfst. subst k'. apply in_combine_l in Hin.
  apply in_map_iff in Hin. destruct Hin as [n [Hn _]].
  rewrite <- Hn, string_of_nat_digit in Hk. discriminate.
Qed.

(** The source's wrapper test never throws and decides [Spec.wrapper]. *)
Lemma is_value_object_wrapper v :
  TableUtils.is_value_object v = Normal (Spec.wrapper v).
Proof.
  unfold TableUtils.is_value_object.
  destruct v as [| |b|n|s|elems|props]; simpl; try reflexivity.
  - now destruct b.
  - now destruct (number_truthy n).
  - now destruct (negb (String.eqb s EmptyString)).
  - now rewrite assoc_index_entries_None.
Qed.

Lemma get_object props k : get (JObj props) k = Normal (Spec.field (JObj props) k).
Proof.
  unfold get. simpl. now destruct (assoc k props).
Qed.

Lemma get_wrapper v k : Spec.wrapper v = true -> get v k = Normal (Spec.field v k).
Proof.
  destruct v; simpl; try discriminate. intros _. apply get_object.
Qed.

(** Reading a property throws on [null] and [undefined] only. *)
Lemma get_total v k : is_nullish v = false -> exists x, get v k = Normal x.
Proof.
  intros H. unfold get. rewrite H.
  destruct (assoc k (own_entries v)); [eauto|].
  destruct (own_length v); [|eauto].
  destruct (String.eqb k "length"); eauto.
Qed.

Lemma mapM_map {A B} (f : A -> Completion B) (g : A -> B) l :
  (forall x, In x l -> f x = Normal (g x)) -> mapM f l = Normal (map g l).
Proof.
  induction l as [|x l IH]; simpl; intros H; [reflexivity|].
  rewrite (H x (or_introl eq_refl)). simpl.
  rewrite IH by (intros y Hy; apply H; now right). reflexivity.
Qed.

(** *** Assignments *)

Lemma assign_set o k v : k <> "__proto__" -> assign o k v = set o k v.
Proof.
  intros H. unfold assign. apply String.eqb_neq in H. now rewrite H.
Qed.

Lemma assoc_assign_same o k v :
  k <> "__proto__" -> assoc k (assign o k v) = Some v.
Proof. intros H. rewrite assign_set by exact H. apply assoc_set_same. Qed.

Lemma assoc_assign_other o k k' v :
  k <> k' -> assoc k (assign o k' v) = assoc k o.
Proof.
  intros H. unfold assign. destruct (String.eqb k' "__proto__");
    [destruct (assoc k' o); [now apply assoc_set_other | reflexivity]
    | now apply assoc_set_other].
Qed.

(** Under [__proto__] an object without that key is left as it is. *)
Lemma assign_proto o v : assoc "__proto__" o = None -> assign o "__proto__" v = o.
Proof. intros H. unfold assign. cbn [String.eqb Ascii.eqb Bool.eqb]. now rewrite H. Qed.

Lemma assignable_all entries :
  existsb (fun k => String.eqb k "__proto__") (map fst entries) = false ->
  assignable entries = entries.
Proof.
  unfold assignable. induction entries as [|[k v] entries IH];
    cbn [map fst existsb filter]; [reflexivity|].
  intros H. apply orb_false_elim in H. destruct H as [Hk Hrest].
  rewrite Hk. cbn [negb]. now rewrite IH.
Qed.

Lemma assignable_In k v entries :
  In (k, v) (assignable entries) -> In (k, v) entries /\ k <> "__proto__".
Proof.
  unfold assignable. intros H. apply filter_In in H. destruct H as [Hin Hk].
  split; [exact Hin|]. cbn [fst] in Hk. apply negb_true_iff in Hk.
  now apply String.eqb_neq.
Qed.

Lemma assignable_keys_incl entries k :
  In k (map fst (assignable entries)) -> In k (map fst entries).
Proof.
  intros H. apply in_map_iff in H. destruct H as [[k' v] [<- Hin]].
  apply assignable_In in Hin. destruct Hin as [Hin _].
  change (fst (k', v)) with (fst (k', v)). now apply (in_map fst) in Hin.
Qed.

Lemma assignable_NoDup entries :
  NoDup (map fst entries) -> NoDup (map fst (assignable entries)).
Proof.
  unfold assignable. induction entries as [|[k v] entries IH];
    cbn [map fst filter]; intros H; [constructor|].
  inversion H as [|? ? Hnotin Hnd]; subst.
  destruct (negb (String.eqb k "__proto__")); [|now apply IH].
  cbn [map fst]. constructor; [|now apply IH].
  intros Hin. apply Hnotin. now apply assignable_keys_incl.
Qed.

Lemma assignable_no_proto entries :
  existsb (fun k => String.eqb k "__proto__") (map fst (assignable entries))
  = false.
Proof.
  unfold assignable. induction entries as [|[k v] entries IH];
    cbn [map fst filter existsb]; [reflexivity|].
  destruct (String.eqb k "__proto__") eqn:E; cbn [negb]; [exact IH|].
  cbn [map fst existsb]. now rewrite E, IH.
Qed.

(** A [forEach] whose callback always assigns [g value] under the entry's
    own key. *)
Lemma forEach_entries_assign f g entries : forall acc,
  (forall a k v, In (k, v) entries -> f a (k, v) = Normal (assign a k (g v))) ->
  NoDup (map fst entries) ->
  (forall k, In k (map fst entries) -> ~ In k (map fst acc)) ->
  forEach_entries f entries acc
  = Normal (acc ++ map (fun kv => (fst kv, g (snd kv))) (assignable entries))%list.
Proof.
  unfold assignable.
  induction entries as [|[k v] entries IH]; intros acc Hf Hnd Hdisj;
    cbn [forEach_entries map filter fst].
  - now rewrite app_nil_r.
  - inversion Hnd as [|? ? Hnotin Hnd']; subst.
    rewrite (Hf acc k v (or_introl eq_refl)). cbn [bind]. unfold assign.
    destruct (String.eqb k "__proto__"); cbn [negb].
    + rewrite (proj2 (assoc_None_notin k acc) (Hdisj k (or_introl eq_refl))).
      apply IH; [| exact Hnd' |].
      * intros a k' v' Hin. apply Hf. now right.
      * intros k' Hin. apply Hdisj. now right.
    + rewrite set_fresh by (apply Hdisj; now left).
      rewrite IH; [cbn [map fst snd]; now rewrite <- app_assoc | | exact Hnd' |].
      * intros a k' v' Hin. apply Hf. now right.
      * intros k' Hin. rewrite map_app, in_app_iff. simpl.
        intros [H1 | [H1 | []]].
        -- apply (Hdisj k'); [now right | exact H1].
        -- subst k'. now apply Hnotin.
Qed.

(** *** Reading under a computed name *)

#[local] Arguments member : simpl never.

Lemma inherited_member p k : inherited k = false -> member p k = None.
Proof.
  unfold inherited. rewrite existsb_app. intros H.
  apply orb_false_elim in H. destruct H as [HO HA].
  destruct p; unfold member.
  - rewrite HO. now destruct (String.eqb k "__proto__").
  - now rewrite HA.
Qed.

Lemma inherited_not_proto k : inherited k = false -> String.eqb k "__proto__" = false.
Proof.
  intros H. destruct (String.eqb k "__proto__") eqn:E; [|reflexivity].
  apply String.eqb_eq in E. subst k. discriminate H.
Qed.

(** Under a name that data does not inherit, the read under a computed
    name is the read of the own property. *)
Lemma lookup_get v o k :
  as_object (Data v) = Some o ->
  inherited k = false ->
  exists x, get v k = Normal x /\ lookup o k = Data x.
Proof.
  intros Ho Hk.
  pose proof (inherited_not_proto k Hk) as Hp.
  pose proof (inherited_member ObjectPrototype k Hk) as HmO.
  pose proof (inherited_member ArrayPrototype k Hk) as HmA.
  destruct v as [| |b|n|s|elems|props]; try discriminate Ho;
    injection Ho as <-; unfold get, lookup, above, own; simpl.
  - destruct (assoc k (index_entries elems)) as [x|]; [eauto|].
    destruct (String.eqb k "length"); [eauto|].
    rewrite Hp, HmA, HmO. eauto.
  - destruct (assoc k props) as [x|]; simpl; [eauto|].
    rewrite Hp, HmO. eauto.
Qed.

Lemma has_has_property v o k :
  as_object (Data v) = Some o ->
  inherited k = false ->
  has_property k v = Normal (has k o).
Proof.
  intros Ho Hk.
  pose proof (inherited_not_proto k Hk) as Hp.
  pose proof (inherited_member ObjectPrototype k Hk) as HmO.
  pose proof (inherited_member ArrayPrototype k Hk) as HmA.
  destruct v as [| |b|n|s|elems|props]; try discriminate Ho;
    injection Ho as <-; unfold has, above, own; simpl.
  - destruct (assoc k (index_entries elems)) as [x|]; [reflexivity|].
    destruct (String.eqb k "length"); [reflexivity|].
    now rewrite Hp, HmA, HmO.
  - destruct (assoc k props) as [x|]; simpl; [reflexivity|].
    now rewrite Hp, HmO.
Qed.

(** So it is under every name that the sources write out. *)
Lemma written_names_not_inherited :
  Forall (fun k => inherited k = false) written_names.
Proof. repeat constructor. Qed.

Lemma get_written_name v o k :
  In k written_names ->
  as_object (Data v) = Some o ->
  exists x, get v k = Normal x /\ lookup o k = Data x.
Proof.
  intros Hk Ho. apply (lookup_get v o k Ho).
  exact (proj1 (Forall_forall _ _) written_names_not_inherited k Hk).
Qed.

Lemma has_written_name v o k :
  In k written_names ->
  as_object (Data v) = Some o ->
  has_property k v = Normal (has k o).
Proof.
  intros Hk Ho. apply (has_has_property v o k Ho).
  exact (proj1 (Forall_forall _ _) written_names_not_inherited k Hk).
Qed.

(** A name that [in] does not find reads as [undefined]. *)
Lemma lookup_missing o k : has k o = false -> lookup o k = Data JUndefined.
Proof.
  unfold has, lookup. destruct (own o k); [discriminate|].
  destruct (String.eqb k "__proto__"); [discriminate|]. simpl.
  now destruct (above o k).
Qed.

Lemma has_own_key props k x : assoc k props = Some x -> has k (DataObject props) = true.
Proof. intros H. unfold has, own. now rewrite H. Qed.

Lemma lookup_own_key props k x :
  assoc k props = Some x -> lookup (DataObject props) k = Data x.
Proof. intros H. unfold lookup, own. now rewrite H. Qed.

(** The wrapper test on what a read gave, and the unwrapping. *)
Lemma unwrap_value_unwrap value :
  TableUtils.unwrap_value value = Spec.unwrap_fetched value.
Proof.
  destruct value as [v|p|p name]; [| now destruct p | reflexivity].
  destruct v as [| |b|n|s|elems|props]; try reflexivity.
  - unfold TableUtils.unwrap_value, has, own. simpl.
    now rewrite (assoc_index_entries_None "value" elems eq_refl).
  - unfold TableUtils.unwrap_value, has, lookup, own. simpl.
    unfold Spec.unwrap, Spec.wrapper, Spec.field.
    destruct (assoc "value" props); reflexivity.
Qed.

End JsFacts.

(** ** [tableUtils]: the value normalizer and the row transformer *)

Module TableUtilsFacts.

Import TableUtils JsFacts.

Lemma nested_access_undefined parts :
  nested_access (Data JUndefined) parts = Data JUndefined.
Proof. destruct parts; reflexivity. Qed.

(** One turn of the loop. *)
Lemma nested_access_step value o part rest :
  as_object value = Some o ->
  nested_access value (part :: rest)
  = nested_access (Spec.unwrap_fetched (lookup o part)) rest.
Proof. intros Ho. simpl. now rewrite Ho, unwrap_value_unwrap. Qed.

Lemma nested_access_unresolved value parts :
  Spec.unresolved value parts -> nested_access value parts = Data JUndefined.
Proof.
  induction 1 as [value part rest Hno | value o part rest Hobj Hmiss
                 | value o part rest Hobj _ IH].
  - simpl. now rewrite Hno.
  - rewrite (nested_access_step value o part rest Hobj).
    rewrite (lookup_missing o part Hmiss). apply nested_access_undefined.
  - now rewrite (nested_access_step value o part rest Hobj).
Qed.

Lemma as_object_data v :
  as_object (Data v) = None <-> (is_nullish v || negb (typeof_object v)) = true.
Proof. destruct v; simpl; split; congruence. Qed.

(** A path of names that data does not inherit, unresolved inside the
    row, is unresolved. *)
Lemma unresolved_in_row_unresolved v parts :
  Forall (fun name => inherited name = false) parts ->
  Spec.unresolved_in_row v parts -> Spec.unresolved (Data v) parts.
Proof.
  intros Hnames Hpath. induction Hpath as [v part rest Hno | v part rest Hobj Hmiss
                 | v part rest child Hobj Hget _ IH].
  - apply Spec.unresolved_not_object. now apply as_object_data.
  - destruct (as_object (Data v)) as [o|] eqn:Ho.
    + apply (Spec.unresolved_missing _ o); [exact Ho|].
      pose proof (has_has_property v o part Ho (Forall_inv Hnames)) as Hhas.
      congruence.
    + apply as_object_data in Ho. congruence.
  - destruct (as_object (Data v)) as [o|] eqn:Ho.
    + apply (Spec.unresolved_below _ o); [exact Ho|].
      destruct (lookup_get v o part Ho (Forall_inv Hnames)) as [x [Hx ->]].
      assert (x = child) by congruence. subst x.
      apply IH. now apply Forall_inv_tail in Hnames.
    + apply as_object_data in Ho. congruence.
Qed.

(** The per-field callback always completes, with the normalized cell
    assigned under the entry's key. *)
Lemma transformField_try_normal transformedRow key value :
  transformField_try transformedRow key value
  = Normal (assign transformedRow key (Spec.normalize_cell value)).
Proof.
  unfold transformField_try, Spec.normalize_cell.
  change (is_null value || is_undefined value) with (is_nullish value).
  destruct value as [| |b|n|s|elems|props]; simpl; try reflexivity.
  - now rewrite assoc_index_entries_None.
  - destruct (assoc "value" props) eqn:E; simpl.
    + unfold get. simpl. now rewrite E.
    + reflexivity.
Qed.

Lemma transformField_normal transformedRow key value :
  transformField transformedRow (key, value)
  = Normal (assign transformedRow key (Spec.normalize_cell value)).
Proof.
  unfold transformField. now rewrite transformField_try_normal.
Qed.

(** An object row with distinct keys: every entry but one under
    [__proto__] is assigned, normalized, in order. *)
Lemma transformLookerRow_distinct props :
  NoDup (map fst props) ->
  transformLookerRow (JObj props)
  = Normal (JObj (map (fun kv => (fst kv, Spec.normalize_cell (snd kv)))
                      (assignable props))).
Proof.
  intros Hnd. unfold transformLookerRow, Object_entries. simpl.
  rewrite (forEach_entries_assign transformField Spec.normalize_cell props []).
  - reflexivity.
  - intros a k v _. apply transformField_normal.
  - exact Hnd.
  - intros k _ [].
Qed.

Lemma transformLookerRow_row row :
  Spec.is_row row -> has_proto_key row = false ->
  transformLookerRow row = Normal (Spec.normalize_row row).
Proof.
  destruct row as [| |b|n|s|elems|props]; simpl; try tauto. intros Hnd Hproto.
  rewrite (transformLookerRow_distinct props Hnd).
  unfold Spec.normalize_row. cbn [own_entries].
  now rewrite (assignable_all props Hproto).
Qed.

Lemma transformLookerData_rows data :
  Forall Spec.is_row data ->
  Forall (fun row => has_proto_key row = false) data ->
  transformLookerData data = Normal (map Spec.normalize_row data).
Proof.
  intros Hrows Hproto. unfold transformLookerData. apply mapM_map.
  intros row Hin. apply transformLookerRow_row.
  - now apply (proj1 (Forall_forall _ _) Hrows).
  - now apply (proj1 (Forall_forall _ _) Hproto).
Qed.

(** Rows with distinct keys, whatever the keys. *)
Lemma transformLookerData_distinct data :
  Forall Spec.is_row data ->
  transformLookerData data
  = Normal (map (fun row =>
                   JObj (map (fun kv => (fst kv, Spec.normalize_cell (snd kv)))
                             (assignable (own_entries row))))
                data).
Proof.
  intros Hrows. unfold transformLookerData. apply mapM_map.
  intros row Hin. pose proof (proj1 (Forall_forall _ _) Hrows row Hin) as Hrow.
  destruct row as [| |b|n|s|elems|props]; simpl in Hrow; try tauto.
  now apply transformLookerRow_distinct.
Qed.

Lemma assoc_map_values (g : JsVal -> JsVal) k l :
  assoc k (map (fun kv => (fst kv, g (snd kv))) l) = option_map g (assoc k l).
Proof.
  induction l as [|[k' v'] l IH]; simpl; [reflexivity|].
  destruct (String.eqb k k'); [reflexivity | exact IH].
Qed.

(** *** The claims about [getFieldValue] *)

(** Reading a direct key: what is stored, unwrapped once. *)
Lemma getFieldValue_own_key props fieldName stored :
  assoc fieldName props = Some stored ->
  getFieldValue (JObj props) fieldName = Normal (Data (Spec.unwrap stored)).
Proof.
  intros Hkey. unfold getFieldValue. simpl.
  rewrite (has_own_key _ _ _ Hkey), (lookup_own_key _ _ _ Hkey).
  now rewrite unwrap_value_unwrap.
Qed.

(** C6. When the field identifier is a direct key of an object row,
    [getFieldValue] returns the stored value unchanged if that value is
    not a wrapper object, and the wrapper's [value] field (not the
    wrapper itself) if the stored value is an object containing a
    [value] key. *)
Theorem getFieldValue_direct_key props fieldName stored :
  assoc fieldName props = Some stored ->
  (Spec.wrapper stored = false ->
   getFieldValue (JObj props) fieldName = Normal (Data stored)) /\
  (forall wprops inner,
     stored = JObj wprops -> assoc "value" wprops = Some inner ->
     getFieldValue (JObj props) fieldName = Normal (Data inner)).
Proof.
  intros Hkey.
  pose proof (getFieldValue_own_key props fieldName stored Hkey) as Hdirect.
  split.
  - intros W. rewrite Hdirect. unfold Spec.unwrap. now rewrite W.
  - intros wprops inner -> Hinner. rewrite Hdirect.
    unfold Spec.unwrap. simpl. now rewrite Hinner.
Qed.

Lemma getFieldValue_direct_key_witness :
  getFieldValue (JObj Samples.wrapped_count_row) "count" = Normal (Data Samples.seven).
Proof.
  exact (proj2 (getFieldValue_direct_key Samples.wrapped_count_row "count" _ eq_refl)
               _ _ eq_refl eq_refl).
Defined.

(** C4, as stated, does not hold: the identifier [view.constructor] is
    no key of the row [{ view: { total: 1 } }] and its path does not
    resolve inside the row, the value under [view] having no key
    [constructor]; the read of line 40 finds the segment on the
    prototype of that value, and [getFieldValue] returns the function
    found there. *)
Lemma getFieldValue_inherited_segment :
  let fieldName := "view.constructor" in
  assoc fieldName Samples.total_row = None /\
  Spec.unresolved_in_row (JObj Samples.total_row) (split_on "."%char fieldName) /\
  getFieldValue (JObj Samples.total_row) fieldName
  = Normal (BuiltinFunction ObjectPrototype "constructor") /\
  getFieldValue (JObj Samples.total_row) fieldName <> Normal (Data JUndefined).
Proof.
  simpl. split; [reflexivity|]. split; [|split; [reflexivity | discriminate]].
  eapply Spec.unresolved_in_row_below; [reflexivity | reflexivity |].
  apply Spec.unresolved_in_row_missing; reflexivity.
Qed.

(** C4, amended.  For an object row and a field identifier that [in]
    does not find on the row and whose dotted path does not resolve (an
    intermediate value is [null], not an object, or neither has nor
    inherits the next segment), [getFieldValue] completes normally,
    without throwing, and returns [undefined], which is not [null].  A
    path of names that data does not inherit resolves exactly when it
    resolves inside the row. *)
Theorem getFieldValue_unresolved_path props fieldName :
  (has fieldName (DataObject props) = false ->
   Spec.unresolved (Data (JObj props)) (split_on "."%char fieldName) ->
   getFieldValue (JObj props) fieldName = Normal (Data JUndefined)) /\
  (Forall (fun name => inherited name = false)
     (fieldName :: split_on "."%char fieldName) ->
   assoc fieldName props = None ->
   Spec.unresolved_in_row (JObj props) (split_on "."%char fieldName) ->
   getFieldValue (JObj props) fieldName = Normal (Data JUndefined)) /\
  Data JUndefined <> Data JNull.
Proof.
  assert (Hmain : has fieldName (DataObject props) = false ->
                  Spec.unresolved (Data (JObj props)) (split_on "."%char fieldName) ->
                  getFieldValue (JObj props) fieldName = Normal (Data JUndefined)).
  { intros Hkey Hpath. unfold getFieldValue. simpl. rewrite Hkey.
    now rewrite (nested_access_unresolved _ _ Hpath). }
  split; [exact Hmain|]. split; [|discriminate].
  intros Hnames Hkey Hpath. apply Hmain.
  - pose proof (has_has_property (JObj props) _ fieldName eq_refl
                  (Forall_inv Hnames)) as Hhas.
    simpl in Hhas. rewrite Hkey in Hhas. congruence.
  - apply unresolved_in_row_unresolved; [|exact Hpath].
    now apply Forall_inv_tail in Hnames.
Qed.

Lemma getFieldValue_unresolved_path_witness :
  getFieldValue (JObj Samples.null_inside_row) "view.total.x" = Normal (Data JUndefined) /\
  getFieldValue (JObj Samples.null_inside_row) "view.total.x" = Normal (Data JUndefined).
Proof.
  split.
  - apply (proj1 (getFieldValue_unresolved_path Samples.null_inside_row "view.total.x"));
      [reflexivity|].
    simpl. eapply Spec.unresolved_below; [reflexivity|]. simpl.
    eapply Spec.unresolved_below; [reflexivity|]. simpl.
    apply Spec.unresolved_not_object. reflexivity.
  - apply (proj1 (proj2 (getFieldValue_unresolved_path Samples.null_inside_row
                           "view.total.x")));
      [repeat constructor | reflexivity |].
    simpl. eapply Spec.unresolved_in_row_below; [reflexivity | reflexivity |].
    eapply Spec.unresolved_in_row_below; [reflexivity | reflexivity |].
    apply Spec.unresolved_in_row_not_object. reflexivity.
Defined.

(** [getFieldValue] completes normally on every object row, whatever the
    identifier. *)
Lemma getFieldValue_total props fieldName :
  exists r, getFieldValue (JObj props) fieldName = Normal r.
Proof.
  unfold getFieldValue. simpl.
  destruct (has fieldName (DataObject props)); eauto.
Qed.

(** *** The claims about [transformLookerData] *)

(** C3, as stated, does not hold on a row with a key [__proto__] of its
    own, as [JSON.parse] makes one: the row [{ "__proto__": 1, a: 2 }]
    holds a plain value under that key, to be emitted unchanged, and the
    transformed row has no such key. *)
Lemma transformLookerData_drops_proto_key :
  Spec.is_row (JObj Samples.proto_key_row) /\
  assoc "__proto__" Samples.proto_key_row = Some (JNum (number_of_nat 1)) /\
  transformLookerData [ JObj Samples.proto_key_row ]
  = Normal [ JObj [ ("a", JNum (number_of_nat 2)) ] ] /\
  transformLookerData [ JObj Samples.proto_key_row ]
  <> Normal [ Spec.normalize_row (JObj Samples.proto_key_row) ].
Proof.
  split; [|split; [reflexivity | split; [reflexivity | discriminate]]].
  repeat constructor; simpl; intuition discriminate.
Qed.

(** C3, amended. On rows that are objects with distinct keys, none of them
    [__proto__], [transformLookerData] keeps the number and the order of
    the rows: it completes normally, the output has the length of the
    input and its i-th row is built from the i-th input row alone, with
    the same keys.  Under each key the row holds [null] when the input
    value is [null] or [undefined], the wrapper's [value] when the input
    value is a wrapper object, and the input value itself otherwise.
    The callback that transforms one field always completes normally and
    leaves every other key of the row under construction as it was, so
    no field can abort its row or the batch: the callback is its [try]
    block guarded by its [catch] block, and whatever the [try] block
    does, the guarded block completes normally, with the row of the
    [try] block or, if that threw, the row with [null] assigned under
    the field's key.  A field under the key [__proto__] is not copied:
    when what would be stored is a primitive other than [null], the
    assignment leaves the row under construction, which has no such key,
    as it is. *)
Theorem transformLookerData_contract data :
  Forall Spec.is_row data ->
  Forall (fun row => has_proto_key row = false) data ->
  exists out,
    transformLookerData data = Normal out /\
    List.length out = List.length data /\
    (forall i props,
       nth_error data i = Some (JObj props) ->
       exists props',
         nth_error out i = Some (JObj props') /\
         map fst props' = map fst props /\
         forall key value,
           assoc key props = Some value ->
           (is_nullish value = true -> assoc key props' = Some JNull) /\
           (forall wprops inner,
              value = JObj wprops -> assoc "value" wprops = Some inner ->
              assoc key props' = Some inner) /\
           (is_nullish value = false -> Spec.wrapper value = false ->
            assoc key props' = Some value)) /\
    (forall transformedRow key value,
       exists transformedRow',
         transformField transformedRow (key, value) = Normal transformedRow' /\
         forall k, k <> key -> assoc k transformedRow' = assoc k transformedRow) /\
    (forall transformedRow key value,
       transformField transformedRow (key, value)
       = try_catch (transformField_try transformedRow key value)
                   (transformField_catch transformedRow key)) /\
    (forall transformedRow key (attempt : Completion (list (string * JsVal))),
       try_catch attempt (transformField_catch transformedRow key)
       = match attempt with
         | Normal row => Normal row
         | Throw _ => Normal (assign transformedRow key JNull)
         end) /\
    (forall transformedRow value,
       assoc "__proto__" transformedRow = None ->
       is_primitive (Spec.normalize_cell value) = true ->
       Spec.normalize_cell value <> JNull ->
       transformField transformedRow ("__proto__", value) = Normal transformedRow).
Proof.
  intros Hrows Hproto. exists (map Spec.normalize_row data).
  split; [now apply transformLookerData_rows|].
  split; [apply length_map|]. split; [|split; [|split; [|split]]].
  - intros i props Hi.
    exists (map (fun kv => (fst kv, Spec.normalize_cell (snd kv))) props).
    split; [|split].
    + rewrite nth_error_map, Hi. reflexivity.
    + rewrite map_map. reflexivity.
    + intros key value Hkv. rewrite assoc_map_values, Hkv. simpl.
      unfold Spec.normalize_cell. repeat split.
      * intros ->. reflexivity.
      * intros wprops inner -> Hinner. simpl. now rewrite Hinner.
      * intros -> ->. reflexivity.
  - intros transformedRow key value.
    exists (assign transformedRow key (Spec.normalize_cell value)).
    split; [apply transformField_normal|].
    intros k Hk. now apply assoc_assign_other.
  - reflexivity.
  - intros transformedRow key attempt. now destruct attempt.
  - intros transformedRow value Hown _ _.
    now rewrite transformField_normal, assign_proto.
Qed.

Lemma transformLookerData_contract_witness :
  exists out,
    transformLookerData Samples.scenario_rows = Normal out /\
    List.length out = 2.
Proof.
  destruct (transformLookerData_contract Samples.scenario_rows)
    as [out [H1 [H2 _]]].
  - repeat constructor; simpl; intuition discriminate.
  - repeat constructor.
  - exists out. split; [exact H1 | exact H2].
Defined.

(** C2, as stated, fails: only one level of wrapping is removed, and a
    value that is a plain object is passed through.  The wrapper nested
    in [a]'s [value] and the object under [b] are both in the output. *)
Lemma transformLookerData_keeps_objects :
  transformLookerData Samples.nested_wrapper_rows
  = Normal [ JObj [ ("a", JObj [ ("value", JStr "x") ]);
                    ("b", JObj [ ("c", JNull) ]) ] ] /\
  ~ Spec.normalized [ JObj [ ("a", JObj [ ("value", JStr "x") ]);
                           ("b", JObj [ ("c", JNull) ]) ] ].
Proof.
  split; [reflexivity|].
  intros H.
  specialize (H _ (or_introl eq_refl) "a" (JObj [ ("value", JStr "x") ])
                (or_introl eq_refl)).
  discriminate H.
Qed.

(** C2, amended.  When every cell of every input row is a primitive
    (which includes [null] and [undefined]) or a wrapper object whose
    [value] is a primitive, [transformLookerData] completes normally and
    every value of every output row is a primitive. *)
Theorem transformLookerData_flat_rows data :
  Forall Spec.is_row data ->
  (forall row key value,
     In row data -> In (key, value) (own_entries row) ->
     Spec.flat_cell value = true) ->
  exists out,
    transformLookerData data = Normal out /\ Spec.normalized out.
Proof.
  intros Hrows Hflat. eexists.
  split; [now apply transformLookerData_distinct|].
  intros row' Hin' key value' Hkv.
  apply in_map_iff in Hin'. destruct Hin' as [row [<- Hin]].
  simpl in Hkv. apply in_map_iff in Hkv.
  destruct Hkv as [[k v] [Heq Hkv]]. simpl in Heq. injection Heq as <- <-.
  apply assignable_In in Hkv. destruct Hkv as [Hkv _].
  specialize (Hflat row k v Hin Hkv).
  unfold Spec.flat_cell in Hflat. unfold Spec.normalize_cell.
  destruct (is_nullish v); [reflexivity|].
  destruct (Spec.wrapper v) eqn:W.
  - destruct v; simpl in *; try discriminate. exact Hflat.
  - simpl in Hflat. now rewrite orb_false_r in Hflat.
Qed.

Lemma transformLookerData_flat_rows_witness :
  exists out,
    transformLookerData Samples.scenario_rows = Normal out /\ Spec.normalized out.
Proof.
  apply transformLookerData_flat_rows.
  - repeat constructor; simpl; intuition discriminate.
  - intros row key value Hrow Hkv. simpl in Hrow.
    destruct Hrow as [<- | [<- | []]]; simpl in Hkv;
      destruct Hkv as [[= <- <-] | [[= <- <-] | []]]; reflexivity.
Defined.

End TableUtilsFacts.

(** ** [formatFieldLabel] against the specification's formatter *)

Module LabelFacts.

Import TableUtils.

Lemma append_empty_r s : (s ++ EmptyString)%string = s.
Proof. induction s as [|c s IH]; simpl; [reflexivity | now rewrite IH]. Qed.

Lemma append_assoc_string a b c : ((a ++ b) ++ c)%string = (a ++ (b ++ c))%string.
Proof. induction a as [|x a IH]; simpl; [reflexivity | now rewrite IH]. Qed.

Lemma append_snoc cur c w :
  ((cur ++ String c EmptyString) ++ w)%string = (cur ++ String c w)%string.
Proof. now rewrite append_assoc_string. Qed.

Lemma is_word_sep_spec c : is_word_sep c = Spec.underscore_or_whitespace c.
Proof. destruct c as [[] [] [] [] [] [] [] []]; reflexivity. Qed.

Lemma toLowerCase_lower_all s : toLowerCase s = Spec.lower_all s.
Proof.
  induction s as [|c s IH]; simpl; [reflexivity|].
  unfold toLowerCase in *. simpl. now rewrite IH.
Qed.

Lemma capitalize_title_case word : capitalize word = Spec.title_case word.
Proof.
  destruct word as [|c rest]; [reflexivity|].
  unfold capitalize. simpl. now rewrite toLowerCase_lower_all.
Qed.

Lemma join_space_concat l : join_space l = String.concat " " l.
Proof.
  induction l as [|w [|w' ws] IH]; simpl; try reflexivity.
  simpl in IH. now rewrite IH.
Qed.

(** The last piece of [split('.')] is what the scan ends with. *)
Lemma split_on_last_segment s :
  forall cur, exists w ws,
    split_on "."%char s = w :: ws /\
    Spec.last_segment_from cur s = List.last ((cur ++ w)%string :: ws) EmptyString.
Proof.
  induction s as [|c s IH]; intros cur; simpl.
  - exists EmptyString, []. now rewrite append_empty_r.
  - destruct (Ascii.eqb c ".") eqn:E.
    + destruct (IH EmptyString) as [w [ws [Hs Hl]]].
      exists EmptyString, (split_on "."%char s). split; [reflexivity|].
      rewrite Hl, Hs. reflexivity.
    + destruct (IH (cur ++ String c EmptyString)%string) as [w [ws [Hs Hl]]].
      rewrite Hs. exists (String c w), ws. split; [reflexivity|].
      rewrite Hl, append_snoc. reflexivity.
Qed.

Lemma last_split_on s :
  List.last (split_on "."%char s) EmptyString = Spec.last_segment s.
Proof.
  unfold Spec.last_segment.
  destruct (split_on_last_segment s EmptyString) as [w [ws [Hs Hl]]].
  now rewrite Hl, Hs.
Qed.

(** The pieces of [split(/[_\s]+/)] are the words the scan collects. *)
Lemma split_word_seps_words s :
  exists w ws,
    split_word_seps s = w :: ws /\
    (starts_with_sep s = true -> w = EmptyString) /\
    (forall cur, Spec.words_from cur false s = (cur ++ w)%string :: ws) /\
    Spec.words_from EmptyString true s
    = (if starts_with_sep s then ws else w :: ws).
Proof.
  induction s as [|c s IH].
  - exists EmptyString, []. simpl. repeat split; try discriminate.
    intros cur. now rewrite append_empty_r.
  - destruct IH as [w [ws [Hs [Hhd [Hfalse Htrue]]]]].
    simpl. rewrite <- is_word_sep_spec.
    destruct (is_word_sep c) eqn:Hc.
    + destruct (starts_with_sep s) eqn:Hsep.
      * specialize (Hhd eq_refl). subst w.
        exists EmptyString, ws. rewrite Hs, Htrue.
        repeat split. intros cur. now rewrite append_empty_r.
      * exists EmptyString, (w :: ws). rewrite Hs, Htrue.
        repeat split. intros cur. now rewrite append_empty_r.
    + rewrite Hs. exists (String c w), ws.
      repeat split; try discriminate.
      * intros cur. now rewrite Hfalse, append_snoc.
      * now rewrite Hfalse.
Qed.

Lemma split_word_seps_spec s : split_word_seps s = Spec.words s.
Proof.
  destruct (split_word_seps_words s) as [w [ws [Hs [_ [Hfalse _]]]]].
  unfold Spec.words. now rewrite Hfalse, Hs.
Qed.

(** *** On the strings of the host *)

Lemma u_split_on_last_segment s :
  forall cur, exists w ws,
    CodeUnits.split_on CodeUnits.full_stop s = w :: ws /\
    SpecUnits.last_segment_from cur s = List.last ((cur ++ w)%list :: ws) [].
Proof.
  induction s as [|c s IH]; intros cur;
    cbn [CodeUnits.split_on SpecUnits.last_segment_from].
  - exists [], []. now rewrite app_nil_r.
  - change (N.eqb c CodeUnits.full_stop) with (N.eqb c 46).
    destruct (N.eqb c 46) eqn:E.
    + destruct (IH []) as [w [ws [Hs Hl]]].
      exists [], (CodeUnits.split_on CodeUnits.full_stop s).
      split; [reflexivity|]. rewrite Hl, Hs. reflexivity.
    + destruct (IH (cur ++ [c])%list) as [w [ws [Hs Hl]]].
      rewrite Hs. exists (c :: w), ws. split; [reflexivity|].
      rewrite Hl, <- app_assoc. reflexivity.
Qed.

Lemma u_last_split_on s :
  List.last (CodeUnits.split_on CodeUnits.full_stop s) []
  = SpecUnits.last_segment s.
Proof.
  unfold SpecUnits.last_segment.
  destruct (u_split_on_last_segment s []) as [w [ws [Hs Hl]]].
  now rewrite Hl, Hs.
Qed.

Lemma u_split_word_seps_words s :
  exists w ws,
    CodeUnits.split_word_seps s = w :: ws /\
    (CodeUnits.starts_with_sep s = true -> w = []) /\
    (forall cur, SpecUnits.words_from cur false s = (cur ++ w)%list :: ws) /\
    SpecUnits.words_from [] true s
    = (if CodeUnits.starts_with_sep s then ws else w :: ws).
Proof.
  induction s as [|c s IH].
  - exists [], []. simpl. repeat split; try discriminate.
    intros cur. now rewrite app_nil_r.
  - destruct IH as [w [ws [Hs [Hhd [Hfalse Htrue]]]]].
    cbn [CodeUnits.split_word_seps SpecUnits.words_from CodeUnits.starts_with_sep].
    change (SpecUnits.underscore_or_whitespace c) with (CodeUnits.is_word_sep c).
    destruct (CodeUnits.is_word_sep c) eqn:Hc.
    + destruct (CodeUnits.starts_with_sep s) eqn:Hsep.
      * specialize (Hhd eq_refl). subst w.
        exists [], ws. rewrite Hs, Htrue.
        repeat split. intros cur. now rewrite app_nil_r.
      * exists [], (w :: ws). rewrite Hs, Htrue.
        repeat split. intros cur. now rewrite app_nil_r.
    + rewrite Hs. exists (c :: w), ws.
      repeat split; try discriminate.
      * intros cur. now rewrite Hfalse, <- app_assoc.
      * now rewrite Hfalse.
Qed.

Lemma u_split_word_seps_spec s : CodeUnits.split_word_seps s = SpecUnits.words s.
Proof.
  destruct (u_split_word_seps_words s) as [w [ws [Hs [_ [Hfalse _]]]]].
  unfold SpecUnits.words. now rewrite Hfalse, Hs.
Qed.

Lemma u_join_space_flat ws :
  CodeUnits.join_space ws
  = match ws with
    | [] => []
    | w :: rest => (w ++ flat_map (cons 32%N) rest)%list
    end.
Proof.
  induction ws as [|w [|w' ws] IH]; [reflexivity | |].
  - cbn. now rewrite app_nil_r.
  - change (CodeUnits.join_space (w :: w' :: ws))
      with (w ++ CodeUnits.space :: CodeUnits.join_space (w' :: ws))%list.
    rewrite IH. reflexivity.
Qed.

Lemma u_capitalize_title_case upper lower word :
  CodeUnits.capitalize upper lower word = SpecUnits.title_case upper lower word.
Proof. destruct word; reflexivity. Qed.

(** On every string of the host, and whatever its case conversions,
    [formatFieldLabel] is the specification's formatter. *)
Lemma u_formatFieldLabel_label upper lower identifier :
  CodeUnits.formatFieldLabel upper lower identifier
  = SpecUnits.label upper lower identifier.
Proof.
  unfold CodeUnits.formatFieldLabel, SpecUnits.label.
  rewrite u_last_split_on, u_split_word_seps_spec, u_join_space_flat.
  rewrite (map_ext _ _ (u_capitalize_title_case upper lower)). reflexivity.
Qed.

(** *** The ASCII strings among them *)

Lemma of_string_append a b :
  CodeUnits.of_string (a ++ b)
  = (CodeUnits.of_string a ++ CodeUnits.of_string b)%list.
Proof.
  unfold CodeUnits.of_string.
  induction a as [|c a IH]; cbn; [reflexivity | now rewrite IH].
Qed.

Lemma N_of_ascii_full_stop c :
  N.eqb (N_of_ascii c) CodeUnits.full_stop = Ascii.eqb c ".".
Proof. destruct c as [[] [] [] [] [] [] [] []]; reflexivity. Qed.

Lemma is_word_sep_ascii c :
  (nat_of_ascii c <? 128)%nat = true ->
  CodeUnits.is_word_sep (N_of_ascii c) = is_word_sep c.
Proof.
  destruct c as [[] [] [] [] [] [] [] []]; intros H;
    try reflexivity; discriminate H.
Qed.

Lemma split_on_of_string s :
  CodeUnits.split_on CodeUnits.full_stop (CodeUnits.of_string s)
  = map CodeUnits.of_string (split_on "."%char s).
Proof.
  induction s as [|c s IH]; [reflexivity|].
  change (CodeUnits.of_string (String c s))
    with (N_of_ascii c :: CodeUnits.of_string s).
  cbn [CodeUnits.split_on split_on]. rewrite N_of_ascii_full_stop, IH.
  destruct (Ascii.eqb c "."); [reflexivity|].
  destruct (split_on "."%char s); reflexivity.
Qed.

Lemma is_ascii_split_on s :
  Chars.is_ascii s = true ->
  Forall (fun w => Chars.is_ascii w = true) (split_on "."%char s).
Proof.
  unfold Chars.is_ascii.
  induction s as [|c s IH]; cbn [Chars.string_forall split_on]; intros H.
  - repeat constructor.
  - apply andb_prop in H. destruct H as [Hc Hs]. specialize (IH Hs).
    destruct (Ascii.eqb c "."); [constructor; [reflexivity | exact IH]|].
    destruct (split_on "."%char s) as [|w ws].
    + repeat constructor. cbn [Chars.string_forall]. now rewrite Hc.
    + inversion IH as [|? ? Hw Hws]; subst. constructor; [|exact Hws].
      cbn [Chars.string_forall]. now rewrite Hc, Hw.
Qed.

Lemma starts_with_sep_of_string s :
  Chars.is_ascii s = true ->
  CodeUnits.starts_with_sep (CodeUnits.of_string s) = starts_with_sep s.
Proof.
  destruct s as [|c s]; [reflexivity|]. unfold Chars.is_ascii.
  cbn [Chars.string_forall]. intros H. apply andb_prop in H.
  destruct H as [Hc _]. now apply is_word_sep_ascii.
Qed.

Lemma split_word_seps_of_string s :
  Chars.is_ascii s = true ->
  CodeUnits.split_word_seps (CodeUnits.of_string s)
  = map CodeUnits.of_string (split_word_seps s) /\
  Forall (fun w => Chars.is_ascii w = true) (split_word_seps s).
Proof.
  induction s as [|c s IH]; intros H.
  - split; [reflexivity | repeat constructor].
  - assert (Hs : Chars.is_ascii s = true).
    { unfold Chars.is_ascii in *. cbn [Chars.string_forall] in H.
      apply andb_prop in H. tauto. }
    assert (Hc : (nat_of_ascii c <? 128)%nat = true).
    { unfold Chars.is_ascii in H. cbn [Chars.string_forall] in H.
      apply andb_prop in H. tauto. }
    destruct (IH Hs) as [IH1 IH2].
    change (CodeUnits.of_string (String c s))
      with (N_of_ascii c :: CodeUnits.of_string s).
    cbn [CodeUnits.split_word_seps split_word_seps].
    rewrite (is_word_sep_ascii c Hc), (starts_with_sep_of_string s Hs), IH1.
    destruct (is_word_sep c).
    + destruct (starts_with_sep s); split; try reflexivity; try exact IH2.
      constructor; [reflexivity | exact IH2].
    + destruct (split_word_seps s) as [|w ws].
      * split; [reflexivity|]. repeat constructor.
        unfold Chars.is_ascii. cbn [Chars.string_forall]. now rewrite Hc.
      * split; [reflexivity|].
        inversion IH2 as [|? ? Hw Hws]; subst. constructor; [|exact Hws].
        unfold Chars.is_ascii in *. cbn [Chars.string_forall]. now rewrite Hc, Hw.
Qed.

Lemma last_Forall {A} (P : A -> Prop) l d : Forall P l -> P d -> P (List.last l d).
Proof.
  induction l as [|x [|y l] IH]; intros Hl Hd; simpl; [exact Hd | |].
  - now inversion Hl.
  - apply IH; [now inversion Hl | exact Hd].
Qed.

Lemma last_map {A B} (f : A -> B) l d :
  List.last (map f l) (f d) = f (List.last l d).
Proof.
  induction l as [|x [|y l] IH]; try reflexivity. exact IH.
Qed.

Lemma join_space_of_string l :
  CodeUnits.join_space (map CodeUnits.of_string l)
  = CodeUnits.of_string (join_space l).
Proof.
  induction l as [|w [|w' ws] IH]; try reflexivity.
  change (join_space (w :: w' :: ws)) with (w ++ " " ++ join_space (w' :: ws)).
  change (CodeUnits.join_space (map CodeUnits.of_string (w :: w' :: ws)))
    with (CodeUnits.of_string w
          ++ CodeUnits.space
             :: CodeUnits.join_space (map CodeUnits.of_string (w' :: ws)))%list.
  now rewrite IH, !of_string_append.
Qed.

Lemma capitalize_of_string upper lower word :
  CodeUnits.ascii_host upper lower -> Chars.is_ascii word = true ->
  CodeUnits.capitalize upper lower (CodeUnits.of_string word)
  = CodeUnits.of_string (capitalize word).
Proof.
  intros Hhost Hword. unfold CodeUnits.capitalize, capitalize.
  rewrite of_string_append. destruct word as [|c rest].
  - change (CodeUnits.charAt0 (CodeUnits.of_string EmptyString))
      with (CodeUnits.of_string EmptyString).
    change (CodeUnits.slice1 (CodeUnits.of_string EmptyString))
      with (CodeUnits.of_string EmptyString).
    destruct (Hhost EmptyString eq_refl) as [-> ->]. reflexivity.
  - change (CodeUnits.charAt0 (CodeUnits.of_string (String c rest)))
      with (CodeUnits.of_string (String c EmptyString)).
    change (CodeUnits.slice1 (CodeUnits.of_string (String c rest)))
      with (CodeUnits.of_string rest).
    unfold Chars.is_ascii in Hword. cbn [Chars.string_forall] in Hword.
    apply andb_prop in Hword. destruct Hword as [Hc Hrest].
    destruct (Hhost (String c EmptyString)) as [-> _].
    { unfold Chars.is_ascii. cbn [Chars.string_forall]. now rewrite Hc. }
    destruct (Hhost rest Hrest) as [_ ->]. reflexivity.
Qed.

(** On ASCII identifiers, [formatFieldLabel] of [TableUtils] is the
    function on the strings of the host. *)
Lemma formatFieldLabel_of_string upper lower identifier :
  CodeUnits.ascii_host upper lower -> Chars.is_ascii identifier = true ->
  CodeUnits.formatFieldLabel upper lower (CodeUnits.of_string identifier)
  = CodeUnits.of_string (formatFieldLabel identifier).
Proof.
  intros Hhost Hid. unfold CodeUnits.formatFieldLabel, formatFieldLabel.
  rewrite split_on_of_string.
  change (@nil CodeUnits.code_unit) with (CodeUnits.of_string EmptyString).
  rewrite last_map.
  assert (Hlast : Chars.is_ascii (List.last (split_on "."%char identifier) EmptyString)
                  = true).
  { apply (last_Forall (fun w => Chars.is_ascii w = true));
      [now apply is_ascii_split_on | reflexivity]. }
  destruct (split_word_seps_of_string _ Hlast) as [-> Hwords].
  rewrite map_map, <- join_space_of_string, map_map. f_equal.
  apply map_ext_in. intros w Hw. apply capitalize_of_string; [exact Hhost|].
  now apply (proj1 (Forall_forall _ _) Hwords).
Qed.

(** C7. For every identifier, [formatFieldLabel] is the specification's
    formatter: it takes the last dot-delimited segment, splits it on runs
    of underscores or whitespace, upper-cases the first character and
    lower-cases the rest of every word, and joins the words with single
    spaces.  This holds on every string of the host, whatever its case
    conversions do; on ASCII identifiers, where the function is that of
    [TableUtils], which the rest of the development uses; and as a
    function it gives one result per input: in particular
    ["view.total_order_count"] gives ["Total Order Count"] and
    ["Revenue"] gives ["Revenue"]. *)
Theorem formatFieldLabel_label :
  (forall toUpperCase toLowerCase identifier,
     CodeUnits.formatFieldLabel toUpperCase toLowerCase identifier
     = SpecUnits.label toUpperCase toLowerCase identifier) /\
  (forall toUpperCase toLowerCase identifier,
     CodeUnits.ascii_host toUpperCase toLowerCase ->
     Chars.is_ascii identifier = true ->
     CodeUnits.formatFieldLabel toUpperCase toLowerCase
       (CodeUnits.of_string identifier)
     = CodeUnits.of_string (formatFieldLabel identifier)) /\
  (forall identifier,
     Chars.is_ascii identifier = true ->
     formatFieldLabel identifier = Spec.label identifier) /\
  formatFieldLabel "view.total_order_count" = "Total Order Count" /\
  formatFieldLabel "Revenue" = "Revenue".
Proof.
  split; [exact u_formatFieldLabel_label|].
  split; [exact formatFieldLabel_of_string|].
  split; [|split; reflexivity].
  intros identifier _. unfold formatFieldLabel, Spec.label.
  rewrite last_split_on, split_word_seps_spec, join_space_concat.
  f_equal. apply map_ext. exact capitalize_title_case.
Qed.

Lemma ascii_conversions_host :
  CodeUnits.ascii_host CodeUnits.ascii_toUpperCase CodeUnits.ascii_toLowerCase.
Proof.
  intros word _. unfold CodeUnits.ascii_toUpperCase, CodeUnits.ascii_toLowerCase,
    CodeUnits.of_string, toUpperCase, toLowerCase.
  split; induction word as [|c word IH]; try reflexivity;
    cbn [list_ascii_of_string map string_map]; rewrite IH; f_equal;
    destruct c as [[] [] [] [] [] [] [] []]; reflexivity.
Qed.

Lemma formatFieldLabel_label_witness :
  CodeUnits.formatFieldLabel CodeUnits.ascii_toUpperCase CodeUnits.ascii_toLowerCase
    (CodeUnits.of_string "orders.total_count")
  = CodeUnits.of_string "Total Count" /\
  formatFieldLabel "orders.total_count" = Spec.label "orders.total_count".
Proof.
  split.
  - exact (proj1 (proj2 formatFieldLabel_label) _ _ "orders.total_count"
             ascii_conversions_host eq_refl).
  - exact (proj1 (proj2 (proj2 formatFieldLabel_label)) "orders.total_count"
             eq_refl).
Defined.

End LabelFacts.

(** ** [useTableLogic]: the cell renderer and the pagination reset *)

Module TableLogicFacts.

Import TableLogic JsFacts.

(** C1, as stated, fails: a wrapper's [rendered] and [value] are chosen
    by truthiness, not by presence.  The wrapper [{ value: 0 }] is shown
    as the placeholder although its [value] is there, and
    [{ value: 5, rendered: '' }] is shown as [5] although its [rendered]
    is there. *)
Lemma cell_falsy_fields_skipped :
  cell Samples.zero_wrapper = Normal (Rendered_value placeholder) /\
  Spec.rendering_as_stated Samples.zero_wrapper = Rendered_value Samples.zero /\
  cell Samples.zero_wrapper <> Normal (Spec.rendering_as_stated Samples.zero_wrapper) /\
  cell Samples.empty_rendered_wrapper = Normal (Rendered_value (JNum (number_of_nat 5))) /\
  Spec.rendering_as_stated Samples.empty_rendered_wrapper = Rendered_value (JStr EmptyString).
Proof.
  repeat split; try reflexivity. discriminate.
Qed.

(** C1, amended.  For every value the cell renderer completes normally
    and returns, in this order: the placeholder ["-"] for [null] and
    [undefined]; for an object containing a [value] key, its [rendered]
    field if that is truthy, else its [value] field if that is truthy,
    else the placeholder; for any other object or array, its JSON text;
    for a number, its locale-formatted string; otherwise the value
    itself. *)
Theorem cell_rendering_policy value :
  cell value = Normal (Spec.rendering_policy value).
Proof.
  unfold cell.
  destruct value as [| |b|n|s|elems|props]; simpl; try reflexivity.
  - now rewrite assoc_index_entries_None.
  - destruct (assoc "value" props) as [inner|] eqn:Hv; simpl; [|reflexivity].
    unfold get. simpl. rewrite Hv.
    destruct (assoc "rendered" props) as [rendered|]; simpl.
    + destruct (truthy rendered); [reflexivity|].
      unfold or_else. now destruct (truthy inner).
    + unfold or_else. now destruct (truthy inner).
Qed.

(** *** The pagination-reset effect *)

Lemma apply_setter_effect_deps s a :
  effect_deps (apply_setter s a) = effect_deps s.
Proof. destruct a; reflexivity. Qed.

Lemma batch_effect_deps batch : forall s,
  effect_deps (fold_left apply_setter batch s) = effect_deps s.
Proof.
  induction batch as [|a batch IH]; intros s; simpl; [reflexivity|].
  now rewrite IH, apply_setter_effect_deps.
Qed.

Lemma run_effect_data s : data (run_effect s) = data s.
Proof. unfold run_effect. now destruct (effect_due s). Qed.

Lemma run_effect_columns s : columns (run_effect s) = columns s.
Proof. unfold run_effect. now destruct (effect_due s). Qed.

Lemma deps_eqb_eq a b : deps_eqb a b = true -> a = b.
Proof.
  destruct a, b. unfold deps_eqb. simpl. intros H.
  apply andb_prop in H. destruct H as [H1 H2].
  apply Nat.eqb_eq in H1, H2. now subst.
Qed.

(** Once the effect has run, it has seen the current dependencies. *)
Lemma run_effect_settled s :
  effect_deps (run_effect s) = Some (data (run_effect s), columns (run_effect s)).
Proof.
  unfold run_effect, effect_due.
  destruct (effect_deps s) as [d|] eqn:E; simpl; [|reflexivity].
  destruct (deps_eqb d (data s, columns s)) eqn:D; simpl; [|reflexivity].
  apply deps_eqb_eq in D. now rewrite E, D.
Qed.

Lemma reachable_settled s :
  reachable s -> effect_deps s = Some (data s, columns s).
Proof.
  intros H. destruct H; [|unfold step]; apply run_effect_settled.
Qed.

(** C8. From every reachable state of the hook, a step (a batch of
    setter calls, the render and the effect that follows) in which the
    identity of [data] or of [columns] changes ends with page index 0,
    whatever the page index was before and whatever the batch did to
    it. *)
Theorem pagination_reset s batch :
  reachable s ->
  data (step s batch) <> data s \/ columns (step s batch) <> columns s ->
  pageIndex (step s batch) = 0.
Proof.
  intros Hreach Hchange. unfold step in *.
  rewrite run_effect_data, run_effect_columns in Hchange.
  pose proof (batch_effect_deps batch s) as Hdeps.
  rewrite (reachable_settled s Hreach) in Hdeps.
  unfold run_effect, effect_due. rewrite Hdeps.
  destruct (deps_eqb (data s, columns s)
              (data (fold_left apply_setter batch s),
               columns (fold_left apply_setter batch s))) eqn:D; simpl.
  - apply deps_eqb_eq in D. injection D as D1 D2.
    destruct Hchange as [H | H]; exfalso; apply H; congruence.
  - reflexivity.
Qed.

Lemma pagination_reset_witness :
  pageIndex (step Samples.mounted Samples.page_then_update) = 0.
Proof.
  apply pagination_reset.
  - apply reachable_mount.
  - left. simpl. discriminate.
Defined.

(** *** Columns, field by field *)

Lemma create_column_convertible config field :
  create_column config field
  = if convertible (name field)
    then Normal (make_column config field)
    else Throw (TypeError "Cannot convert object to primitive value").
Proof.
  unfold create_column, ToPrimitive_effect.
  now destruct (convertible (name field)).
Qed.

Lemma mapM_create_column_cases config fields :
  mapM (create_column config) fields
  = if forallb (fun f => convertible (name f)) fields
    then Normal (map (make_column config) fields)
    else Throw (TypeError "Cannot convert object to primitive value").
Proof.
  induction fields as [|f fields IH]; cbn [mapM forallb map]; [reflexivity|].
  rewrite create_column_convertible, IH.
  destruct (convertible (name f)); [|reflexivity]. cbn [bind andb].
  now destruct (forallb (fun f0 => convertible (name f0)) fields).
Qed.


End TableLogicFacts.

(** ** The controller: data updates, columns and the row transformation *)

Module VisualizationFacts.

Import Visualization JsFacts.

(** *** Reading the query response *)

Lemma get_field v k :
  is_nullish v = false -> starts_with_digit k = false ->
  String.eqb k "length" = false ->
  get v k = Normal (Spec.field v k).
Proof.
  intros Hn Hd Hl. unfold get. rewrite Hn.
  destruct v as [| |b|n|s|elems|props]; simpl in *; try reflexivity.
  - now rewrite assoc_index_entries_None, Hl.
  - now rewrite assoc_index_entries_None, Hl.
  - now destruct (assoc k props).
Qed.

Lemma get_opt_field v k :
  starts_with_digit k = false -> String.eqb k "length" = false ->
  get_opt v k = Normal (Spec.field v k).
Proof.
  intros Hd Hl. unfold get_opt. destruct (is_nullish v) eqn:Hn.
  - destruct v; try discriminate; reflexivity.
  - now apply get_field.
Qed.

Lemma resolve_rawData_resolved queryResponse :
  resolve_rawData queryResponse = Normal (Spec.resolved_data queryResponse).
Proof.
  unfold resolve_rawData, Spec.resolved_data.
  repeat (rewrite get_opt_field by reflexivity; simpl).
  destruct (truthy (Spec.field (Spec.field queryResponse "_queryResponse") "data"));
    [reflexivity|].
  repeat (rewrite get_opt_field by reflexivity; simpl).
  now destruct (truthy (Spec.field queryResponse "data")).
Qed.

Lemma handleDataUpdate_catches config queryResponse st :
  handleDataUpdate config queryResponse st
  = Normal (match handleDataUpdate_try config queryResponse st with
            | Normal st' => st'
            | Throw _ => failed st
            end).
Proof.
  unfold handleDataUpdate. rewrite get_opt_field by reflexivity. simpl.
  now destruct (handleDataUpdate_try config queryResponse st).
Qed.

(** C5. For every data update: the handler completes normally, so
    nothing propagates to the host; the row data it works on is the
    nested [_queryResponse.data] when that is there (truthy), else the
    top-level [data], else the empty array; when the resolved data is the
    empty array the state carries ['No data available'] and the component
    renders the error panel, not a table; and whenever the processing
    throws, the state carries ['Failed to process visualization data']
    and the component renders the error panel. *)
Theorem handleDataUpdate_contract config queryResponse st :
  (exists st', handleDataUpdate config queryResponse st = Normal st') /\
  resolve_rawData queryResponse = Normal (Spec.resolved_data queryResponse) /\
  (Spec.resolved_data queryResponse = JArr [] ->
   handleDataUpdate config queryResponse st = Normal (no_data st) /\
   render (no_data st) = ErrorMessage "No data available") /\
  (forall e,
     handleDataUpdate_try config queryResponse st = Throw e ->
     handleDataUpdate config queryResponse st = Normal (failed st) /\
     render (failed st) = ErrorMessage "Failed to process visualization data").
Proof.
  split; [|split; [|split]].
  - rewrite handleDataUpdate_catches. eauto.
  - apply resolve_rawData_resolved.
  - intros Hempty. split; [|reflexivity].
    rewrite handleDataUpdate_catches. unfold handleDataUpdate_try.
    rewrite resolve_rawData_resolved, Hempty. reflexivity.
  - intros e Hthrow. split; [|reflexivity].
    rewrite handleDataUpdate_catches, Hthrow. reflexivity.
Qed.

Lemma handleDataUpdate_contract_witness :
  (handleDataUpdate None Samples.empty_nested_response Samples.idle
   = Normal (no_data Samples.idle) /\
   render (no_data Samples.idle) = ErrorMessage "No data available") /\
  (handleDataUpdate None Samples.null_row_response Samples.idle
   = Normal (failed Samples.idle) /\
   render (failed Samples.idle)
   = ErrorMessage "Failed to process visualization data").
Proof.
  split.
  - apply (proj1 (proj2 (proj2
      (handleDataUpdate_contract None Samples.empty_nested_response Samples.idle)))).
    reflexivity.
  - apply (proj2 (proj2 (proj2
      (handleDataUpdate_contract None Samples.null_row_response Samples.idle)))
      (TypeError "Cannot convert undefined or null to object")).
    reflexivity.
Defined.

(** *** The columns built on a data update *)

Lemma createColumns_argument_field queryResponse transformedData k :
  Spec.field (createColumns_argument queryResponse transformedData) k
  = if String.eqb k "data" then JArr transformedData
    else if String.eqb k "fieldMeasures" then Spec.field (JObj fields) k
    else if String.eqb k "fieldDimensions" then Spec.field (JObj fields) k
    else Spec.field (JObj (spread [] (own_entries queryResponse))) k.
Proof.
  unfold createColumns_argument, Spec.field.
  unfold spread at 1. unfold fields at 1. cbn [fold_left fst snd].
  destruct (String.eqb_spec k "data") as [->|Hd].
  { now rewrite assoc_set_same. }
  rewrite assoc_set_other by exact Hd.
  destruct (String.eqb_spec k "fieldMeasures") as [->|Hm].
  { now rewrite assoc_set_same. }
  rewrite assoc_set_other by exact Hm.
  destruct (String.eqb_spec k "fieldDimensions") as [->|Hf].
  { now rewrite assoc_set_same. }
  now rewrite assoc_set_other by exact Hf.
Qed.

Lemma createColumns_on_update config queryResponse transformedData :
  TableLogic.createColumns config
    (createColumns_argument queryResponse transformedData)
  = bind (TableLogic.push_fields TableLogic.calculation
            (Spec.response_table_calculations queryResponse))
         (fun calcs =>
            if forallb (fun f => convertible (TableLogic.name f)) calcs
            then Normal (Spec.hard_coded_columns config
                         ++ map (TableLogic.make_column config) calcs)%list
            else Throw (TypeError "Cannot convert object to primitive value")).
Proof.
  unfold TableLogic.createColumns.
  unfold createColumns_argument at 1 2 3. rewrite !get_object.
  fold (createColumns_argument queryResponse transformedData).
  rewrite !createColumns_argument_field.
  unfold Spec.response_table_calculations.
  cbn [bind String.eqb Ascii.eqb Bool.eqb].
  destruct (TableLogic.push_fields TableLogic.calculation
              (Spec.field (JObj (spread [] (own_entries queryResponse)))
                 "fieldTableCalculations")) as [calcs|e]; [|reflexivity].
  change (TableLogic.push_fields TableLogic.dimension
            (Spec.field (JObj fields) "fieldDimensions"))
    with (Normal [ {| TableLogic.name := JStr "executive_summary.dynamic_reporting";
                      TableLogic.label := JStr "Reporting Date";
                      TableLogic.type := TableLogic.dimension |} ]).
  change (TableLogic.push_fields TableLogic.measure
            (Spec.field (JObj fields) "fieldMeasures"))
    with (Normal [ {| TableLogic.name := JStr "executive_summary.total_order_count_dynamic";
                      TableLogic.label := JStr "Total Order Count";
                      TableLogic.type := TableLogic.measure |} ]).
  cbn [bind app mapM].
  change (TableLogic.create_column config
            {| TableLogic.name := JStr "executive_summary.dynamic_reporting";
               TableLogic.label := JStr "Reporting Date";
               TableLogic.type := TableLogic.dimension |})
    with (Normal (TableLogic.make_column config
            {| TableLogic.name := JStr "executive_summary.dynamic_reporting";
               TableLogic.label := JStr "Reporting Date";
               TableLogic.type := TableLogic.dimension |})).
  change (TableLogic.create_column config
            {| TableLogic.name := JStr "executive_summary.total_order_count_dynamic";
               TableLogic.label := JStr "Total Order Count";
               TableLogic.type := TableLogic.measure |})
    with (Normal (TableLogic.make_column config
            {| TableLogic.name := JStr "executive_summary.total_order_count_dynamic";
               TableLogic.label := JStr "Total Order Count";
               TableLogic.type := TableLogic.measure |})).
  cbn [bind]. rewrite TableLogicFacts.mapM_create_column_cases.
  destruct (forallb (fun f => convertible (TableLogic.name f)) calcs);
    reflexivity.
Qed.

(** C9, as stated, fails: the hard-coded descriptors do not override the
    response's [fieldTableCalculations].  Two responses with the same
    rows, one of them carrying a table calculation, get two and three
    columns. *)
Lemma handleDataUpdate_columns_vary :
  exists stA stB,
    handleDataUpdate None Samples.plain_response Samples.idle = Normal stA /\
    handleDataUpdate None Samples.calculation_response Samples.idle = Normal stB /\
    List.length (columns stA) = 2 /\
    List.length (columns stB) = 3.
Proof.
  eexists. eexists. split; [reflexivity|]. split; [reflexivity|].
  split; reflexivity.
Qed.

(** C9, amended.  On every data update the argument of [createColumns]
    carries the hard-coded dimension and measure in place of the
    response's own [fieldDimensions] and [fieldMeasures]; the response's
    [fieldTableCalculations] are not overridden.  When the table
    calculations of the response can be made into fields, and the name
    of each can be converted to a string for the log, the columns built
    are the two hard-coded ones followed by one column per table
    calculation; otherwise [createColumns] throws.  The outcome is the
    same for two responses with the same table calculations, whatever
    their dimensions, measures and rows, and it is exactly the
    hard-coded pair when the response carries no table calculations. *)
Theorem createColumns_hard_coded config :
  (forall queryResponse transformedData,
     TableLogic.createColumns config
       (createColumns_argument queryResponse transformedData)
     = bind (TableLogic.push_fields TableLogic.calculation
               (Spec.response_table_calculations queryResponse))
            (fun calcs =>
               if forallb (fun f => convertible (TableLogic.name f)) calcs
               then Normal (Spec.hard_coded_columns config
                            ++ map (TableLogic.make_column config) calcs)%list
               else Throw (TypeError "Cannot convert object to primitive value"))) /\
  (forall queryResponse1 queryResponse2 transformedData1 transformedData2,
     Spec.response_table_calculations queryResponse1
     = Spec.response_table_calculations queryResponse2 ->
     TableLogic.createColumns config
       (createColumns_argument queryResponse1 transformedData1)
     = TableLogic.createColumns config
         (createColumns_argument queryResponse2 transformedData2)) /\
  (forall queryResponse transformedData,
     truthy (Spec.response_table_calculations queryResponse) = false ->
     TableLogic.createColumns config
       (createColumns_argument queryResponse transformedData)
     = Normal (Spec.hard_coded_columns config)) /\
  (forall queryResponse st st',
     handleDataUpdate_try config queryResponse st = Normal st' ->
     error st' = None ->
     exists calcs,
       TableLogic.push_fields TableLogic.calculation
         (Spec.response_table_calculations queryResponse) = Normal calcs /\
       columns st'
       = (Spec.hard_coded_columns config
          ++ map (TableLogic.make_column config) calcs)%list).
Proof.
  split; [|split; [|split]].
  - intros. apply createColumns_on_update.
  - intros q1 q2 t1 t2 Heq. rewrite !createColumns_on_update. now rewrite Heq.
  - intros q t Hnone. rewrite createColumns_on_update.
    unfold TableLogic.push_fields. rewrite Hnone. cbn [bind forallb map].
    now rewrite app_nil_r.
  - intros q st st' Hrun Herr. unfold handleDataUpdate_try in Hrun.
    rewrite resolve_rawData_resolved in Hrun. cbn [bind] in Hrun.
    destruct (transformQueryData (Spec.resolved_data q)) as [rows|];
      [|discriminate]. cbn [bind] in Hrun.
    destruct (Nat.eqb (List.length rows) 0).
    + injection Hrun as <-. discriminate Herr.
    + rewrite createColumns_on_update in Hrun.
      destruct (TableLogic.push_fields TableLogic.calculation
                  (Spec.response_table_calculations q)) as [calcs|];
        [|discriminate].
      cbn [bind] in Hrun.
      destruct (forallb (fun f => convertible (TableLogic.name f)) calcs);
        [|discriminate].
      cbn [bind] in Hrun. injection Hrun as <-. exists calcs.
      split; reflexivity.
Qed.

Lemma createColumns_hard_coded_witness :
  TableLogic.createColumns None
    (createColumns_argument Samples.plain_response [])
  = TableLogic.createColumns None
      (createColumns_argument Samples.null_row_response Samples.scenario_rows) /\
  TableLogic.createColumns None
    (createColumns_argument Samples.plain_response [])
  = Normal (Spec.hard_coded_columns None) /\
  (exists calcs,
     TableLogic.push_fields TableLogic.calculation
       (Spec.response_table_calculations Samples.plain_response) = Normal calcs /\
     columns Samples.plain_table_state
     = (Spec.hard_coded_columns None
        ++ map (TableLogic.make_column None) calcs)%list) /\
  (exists e,
     TableLogic.createColumns None
       (createColumns_argument Samples.unconvertible_calculation_response [])
     = Throw e).
Proof.
  split; [|split; [|split]].
  - apply (proj1 (proj2 (createColumns_hard_coded None))). reflexivity.
  - apply (proj1 (proj2 (proj2 (createColumns_hard_coded None)))). reflexivity.
  - apply (proj2 (proj2 (proj2 (createColumns_hard_coded None)))
             Samples.plain_response Samples.idle Samples.plain_table_state);
      reflexivity.
  - rewrite (proj1 (createColumns_hard_coded None)
               Samples.unconvertible_calculation_response []).
    eexists. reflexivity.
Defined.

(** *** The controller's own row transformation *)

Lemma transformQueryField_wrapper transformedRow key value :
  Spec.wrapper value = true ->
  transformQueryField transformedRow (key, value)
  = Normal (assign (assign transformedRow key (Spec.field value "value"))
                   (key ++ "_rendered")
                   (or_else (Spec.field value "rendered") (Spec.field value "value"))).
Proof.
  intros W. unfold transformQueryField.
  rewrite is_value_object_wrapper, W. cbn [bind].
  rewrite !(get_wrapper _ _ W). cbn [bind]. unfold or_else.
  now destruct (truthy (Spec.field value "rendered")).
Qed.

Lemma transformQueryField_plain transformedRow key value :
  Spec.wrapper value = false ->
  transformQueryField transformedRow (key, value)
  = Normal (assign transformedRow key value).
Proof.
  intros W. unfold transformQueryField.
  now rewrite is_value_object_wrapper, W.
Qed.

Lemma transformQueryField_total transformedRow entry :
  exists transformedRow',
    transformQueryField transformedRow entry = Normal transformedRow'.
Proof.
  destruct entry as [key value]. destruct (Spec.wrapper value) eqn:W.
  - rewrite (transformQueryField_wrapper _ _ _ W). eauto.
  - rewrite (transformQueryField_plain _ _ _ W). eauto.
Qed.

Lemma forEach_entries_app f l1 l2 acc :
  forEach_entries f (l1 ++ l2) acc
  = bind (forEach_entries f l1 acc) (forEach_entries f l2).
Proof.
  revert acc. induction l1 as [|e l1 IH]; intros acc; simpl; [reflexivity|].
  destruct (f acc e); simpl; [apply IH | reflexivity].
Qed.

(** Entries that write neither under [x] nor under a companion key equal
    to [x] leave [x] as it was. *)
Lemma forEach_transformQueryField_preserves x entries :
  (forall k v, In (k, v) entries ->
     k <> x /\ (Spec.wrapper v = true -> (k ++ "_rendered")%string <> x)) ->
  forall acc, exists out,
    forEach_entries transformQueryField entries acc = Normal out /\
    assoc x out = assoc x acc.
Proof.
  induction entries as [|[k v] entries IH]; intros Hno acc;
    cbn [forEach_entries].
  - eauto.
  - destruct (Hno k v (or_introl eq_refl)) as [Hk Hc].
    assert (Hrest : forall k' v', In (k', v') entries ->
              k' <> x /\ (Spec.wrapper v' = true -> (k' ++ "_rendered")%string <> x))
      by (intros k' v' Hin; apply Hno; now right).
    destruct (Spec.wrapper v) eqn:W.
    + rewrite (transformQueryField_wrapper _ _ _ W). cbn [bind].
      destruct (IH Hrest (assign (assign acc k (Spec.field v "value"))
                                 (k ++ "_rendered")
                                 (or_else (Spec.field v "rendered") (Spec.field v "value"))))
        as [out [Hout Hx]].
      exists out. split; [exact Hout|].
      rewrite Hx, assoc_assign_other by (intros E; now apply (Hc eq_refl)).
      apply assoc_assign_other. intros E. now apply Hk.
    + rewrite (transformQueryField_plain _ _ _ W). cbn [bind].
      destruct (IH Hrest (assign acc k v)) as [out [Hout Hx]].
      exists out. split; [exact Hout|].
      rewrite Hx. apply assoc_assign_other. intros E. now apply Hk.
Qed.

Lemma forEach_transformQueryField_total entries :
  forall acc, exists out,
    forEach_entries transformQueryField entries acc = Normal out.
Proof.
  induction entries as [|e entries IH]; intros acc;
    cbn [forEach_entries]; [eauto|].
  destruct (transformQueryField_total acc e) as [acc' ->]. apply IH.
Qed.

Lemma length_append_string a b :
  String.length (a ++ b) = String.length a + String.length b.
Proof. induction a as [|c a IH]; simpl; [reflexivity | now rewrite IH]. Qed.

Lemma append_cancel_r a b suffix :
  (a ++ suffix)%string = (b ++ suffix)%string -> a = b.
Proof.
  revert b. induction a as [|c a IH]; intros [|d b] H; simpl in H.
  - reflexivity.
  - apply (f_equal String.length) in H. simpl in H.
    rewrite length_append_string in H. lia.
  - apply (f_equal String.length) in H. simpl in H.
    rewrite length_append_string in H. lia.
  - injection H as -> H. f_equal. now apply IH.
Qed.

Lemma in_keys (k : string) (v : JsVal) l : In (k, v) l -> In k (map fst l).
Proof. intros H. change k with (fst (k, v)). now apply in_map. Qed.

(** A companion key is never [__proto__]. *)
Lemma companion_not_proto key : (key ++ "_rendered")%string <> "__proto__".
Proof.
  intros E. pose proof (f_equal String.length E) as Hlen.
  rewrite length_append_string in Hlen. cbn [String.length] in Hlen.
  destruct key; [discriminate E | cbn [String.length] in Hlen; lia].
Qed.

(** C10, as stated, fails twice.  The companion key is written like any
    other key, so a later field of the row with that very name
    overwrites it: here [a_rendered] ends as [true], not ["7 orders"].
    And the companion holds [value] whenever [rendered] is falsy, not
    only when it is absent: for an empty [rendered] it ends as [5]. *)
Lemma transformQueryRow_companion_lost :
  transformQueryRow (JObj Samples.colliding_row)
  = Normal (JObj [ ("a", Samples.seven); ("a_rendered", JBool true) ]) /\
  ~ Spec.companions_hold Samples.colliding_row
      [ ("a", Samples.seven); ("a_rendered", JBool true) ] /\
  transformQueryRow (JObj Samples.empty_rendered_row)
  = Normal (JObj [ ("a", JNum (number_of_nat 5));
                   ("a_rendered", JNum (number_of_nat 5)) ]) /\
  ~ Spec.companions_hold Samples.empty_rendered_row
      [ ("a", JNum (number_of_nat 5)); ("a_rendered", JNum (number_of_nat 5)) ].
Proof.
  split; [reflexivity|]. split; [|split; [reflexivity|]].
  - intros H.
    destruct (H "a" _ (or_introl eq_refl) eq_refl) as [_ Hc]. discriminate Hc.
  - intros H.
    destruct (H "a" _ (or_introl eq_refl) eq_refl) as [_ Hc]. discriminate Hc.
Qed.

(** C10, amended.  For a raw row that is an object with distinct keys,
    none of which is [__proto__] or the companion name of one of its
    wrapper fields, [transformQueryRow] completes normally and the
    output row holds:
    for each wrapper field, the wrapper's [value] under the original key
    and, under ['<field>_rendered'], the wrapper's [rendered] when that
    is truthy and its [value] otherwise, a key that the input row does
    not have; for every other field, the value unchanged.  The per-field
    step has no error handling and, on data values, always completes
    normally. *)
Theorem transformQueryRow_companion props :
  NoDup (map fst props) ->
  has_proto_key (JObj props) = false ->
  (forall k v, In (k, v) props -> Spec.wrapper v = true ->
     ~ In (k ++ "_rendered")%string (map fst props)) ->
  exists out,
    transformQueryRow (JObj props) = Normal (JObj out) /\
    (forall key value,
       In (key, value) props ->
       (Spec.wrapper value = true ->
        assoc key out = Some (Spec.field value "value") /\
        assoc (key ++ "_rendered") out
        = Some (or_else (Spec.field value "rendered") (Spec.field value "value")) /\
        assoc (key ++ "_rendered") props = None) /\
       (Spec.wrapper value = false -> assoc key out = Some value)) /\
    (forall transformedRow entry,
       exists transformedRow',
         transformQueryField transformedRow entry = Normal transformedRow').
Proof.
  intros Hnd Hproto Hfree.
  destruct (forEach_transformQueryField_total props []) as [out Hout].
  exists out. split; [|split; [|apply transformQueryField_total]].
  { unfold transformQueryRow, Object_entries. simpl. now rewrite Hout. }
  intros key value Hin.
  destruct (in_split _ _ Hin) as [pre [post Hsplit]].
  assert (Hkey : In key (map fst props)) by (now apply in_keys with value).
  assert (Hassigned : key <> "__proto__").
  { intros ->. unfold has_proto_key in Hproto. cbn [own_entries] in Hproto.
    assert (Habs : existsb (fun k => k =? "__proto__") (map fst props) = true).
    { apply existsb_exists. exists "__proto__". now split. }
    now rewrite Habs in Hproto. }
  assert (Hpost : forall k v, In (k, v) post -> In (k, v) props).
  { intros k v H. rewrite Hsplit. apply in_or_app. right. now right. }
  assert (Hlater : forall k v, In (k, v) post -> k <> key).
  { intros k v H ->. rewrite Hsplit, map_app in Hnd. simpl in Hnd.
    apply NoDup_remove_2 in Hnd. apply Hnd. apply in_or_app. right.
    now apply in_keys with v. }
  rewrite Hsplit, forEach_entries_app in Hout.
  destruct (forEach_transformQueryField_total pre []) as [acc0 Hpre].
  rewrite Hpre in Hout. cbn [bind forEach_entries] in Hout.
  split; intros W.
  - rewrite (transformQueryField_wrapper _ _ _ W) in Hout. cbn [bind] in Hout.
    pose proof (Hfree key value Hin W) as Hcomp.
    assert (Hne : key <> (key ++ "_rendered")%string)
      by (intros E; apply Hcomp; now rewrite <- E).
    split; [|split].
    + destruct (forEach_transformQueryField_preserves key post) with
        (acc := assign (assign acc0 key (Spec.field value "value"))
                       (key ++ "_rendered")
                       (or_else (Spec.field value "rendered") (Spec.field value "value")))
        as [out' [Hout' Hx]].
      { intros k v H. split; [now apply Hlater with v|].
        intros Wv E. apply (Hfree k v (Hpost k v H) Wv). now rewrite E. }
      rewrite Hout in Hout'. injection Hout' as <-.
      rewrite Hx, assoc_assign_other by exact Hne.
      now apply assoc_assign_same.
    + destruct (forEach_transformQueryField_preserves
                  (key ++ "_rendered")%string post) with
        (acc := assign (assign acc0 key (Spec.field value "value"))
                       (key ++ "_rendered")
                       (or_else (Spec.field value "rendered") (Spec.field value "value")))
        as [out' [Hout' Hx]].
      { intros k v H. split.
        - intros E. apply Hcomp. rewrite <- E. now apply in_keys with v, Hpost.
        - intros _ E. apply append_cancel_r in E. now apply (Hlater k v H). }
      rewrite Hout in Hout'. injection Hout' as <-.
      rewrite Hx. apply assoc_assign_same. apply companion_not_proto.
    + now apply assoc_None_notin.
  - rewrite (transformQueryField_plain _ _ _ W) in Hout. cbn [bind] in Hout.
    destruct (forEach_transformQueryField_preserves key post) with
      (acc := assign acc0 key value) as [out' [Hout' Hx]].
    { intros k v H. split; [now apply Hlater with v|].
      intros Wv E. apply (Hfree k v (Hpost k v H) Wv). now rewrite E. }
    rewrite Hout in Hout'. injection Hout' as <-.
    rewrite Hx. now apply assoc_assign_same.
Qed.

Lemma transformQueryRow_companion_witness :
  exists out,
    transformQueryRow (JObj Samples.wrapped_count_row) = Normal (JObj out) /\
    assoc "count" out = Some Samples.seven /\
    assoc "count_rendered" out = Some (JStr "7 orders").
Proof.
  destruct (transformQueryRow_companion Samples.wrapped_count_row)
    as [out [Hrun [Hfields _]]].
  - repeat constructor. simpl. tauto.
  - reflexivity.
  - intros k v [[= <- <-] | []] _. simpl. intros [E | []]. discriminate E.
  - exists out. split; [exact Hrun|].
    destruct (Hfields "count" _ (or_introl eq_refl)) as [Hw _].
    destruct (Hw eq_refl) as [H1 [H2 _]]. split; [exact H1 | exact H2].
Defined.

End VisualizationFacts.

(** ** Array lengths as numbers *)

Module NumberFacts.

Local Open Scope Z_scope.

Lemma iter_pos_iter {A} (f : A -> A) k : forall x, iter_pos f k x = Pos.iter f x k.
Proof.
  induction k as [k IH | k IH |]; intros x; simpl.
  - rewrite !IH. rewrite <- !Pos.iter_swap. reflexivity.
  - rewrite !IH. reflexivity.
  - reflexivity.
Qed.

Lemma shr_1_digits r q :
  shr_m r = Zpos q -> 2 <= Zpos (digits2_pos q) ->
  exists q', shr_m (shr_1 r) = Zpos q' /\
             Zpos (digits2_pos q') = Zpos (digits2_pos q) - 1.
Proof.
  destruct r as [m rr ss]. cbn [shr_m]. intros -> Hd.
  destruct q as [q | q |]; cbn [shr_1 shr_m digits2_pos] in *.
  - exists q. split; [reflexivity | rewrite Pos2Z.inj_succ; lia].
  - exists q. split; [reflexivity | rewrite Pos2Z.inj_succ; lia].
  - lia.
Qed.

Lemma iter_shr_1_digits k : forall r q,
  shr_m r = Zpos q -> Zpos k < Zpos (digits2_pos q) ->
  exists q', shr_m (Pos.iter shr_1 r k) = Zpos q' /\
             Zpos (digits2_pos q') = Zpos (digits2_pos q) - Zpos k.
Proof.
  induction k as [|k IH] using Pos.peano_ind; intros r q Hm Hk.
  - simpl. apply shr_1_digits; [exact Hm | lia].
  - rewrite Pos.iter_succ.
    destruct (IH r q Hm) as [q1 [H1 D1]]; [lia|].
    destruct (shr_1_digits _ q1 H1) as [q2 [H2 D2]]; [lia|].
    exists q2. split; [exact H2 | lia].
Qed.

(** Away from the subnormal range, shifting a positive mantissa into
    place leaves it positive. *)
Lemma shr_fexp_positive q e :
  -1000 <= e ->
  exists r e' q', shr_fexp 53 1024 (Zpos q) e loc_Exact = (r, e') /\
                  shr_m r = Zpos q' /\ e <= e'.
Proof.
  intros He. unfold shr_fexp, shr. simpl shr_record_of_loc.
  destruct (fexp 53 1024 (Zdigits2 (Zpos q) + e) - e) as [|k|k] eqn:K.
  - exists {| shr_m := Zpos q; shr_r := false; shr_s := false |}, e, q.
    repeat split; lia.
  - rewrite iter_pos_iter.
    destruct (iter_shr_1_digits k
                {| shr_m := Zpos q; shr_r := false; shr_s := false |} q eq_refl)
      as [q' [Hq' _]].
    { unfold fexp, emin, Zdigits2 in K. lia. }
    eexists _, _, q'. split; [reflexivity|]. split; [exact Hq' | lia].
  - exists {| shr_m := Zpos q; shr_r := false; shr_s := false |}, e, q.
    repeat split; lia.
Qed.

Lemma binary_round_aux_positive p e :
  -1000 <= e ->
  (exists m e',
     binary_round_aux 53 1024 false (Zpos p) e loc_Exact = S754_finite false m e')
  \/ binary_round_aux 53 1024 false (Zpos p) e loc_Exact = S754_infinity false.
Proof.
  intros He. unfold binary_round_aux.
  destruct (shr_fexp_positive p e He) as [r1 [e1 [q1 [-> [Hr1 He1]]]]].
  assert (H2 : exists q2,
             round_nearest_even (shr_m r1) (loc_of_shr_record r1) = Zpos q2).
  { rewrite Hr1. unfold round_nearest_even.
    destruct (loc_of_shr_record r1) as [|[| |]]; try (eexists; reflexivity).
    destruct (Z.even (Zpos q1)); eexists; reflexivity. }
  destruct H2 as [q2 ->].
  destruct (shr_fexp_positive q2 e1) as [r3 [e3 [q3 [-> [Hr3 _]]]]]; [lia|].
  rewrite Hr3. destruct (Z.leb e3 (1024 - 53)); [left; eauto | right; reflexivity].
Qed.

(** The number of a positive count is a positive number. *)
Lemma number_of_nat_positive n :
  n <> 0%nat ->
  (exists m e, number_of_nat n = S754_finite false m e)
  \/ number_of_nat n = S754_infinity false.
Proof.
  intros Hn. unfold number_of_nat.
  destruct (Z.of_nat n) as [|p|p] eqn:E; try lia.
  unfold binary_normalize, binary_round, shl_align.
  destruct (fexp 53 1024 (Zpos (digits2_pos p) + 0) - 0) as [|k|k] eqn:K.
  - apply binary_round_aux_positive. lia.
  - apply binary_round_aux_positive. lia.
  - apply binary_round_aux_positive. unfold fexp, emin in *. lia.
Qed.

(** [length === 0] holds of the empty array only. *)
Lemma strict_eq_zero_length n :
  strict_eq_zero (JNum (number_of_nat n)) = Nat.eqb n 0.
Proof.
  destruct n as [|n]; [reflexivity|]. simpl.
  destruct (number_of_nat_positive (S n)) as [[m [e ->]] | ->];
    [discriminate | reflexivity | reflexivity].
Qed.

(** [length > 0] holds of every array but the empty one, whatever the
    host's parser. *)
Lemma greater_than_zero_length parse n :
  Coercion.greater_than_zero parse (JNum (number_of_nat n))
  = Normal (negb (Nat.eqb n 0)).
Proof.
  destruct n as [|n]; [reflexivity|].
  unfold Coercion.greater_than_zero. simpl.
  destruct (number_of_nat_positive (S n)) as [[m [e ->]] | ->];
    [discriminate | reflexivity | reflexivity].
Qed.

(** *** Conversions complete on what is convertible, and only there *)

Lemma ToNumber_convertible parse v :
  convertible v = true -> exists n, Coercion.ToNumber parse v = Normal n.
Proof.
  intros H. destruct v; cbn [Coercion.ToNumber]; unfold ToPrimitive_effect;
    try rewrite H; cbn [bind]; eauto.
Qed.

Lemma ToNumber_not_convertible parse v :
  convertible v = false -> exists e, Coercion.ToNumber parse v = Throw e.
Proof.
  intros H. destruct v; try discriminate H; cbn [Coercion.ToNumber];
    unfold ToPrimitive_effect; rewrite H; cbn [bind]; eauto.
Qed.

Lemma greater_than_zero_convertible parse v :
  convertible v = true ->
  exists b, Coercion.greater_than_zero parse v = Normal b.
Proof.
  intros H. unfold Coercion.greater_than_zero.
  destruct (ToNumber_convertible parse v H) as [n ->]. cbn [bind]. eauto.
Qed.

Lemma greater_than_zero_not_convertible parse v :
  convertible v = false ->
  exists e, Coercion.greater_than_zero parse v = Throw e.
Proof.
  intros H. unfold Coercion.greater_than_zero.
  destruct (ToNumber_not_convertible parse v H) as [e ->]. cbn [bind]. eauto.
Qed.

Lemma Number_or_convertible parse v fallback :
  convertible v = true ->
  exists n, Coercion.ToNumber parse v = Normal n /\
            Coercion.Number_or parse v fallback
            = Normal (or_else (JNum n) (JNum fallback)).
Proof.
  intros H. unfold Coercion.Number_or.
  destruct (ToNumber_convertible parse v H) as [n ->]. cbn [bind]. eauto.
Qed.

Lemma Number_or_not_convertible parse v fallback :
  convertible v = false ->
  exists e, Coercion.Number_or parse v fallback = Throw e.
Proof.
  intros H. unfold Coercion.Number_or.
  destruct (ToNumber_not_convertible parse v H) as [e ->]. cbn [bind]. eauto.
Qed.

End NumberFacts.

(** ** More about [getFieldValue] and [transformLookerData] *)

Module TableUtilsMore.

Import TableUtils JsFacts TableUtilsFacts.

(** X1.  [getFieldValue] completes normally on every object and array, and
    throws on everything else: [null], [undefined] and primitives are
    rejected by the [in] operator of its first line. *)
Theorem getFieldValue_throws_on_non_objects row fieldName :
  match row with
  | JObj _ | JArr _ => exists r, getFieldValue row fieldName = Normal r
  | _ => exists e, getFieldValue row fieldName = Throw e
  end.
Proof.
  destruct row as [| |b|n|s|elems|props]; try (eexists; reflexivity).
  - unfold getFieldValue. simpl.
    destruct (has fieldName (DataArray elems)); eauto.
  - apply getFieldValue_total.
Qed.

Lemma split_on_nonempty sep s : split_on sep s <> [].
Proof.
  destruct s as [|c s]; simpl; [discriminate|].
  destruct (Ascii.eqb c sep); [discriminate|].
  destruct (split_on sep s); discriminate.
Qed.

Lemma lookup_set_same props k x : lookup (DataObject (set props k x)) k = Data x.
Proof. apply lookup_own_key, assoc_set_same. Qed.

Lemma has_set_same props k x : has k (DataObject (set props k x)) = true.
Proof. apply (has_own_key _ _ x), assoc_set_same. Qed.

Lemma lookup_set_other props part x k :
  k <> part -> lookup (DataObject (set props part x)) k = lookup (DataObject props) k.
Proof.
  intros Hne. unfold lookup, above, own. simpl.
  now rewrite (assoc_set_other _ k part x Hne).
Qed.

Lemma has_set_other props part x k :
  k <> part -> has k (DataObject (set props part x)) = has k (DataObject props).
Proof.
  intros Hne. unfold has, above, own. simpl.
  now rewrite (assoc_set_other _ k part x Hne).
Qed.

(** X2.  Wrapping a cell of the row changes nothing for the reader: with a
    cell [child] that is not itself a wrapper, the row holding
    [{ value: child, ... }] under a key and the row holding [child]
    under it give the same result for every identifier. *)
Theorem getFieldValue_wrapped_cell props part child extra fieldName :
  Spec.wrapper child = false ->
  getFieldValue (JObj (set props part (JObj (("value", child) :: extra)))) fieldName
  = getFieldValue (JObj (set props part child)) fieldName.
Proof.
  intros Hplain.
  assert (Hcell : forall k,
            unwrap_value (lookup (DataObject
                            (set props part (JObj (("value", child) :: extra)))) k)
            = unwrap_value (lookup (DataObject (set props part child)) k)).
  { intros k. destruct (String.eqb_spec k part) as [->|Hne].
    - rewrite !lookup_set_same, !unwrap_value_unwrap. simpl.
      unfold Spec.unwrap. now rewrite Hplain.
    - now rewrite !(lookup_set_other _ part _ k Hne). }
  assert (Hhas : forall k,
            has k (DataObject (set props part (JObj (("value", child) :: extra))))
            = has k (DataObject (set props part child))).
  { intros k. destruct (String.eqb_spec k part) as [->|Hne].
    - now rewrite !has_set_same.
    - now rewrite !(has_set_other _ part _ k Hne). }
  unfold getFieldValue. cbn [as_object]. rewrite Hhas.
  destruct (has fieldName (DataObject (set props part child))).
  - now rewrite Hcell.
  - f_equal.
    destruct (split_on "."%char fieldName) as [|first rest] eqn:Hsplit;
      [now elim (split_on_nonempty "."%char fieldName)|].
    cbn [nested_access as_object]. now rewrite Hcell.
Qed.

Lemma getFieldValue_wrapped_cell_witness :
  getFieldValue
    (JObj (set [] "count"
             (JObj [ ("value", Samples.seven); ("rendered", JStr "7 orders") ])))
    "count"
  = getFieldValue (JObj (set [] "count" Samples.seven)) "count".
Proof.
  apply (getFieldValue_wrapped_cell [] "count" Samples.seven
           [ ("rendered", JStr "7 orders") ] "count").
  reflexivity.
Defined.

(** X3.  The tolerance of [transformLookerData] is per field only: an entry of
    the rows array that is [null] or [undefined] makes [Object.entries]
    throw outside the [try], and the whole call throws. *)
Theorem transformLookerData_null_row_aborts data row :
  In row data -> is_nullish row = true ->
  exists e, transformLookerData data = Throw e.
Proof.
  intros Hin Hnull. unfold transformLookerData.
  induction data as [|r data IH]; [destruct Hin|].
  cbn [mapM]. destruct Hin as [-> | Hin].
  - unfold transformLookerRow, Object_entries. rewrite Hnull. eexists. reflexivity.
  - destruct (transformLookerRow r); [|eexists; reflexivity]. cbn [bind].
    destruct (IH Hin) as [e ->]. eexists. reflexivity.
Qed.

Lemma transformLookerData_null_row_aborts_witness :
  exists e, transformLookerData [ JObj Samples.wrapped_count_row; JNull ] = Throw e.
Proof.
  apply (transformLookerData_null_row_aborts _ JNull).
  - right. left. reflexivity.
  - reflexivity.
Defined.

Lemma normalize_cell_twice v :
  Spec.flat_cell v = true -> Spec.normalize_cell v <> JUndefined ->
  Spec.normalize_cell (Spec.normalize_cell v) = Spec.normalize_cell v.
Proof.
  unfold Spec.flat_cell. intros Hflat Hdef.
  destruct v as [| |b|n|s|elems|props]; try reflexivity; try discriminate.
  unfold Spec.normalize_cell in *. simpl in *.
  destruct (assoc "value" props) as [inner|]; [|discriminate]. simpl in *.
  destruct inner; try reflexivity; try discriminate. now elim Hdef.
Qed.

(** X4.  [transformLookerData] is idempotent on flat rows: when every cell is
    a primitive or a wrapper around a primitive, and no wrapper holds
    [undefined], transforming the result again gives the result. *)
Theorem transformLookerData_idempotent data :
  Forall Spec.is_row data ->
  (forall row key value,
     In row data -> In (key, value) (own_entries row) ->
     Spec.flat_cell value = true /\ Spec.normalize_cell value <> JUndefined) ->
  exists out,
    transformLookerData data = Normal out /\
    transformLookerData out = Normal out.
Proof.
  intros Hrows Hflat. eexists.
  split; [now apply transformLookerData_distinct|].
  rewrite transformLookerData_rows.
  - f_equal. rewrite map_map. apply map_ext_in. intros row Hin.
    unfold Spec.normalize_row. cbn [own_entries]. f_equal.
    rewrite map_map. apply map_ext_in. intros [k v] Hkv. cbn [fst snd].
    f_equal. apply assignable_In in Hkv. destruct Hkv as [Hkv _].
    destruct (Hflat _ k v Hin Hkv) as [H1 H2].
    now apply normalize_cell_twice.
  - apply Forall_forall. intros row' Hin'. apply in_map_iff in Hin'.
    destruct Hin' as [row [<- Hin]].
    pose proof (proj1 (Forall_forall _ _) Hrows row Hin) as Hrow.
    destruct row as [| |b|n|s|elems|props]; simpl in Hrow; try tauto.
    cbn [Spec.is_row own_entries]. rewrite map_map. cbn [fst].
    now apply assignable_NoDup.
  - apply Forall_forall. intros row' Hin'. apply in_map_iff in Hin'.
    destruct Hin' as [row [<- Hin]]. unfold has_proto_key.
    cbn [own_entries]. rewrite map_map. cbn [fst].
    apply assignable_no_proto.
Qed.

Lemma transformLookerData_idempotent_witness :
  exists out,
    transformLookerData Samples.scenario_rows = Normal out /\
    transformLookerData out = Normal out.
Proof.
  apply transformLookerData_idempotent.
  - repeat constructor; simpl; intuition discriminate.
  - intros row key value Hrow Hkv. simpl in Hrow.
    destruct Hrow as [<- | [<- | []]]; simpl in Hkv;
      destruct Hkv as [[= <- <-] | [[= <- <-] | []]];
      (split; [reflexivity | discriminate]).
Defined.

(** X5.  Reading a field from the transformed row, for a row with distinct
    keys none of which is [__proto__]: the accessor unwraps what the
    transformation left, so a cell wrapped twice loses both levels; and
    for a flat cell other than [undefined] the result is what reading
    the raw row gives. *)
Theorem getFieldValue_after_transform props key value :
  NoDup (map fst props) ->
  has_proto_key (JObj props) = false ->
  assoc key props = Some value ->
  exists row',
    transformLookerRow (JObj props) = Normal row' /\
    getFieldValue row' key
    = Normal (Data (Spec.unwrap (Spec.normalize_cell value))) /\
    (Spec.flat_cell value = true -> value <> JUndefined ->
     getFieldValue row' key = getFieldValue (JObj props) key).
Proof.
  intros Hnd Hproto Hkey. exists (Spec.normalize_row (JObj props)).
  split; [now apply transformLookerRow_row|].
  assert (Hread : forall ps v, assoc key ps = Some v ->
            getFieldValue (JObj ps) key = Normal (Data (Spec.unwrap v))).
  { intros ps v. apply getFieldValue_own_key. }
  assert (Hnew : assoc key (map (fun kv => (fst kv, Spec.normalize_cell (snd kv))) props)
                 = Some (Spec.normalize_cell value)).
  { now rewrite assoc_map_values, Hkey. }
  split.
  - apply (Hread _ _ Hnew).
  - intros Hflat Hdef. unfold Spec.normalize_row. cbn [own_entries].
    rewrite (Hread _ _ Hnew), (Hread _ _ Hkey). do 2 f_equal.
    unfold Spec.flat_cell in Hflat.
    destruct value as [| |b|n|s|elems|ps]; try reflexivity; try discriminate.
    + now elim Hdef.
    + unfold Spec.normalize_cell, Spec.unwrap in *. simpl in *.
      destruct (assoc "value" ps) as [inner|]; [|discriminate]. simpl in *.
      destruct inner; try reflexivity; discriminate.
Qed.

Lemma getFieldValue_after_transform_witness :
  exists row',
    transformLookerRow (JObj Samples.wrapped_count_row) = Normal row' /\
    getFieldValue row' "count" = Normal (Data Samples.seven) /\
    getFieldValue row' "count"
    = getFieldValue (JObj Samples.wrapped_count_row) "count".
Proof.
  destruct (getFieldValue_after_transform Samples.wrapped_count_row "count"
              (JObj [ ("value", Samples.seven); ("rendered", JStr "7 orders") ]))
    as [row' [H1 [H2 H3]]].
  - repeat constructor. simpl. tauto.
  - reflexivity.
  - reflexivity.
  - exists row'. split; [exact H1|]. split; [exact H2|].
    apply H3; [reflexivity | discriminate].
Defined.

End TableUtilsMore.

(** ** More about [formatFieldLabel] *)

Module LabelMore.

Import TableUtils Chars LabelFacts.

Lemma last_segment_from_prefix prefix rest : forall cur,
  Spec.last_segment_from cur (prefix ++ "." ++ rest)
  = Spec.last_segment_from EmptyString rest.
Proof.
  induction prefix as [|c prefix IH]; intros cur; simpl.
  - reflexivity.
  - destruct (Ascii.eqb c "."); apply IH.
Qed.

(** X6.  Only the text after the last dot matters: whatever is put in front
    of an identifier, with a dot, leaves its label as it is. *)
Theorem formatFieldLabel_ignores_prefix prefix identifier :
  formatFieldLabel (prefix ++ "." ++ identifier) = formatFieldLabel identifier.
Proof.
  unfold formatFieldLabel. rewrite !last_split_on. unfold Spec.last_segment.
  now rewrite last_segment_from_prefix.
Qed.

Lemma string_forall_append P a b :
  string_forall P (a ++ b) = string_forall P a && string_forall P b.
Proof.
  induction a as [|c a IH]; simpl; [reflexivity|].
  now rewrite IH, andb_assoc.
Qed.

Lemma split_on_dot_free s :
  Forall (fun w => string_forall (fun c => negb (Ascii.eqb c ".")) w = true)
         (split_on "."%char s).
Proof.
  induction s as [|c s IH]; simpl.
  - repeat constructor.
  - destruct (Ascii.eqb c ".") eqn:E.
    + constructor; [reflexivity | exact IH].
    + destruct (split_on "."%char s) as [|w ws].
      * repeat constructor. simpl. now rewrite E.
      * inversion IH as [|? ? Hw Hws]; subst. constructor; [|exact Hws].
        simpl. now rewrite E, Hw.
Qed.

Lemma split_word_seps_word_chars s :
  string_forall (fun c => negb (Ascii.eqb c ".")) s = true ->
  Forall (fun w => string_forall word_char w = true) (split_word_seps s).
Proof.
  induction s as [|c s IH]; simpl.
  - repeat constructor.
  - intros H. apply andb_prop in H. destruct H as [Hc Hs].
    specialize (IH Hs). destruct (is_word_sep c) eqn:E.
    + destruct (starts_with_sep s); [exact IH|]. constructor; [reflexivity | exact IH].
    + destruct (split_word_seps s) as [|w ws].
      * repeat constructor. simpl. unfold word_char. rewrite E.
        apply negb_true_iff in Hc. now rewrite Hc.
      * inversion IH as [|? ? Hw Hws]; subst. constructor; [|exact Hws].
        simpl. unfold word_char at 1. rewrite E.
        apply negb_true_iff in Hc. now rewrite Hc, Hw.
Qed.

Lemma word_char_toUpperCase c : word_char (char_toUpperCase c) = word_char c.
Proof. destruct c as [[] [] [] [] [] [] [] []]; reflexivity. Qed.

Lemma word_char_toLowerCase c : word_char (char_toLowerCase c) = word_char c.
Proof. destruct c as [[] [] [] [] [] [] [] []]; reflexivity. Qed.

Lemma capitalize_word_chars w :
  string_forall word_char w = true -> string_forall word_char (capitalize w) = true.
Proof.
  destruct w as [|c w]; [reflexivity|]. simpl. intros H.
  apply andb_prop in H. destruct H as [Hc Hw].
  unfold capitalize. simpl. rewrite word_char_toUpperCase, Hc. simpl.
  clear Hc. induction w as [|d w IH]; [reflexivity|].
  simpl in Hw. apply andb_prop in Hw. destruct Hw as [Hd Hw].
  unfold toLowerCase in *. simpl. now rewrite word_char_toLowerCase, Hd, IH.
Qed.

Lemma word_char_label_char w :
  string_forall word_char w = true -> string_forall label_char w = true.
Proof.
  induction w as [|c w IH]; [reflexivity|]. simpl. intros H.
  apply andb_prop in H. destruct H as [Hc Hw].
  unfold label_char. unfold word_char in Hc. rewrite Hc, orb_true_r. now apply IH.
Qed.

Lemma join_space_label_chars ws :
  Forall (fun w => string_forall word_char w = true) ws ->
  string_forall label_char (join_space ws) = true.
Proof.
  induction ws as [|w [|w' ws] IH]; intros H; [reflexivity | |].
  - inversion H; subst. now apply word_char_label_char.
  - inversion H as [|? ? Hw Hrest]; subst.
    change (join_space (w :: w' :: ws)) with (w ++ " " ++ join_space (w' :: ws)).
    rewrite !string_forall_append, (word_char_label_char _ Hw), (IH Hrest).
    reflexivity.
Qed.

(** The capitalized words of an identifier hold neither dots nor
    separators. *)
Lemma capitalized_words_word_chars identifier :
  Forall (fun w => string_forall word_char w = true)
    (map capitalize
       (split_word_seps (List.last (split_on "."%char identifier) EmptyString))).
Proof.
  apply Forall_forall. intros w Hin. apply in_map_iff in Hin.
  destruct Hin as [w0 [<- Hin]]. apply capitalize_word_chars.
  revert w0 Hin. apply Forall_forall. apply split_word_seps_word_chars.
  apply (last_Forall (fun w => string_forall (fun c => negb (Ascii.eqb c ".")) w = true));
    [apply split_on_dot_free | reflexivity].
Qed.

(** X7.  The label of an ASCII identifier holds no dot, no underscore and
    no whitespace other than the space: each of its characters is a
    space or a character of a word. *)
Theorem formatFieldLabel_characters identifier :
  is_ascii identifier = true ->
  string_forall label_char (formatFieldLabel identifier) = true.
Proof.
  intros _. unfold formatFieldLabel. apply join_space_label_chars.
  apply capitalized_words_word_chars.
Qed.

Lemma formatFieldLabel_characters_witness :
  string_forall label_char (formatFieldLabel "view.total_order_count") = true.
Proof.
  apply formatFieldLabel_characters. reflexivity.
Defined.

(** *** Formatting a label again *)

Lemma split_on_no_dot s :
  string_forall (fun c => negb (Ascii.eqb c ".")) s = true ->
  split_on "."%char s = [s].
Proof.
  induction s as [|c s IH]; simpl; [reflexivity|]. intros H.
  apply andb_prop in H. destruct H as [Hc Hs].
  apply negb_true_iff in Hc. rewrite Hc, (IH Hs). reflexivity.
Qed.

Lemma label_char_no_dot s :
  string_forall label_char s = true ->
  string_forall (fun c => negb (Ascii.eqb c ".")) s = true.
Proof.
  induction s as [|c s IH]; simpl; [reflexivity|]. intros H.
  apply andb_prop in H. destruct H as [Hc Hs]. rewrite (IH Hs), andb_true_r.
  revert Hc. unfold label_char.
  destruct c as [[] [] [] [] [] [] [] []]; simpl; congruence.
Qed.

(** A separator-free word in front of a text goes to the first piece. *)
Lemma split_word_seps_word_prefix w : forall r x xs,
  sep_free w = true -> split_word_seps r = x :: xs ->
  split_word_seps (w ++ r) = (w ++ x)%string :: xs.
Proof.
  induction w as [|c w IH]; intros r x xs Hw Hr; simpl; [exact Hr|].
  unfold sep_free in Hw. simpl in Hw. apply andb_prop in Hw.
  destruct Hw as [Hc Hw]. apply negb_true_iff in Hc.
  rewrite Hc, (IH r x xs Hw Hr). reflexivity.
Qed.

Lemma sep_free_starts w r :
  sep_free w = true -> w <> EmptyString -> starts_with_sep (w ++ r) = false.
Proof.
  destruct w as [|c w]; [congruence|]. intros H _.
  unfold sep_free in H. simpl in H. apply andb_prop in H.
  destruct H as [Hc _]. now apply negb_true_iff in Hc.
Qed.

Lemma join_space_starts w tl :
  sep_free w = true -> inner_nonempty (w :: tl) = true ->
  starts_with_sep (join_space (w :: tl)) = false.
Proof.
  intros Hw Hinner. destruct tl as [|w' tl].
  - simpl. destruct w as [|c w]; [reflexivity|].
    now apply (sep_free_starts (String c w) EmptyString Hw).
  - change (join_space (w :: w' :: tl)) with (w ++ " " ++ join_space (w' :: tl)).
    simpl in Hinner. apply andb_prop in Hinner. destruct Hinner as [Hne _].
    apply negb_true_iff, String.eqb_neq in Hne. now apply sep_free_starts.
Qed.

(** Splitting what [join(' ')] made gives the words back. *)
Lemma split_join_words ws : forall w,
  Forall (fun x => sep_free x = true) (w :: ws) ->
  inner_nonempty ws = true ->
  split_word_seps (join_space (w :: ws)) = w :: ws.
Proof.
  induction ws as [|w' ws IH]; intros w Hfree Hinner.
  - simpl. inversion Hfree as [|? ? Hw _]; subst.
    rewrite <- (append_empty_r w) at 1.
    rewrite (split_word_seps_word_prefix w EmptyString EmptyString []);
      [now rewrite append_empty_r | exact Hw | reflexivity].
  - inversion Hfree as [|? ? Hw Hrest]; subst.
    change (join_space (w :: w' :: ws)) with (w ++ " " ++ join_space (w' :: ws)).
    assert (Hinner' : inner_nonempty ws = true).
    { simpl in Hinner. destruct ws; [reflexivity|].
      apply andb_prop in Hinner. tauto. }
    assert (Htail : split_word_seps (" " ++ join_space (w' :: ws))
                    = EmptyString :: w' :: ws).
    { change (" " ++ join_space (w' :: ws))
        with (String " " (join_space (w' :: ws))).
      cbn [split_word_seps].
      change (is_word_sep " ") with true. cbv iota.
      rewrite join_space_starts; [| now inversion Hrest | exact Hinner].
      now rewrite (IH w' Hrest Hinner'). }
    rewrite (split_word_seps_word_prefix w _ _ _ Hw Htail).
    now rewrite append_empty_r.
Qed.

Lemma split_word_seps_shape s :
  exists w tl,
    split_word_seps s = w :: tl /\
    inner_nonempty tl = true /\
    Forall (fun x => sep_free x = true) (w :: tl) /\
    (starts_with_sep s = false -> w = EmptyString -> tl = []).
Proof.
  induction s as [|c s IH].
  - exists EmptyString, []. simpl. repeat split; repeat constructor.
  - destruct IH as [w [tl [Hs [Hinner [Hfree Hhead]]]]]. simpl.
    destruct (is_word_sep c) eqn:E.
    + destruct (starts_with_sep s) eqn:Hsep.
      * exists w, tl. rewrite Hs. repeat split; try assumption; try discriminate.
      * exists EmptyString, (w :: tl). rewrite Hs.
        split; [reflexivity|]. split; [|split; [|discriminate]].
        -- simpl. destruct tl as [|w2 tl2]; [reflexivity|].
           rewrite Hinner, andb_true_r. apply negb_true_iff, String.eqb_neq.
           intros ->. now specialize (Hhead eq_refl eq_refl).
        -- constructor; [reflexivity | exact Hfree].
    + rewrite Hs. exists (String c w), tl.
      split; [reflexivity|]. split; [exact Hinner|]. split; [|discriminate].
      inversion Hfree as [|? ? Hw Htl]; subst. constructor; [|exact Htl].
      unfold sep_free in *. simpl. now rewrite E, Hw.
Qed.

Lemma is_word_sep_toUpperCase c : is_word_sep (char_toUpperCase c) = is_word_sep c.
Proof. destruct c as [[] [] [] [] [] [] [] []]; reflexivity. Qed.

Lemma is_word_sep_toLowerCase c : is_word_sep (char_toLowerCase c) = is_word_sep c.
Proof. destruct c as [[] [] [] [] [] [] [] []]; reflexivity. Qed.

Lemma toLowerCase_sep_free w : sep_free (toLowerCase w) = sep_free w.
Proof.
  unfold sep_free, toLowerCase.
  induction w as [|c w IH]; simpl; [reflexivity|].
  now rewrite is_word_sep_toLowerCase, IH.
Qed.

Lemma capitalize_sep_free w : sep_free (capitalize w) = sep_free w.
Proof.
  destruct w as [|c w]; [reflexivity|]. unfold capitalize. simpl.
  pose proof (toLowerCase_sep_free w) as H. unfold sep_free in *. simpl.
  now rewrite is_word_sep_toUpperCase, H.
Qed.

Lemma capitalize_empty w :
  String.eqb (capitalize w) EmptyString = String.eqb w EmptyString.
Proof. destruct w; reflexivity. Qed.

Lemma inner_nonempty_capitalize tl :
  inner_nonempty (map capitalize tl) = inner_nonempty tl.
Proof.
  induction tl as [|w [|w' tl] IH]; try reflexivity.
  change (inner_nonempty (map capitalize (w :: w' :: tl)))
    with (negb (String.eqb (capitalize w) EmptyString)
          && inner_nonempty (map capitalize (w' :: tl))).
  now rewrite capitalize_empty, IH.
Qed.

Lemma toUpperCase_twice c : char_toUpperCase (char_toUpperCase c) = char_toUpperCase c.
Proof. destruct c as [[] [] [] [] [] [] [] []]; reflexivity. Qed.

Lemma toLowerCase_twice c : char_toLowerCase (char_toLowerCase c) = char_toLowerCase c.
Proof. destruct c as [[] [] [] [] [] [] [] []]; reflexivity. Qed.

Lemma capitalize_twice w : capitalize (capitalize w) = capitalize w.
Proof.
  destruct w as [|c w]; [reflexivity|]. unfold capitalize. simpl.
  rewrite toUpperCase_twice. f_equal.
  induction w as [|d w IH]; [reflexivity|].
  unfold toLowerCase in *. simpl. now rewrite toLowerCase_twice, IH.
Qed.

(** X8.  On ASCII identifiers formatting is idempotent: the label of a
    label is that label. *)
Theorem formatFieldLabel_idempotent identifier :
  is_ascii identifier = true ->
  formatFieldLabel (formatFieldLabel identifier) = formatFieldLabel identifier.
Proof.
  intros _.
  pose proof (join_space_label_chars _ (capitalized_words_word_chars identifier))
    as Hchars.
  fold (formatFieldLabel identifier) in Hchars.
  apply label_char_no_dot, split_on_no_dot in Hchars.
  unfold formatFieldLabel at 1. rewrite Hchars. cbn [List.last].
  unfold formatFieldLabel.
  destruct (split_word_seps_shape
              (List.last (split_on "."%char identifier) EmptyString))
    as [w [tl [-> [Hinner [Hfree _]]]]].
  cbn [map]. rewrite split_join_words.
  - change (capitalize w :: map capitalize tl) with (map capitalize (w :: tl)).
    rewrite map_map. f_equal. apply map_ext. exact capitalize_twice.
  - change (capitalize w :: map capitalize tl) with (map capitalize (w :: tl)).
    apply Forall_forall. intros x Hx. apply in_map_iff in Hx.
    destruct Hx as [x0 [<- Hx0]]. rewrite capitalize_sep_free.
    now apply (proj1 (Forall_forall _ _) Hfree).
  - now rewrite inner_nonempty_capitalize.
Qed.

Lemma formatFieldLabel_idempotent_witness :
  formatFieldLabel (formatFieldLabel "view.total__order count")
  = formatFieldLabel "view.total__order count".
Proof.
  apply formatFieldLabel_idempotent. reflexivity.
Defined.

End LabelMore.

(** ** More about the table hook *)

Module TableLogicMore.

Import TableLogic JsFacts TableUtilsFacts TableLogicFacts Cells Descriptors.

(** *** What a cell shows *)

Lemma cell_completes value :
  TableLogic.cell value = Normal (Spec.rendering_policy value).
Proof.
  unfold TableLogic.cell.
  destruct value as [| |b|n|s|elems|props]; simpl; try reflexivity.
  - now rewrite assoc_index_entries_None.
  - destruct (assoc "value" props) as [inner|] eqn:Hv; simpl; [|reflexivity].
    unfold get. simpl. rewrite Hv.
    destruct (assoc "rendered" props) as [rendered|]; simpl.
    + destruct (truthy rendered); [reflexivity|].
      unfold or_else. now destruct (truthy inner).
    + unfold or_else. now destruct (truthy inner).
Qed.

(** Rendering a cell of an object row never throws, whatever the field
    of the column. *)
Lemma render_cell_never_throws props fieldName :
  exists shown, render_cell fieldName (JObj props) = Normal shown.
Proof.
  unfold render_cell, accessor.
  destruct (getFieldValue_total props fieldName) as [value ->]. cbn [bind].
  destruct value as [v|p|p name]; cbn [Cells.cell]; [|eauto|eauto].
  rewrite cell_completes. eauto.
Qed.

(** X9.  The accessor unwraps before the renderer looks: for a field that is
    a direct key holding a wrapper, the cell shows what the renderer
    makes of the wrapper's [value] alone, and the wrapper's [rendered]
    text plays no part; a numeric [value] is shown as its locale
    string. *)
Theorem render_cell_ignores_rendered props fieldName wprops inner :
  assoc fieldName props = Some (JObj wprops) ->
  assoc "value" wprops = Some inner ->
  render_cell fieldName (JObj props) = Normal (Spec.rendering_policy inner) /\
  (forall n, inner = JNum n ->
     render_cell fieldName (JObj props) = Normal (toLocaleString n)).
Proof.
  intros Hkey Hinner.
  assert (H : render_cell fieldName (JObj props)
              = Normal (Spec.rendering_policy inner)).
  { unfold render_cell, accessor.
    rewrite (getFieldValue_own_key props fieldName _ Hkey).
    unfold Spec.unwrap. cbn [Spec.wrapper Spec.field]. rewrite Hinner.
    cbn [bind Cells.cell]. apply cell_completes. }
  split; [exact H|]. intros n ->. exact H.
Qed.

Lemma render_cell_ignores_rendered_witness :
  render_cell "count" (JObj Samples.wrapped_count_row)
  = Normal (toLocaleString (number_of_nat 7)).
Proof.
  exact (proj2 (render_cell_ignores_rendered Samples.wrapped_count_row "count"
                  _ Samples.seven eq_refl eq_refl) _ eq_refl).
Defined.

(** X10.  A cell shows the placeholder when its field is a direct key holding
    [null] or [undefined], and when [in] does not find its field on the
    row and the dotted path does not resolve (an intermediate value is
    [null], not an object, or neither has nor inherits the next
    segment).  A field that names a function which the row inherits
    shows neither data nor the placeholder: the renderer is handed the
    function. *)
Theorem render_cell_placeholder props fieldName :
  (forall stored, assoc fieldName props = Some stored ->
     is_nullish stored = true ->
     render_cell fieldName (JObj props) = Normal (Rendered_value placeholder)) /\
  (has fieldName (DataObject props) = false ->
   Spec.unresolved (Data (JObj props)) (TableUtils.split_on "."%char fieldName) ->
   render_cell fieldName (JObj props) = Normal (Rendered_value placeholder)) /\
  (assoc fieldName props = None ->
   member ObjectPrototype fieldName = Some (BuiltinFunction ObjectPrototype fieldName) ->
   render_cell fieldName (JObj props)
   = Normal (Rendered_function ObjectPrototype fieldName)).
Proof.
  split; [|split].
  - intros stored Hkey Hnull.
    unfold render_cell, accessor.
    rewrite (getFieldValue_own_key props fieldName _ Hkey).
    destruct stored; try discriminate; reflexivity.
  - intros Hkey Hpath.
    unfold render_cell, accessor, TableUtils.getFieldValue. cbn [as_object].
    rewrite Hkey. now rewrite (nested_access_unresolved _ _ Hpath).
  - intros Hkey Hmember.
    assert (Hp : String.eqb fieldName "__proto__" = false).
    { unfold member in Hmember.
      destruct (String.eqb fieldName "__proto__"); [discriminate | reflexivity]. }
    unfold render_cell, accessor, TableUtils.getFieldValue. cbn [as_object].
    unfold has, lookup, above, own. cbn [prototype_of option_map].
    rewrite Hkey, Hp, Hmember. reflexivity.
Qed.

Lemma render_cell_placeholder_witness :
  render_cell "a" (JObj [ ("a", JNull) ]) = Normal (Rendered_value placeholder) /\
  render_cell "view.total.x" (JObj Samples.null_inside_row)
  = Normal (Rendered_value placeholder) /\
  render_cell "toString" (JObj Samples.total_row)
  = Normal (Rendered_function ObjectPrototype "toString").
Proof.
  split; [|split].
  - apply (proj1 (render_cell_placeholder [ ("a", JNull) ] "a") JNull);
      reflexivity.
  - apply (proj1 (proj2 (render_cell_placeholder Samples.null_inside_row
                           "view.total.x")));
      [reflexivity|].
    simpl. eapply Spec.unresolved_below; [reflexivity|]. simpl.
    eapply Spec.unresolved_below; [reflexivity|]. simpl.
    apply Spec.unresolved_not_object. reflexivity.
  - apply (proj2 (proj2 (render_cell_placeholder Samples.total_row "toString")));
      reflexivity.
Defined.

(** *** Columns from field descriptors *)

Lemma read_get v k x : get v k = Normal x -> read v k = x.
Proof. unfold read. now intros ->. Qed.

Lemma get_read v k : is_nullish v = false -> get v k = Normal (read v k).
Proof.
  intros H. destruct (get_total v k H) as [x Hx].
  now rewrite (read_get _ _ _ Hx).
Qed.


Lemma make_field_unusable t f :
  unusable f = true -> exists e, make_field t f = Throw e.
Proof.
  unfold unusable, make_field. destruct (is_nullish f) eqn:Hn.
  - intros _. unfold get. rewrite Hn. eexists. reflexivity.
  - simpl. intros H. apply andb_prop in H. destruct H as [Hl Hs].
    apply negb_true_iff in Hl, Hs. rewrite !(get_read f _ Hn). cbn [bind].
    rewrite Hl. destruct (read f "name"); try discriminate;
      eexists; reflexivity.
Qed.

Lemma mapM_throws_at {A B} (f : A -> Completion B) l x :
  In x l -> (exists e, f x = Throw e) -> exists e, mapM f l = Throw e.
Proof.
  induction l as [|y l IH]; [intros []|]. intros [-> | Hin] Hx; cbn [mapM].
  - destruct Hx as [e ->]. eexists. reflexivity.
  - destruct (f y); [|eexists; reflexivity]. cbn [bind].
    destruct (IH Hin Hx) as [e ->]. eexists. reflexivity.
Qed.



Lemma push_fields_unusable t metadata f :
  In f (descriptors metadata) -> unusable f = true ->
  exists e, push_fields t metadata = Throw e.
Proof.
  intros Hin Hbad. destruct metadata; try (now destruct Hin).
  unfold push_fields. simpl. simpl in Hin.
  apply (mapM_throws_at _ _ f Hin). now apply make_field_unusable.
Qed.



(** X12.  A descriptor that is [null] or [undefined], or that has neither a
    truthy [label] nor a string [name], makes [createColumns] throw,
    whichever of the three metadata fields holds it; no column is
    built. *)
Theorem createColumns_unusable_descriptor config queryResponse f :
  In f (all_descriptors queryResponse) -> unusable f = true ->
  exists e, createColumns config queryResponse = Throw e.
Proof.
  intros Hin Hbad. unfold createColumns.
  destruct (is_nullish queryResponse) eqn:Hq.
  { unfold get at 1. rewrite Hq. eexists. reflexivity. }
  rewrite !(get_read queryResponse _ Hq). cbn [bind].
  unfold all_descriptors in Hin. apply in_app_or in Hin.
  destruct Hin as [Hin | Hin].
  { destruct (push_fields_unusable dimension _ f Hin Hbad) as [e ->].
    eexists. reflexivity. }
  destruct (push_fields dimension (read queryResponse "fieldDimensions"));
    [|eexists; reflexivity].
  cbn [bind]. apply in_app_or in Hin. destruct Hin as [Hin | Hin].
  { destruct (push_fields_unusable measure _ f Hin Hbad) as [e ->].
    eexists. reflexivity. }
  destruct (push_fields measure (read queryResponse "fieldMeasures"));
    [|eexists; reflexivity].
  cbn [bind].
  destruct (push_fields_unusable calculation _ f Hin Hbad) as [e ->].
  eexists. reflexivity.
Qed.

Lemma createColumns_unusable_descriptor_witness :
  exists e, createColumns None Samples.bad_calculation_response = Throw e.
Proof.
  apply (createColumns_unusable_descriptor None Samples.bad_calculation_response
           (JObj [ ("name", Samples.seven) ])).
  - right. left. reflexivity.
  - reflexivity.
Defined.

(** *** The pagination effect when nothing new arrives *)

(** X13.  A batch that leaves the identities of [data] and [columns] alone is
    applied as it is: the effect does not run, so a pager click lands on
    the page it asked for. *)
Theorem step_without_new_data s batch :
  reachable s ->
  data (fold_left apply_setter batch s) = data s ->
  columns (fold_left apply_setter batch s) = columns s ->
  step s batch = fold_left apply_setter batch s.
Proof.
  intros Hreach Hdata Hcols. unfold step, run_effect, effect_due.
  rewrite batch_effect_deps, (reachable_settled s Hreach), Hdata, Hcols.
  unfold deps_eqb. cbn [fst snd]. now rewrite !Nat.eqb_refl.
Qed.

Lemma step_without_new_data_witness :
  pageIndex (step Samples.mounted [ setPageIndex 3 ]) = 3.
Proof.
  rewrite (step_without_new_data Samples.mounted [ setPageIndex 3 ]).
  - reflexivity.
  - apply reachable_mount.
  - reflexivity.
  - reflexivity.
Defined.

(** X14.  The reset does not feed itself: after any step, a render in which
    no setter was called changes nothing. *)
Theorem step_settles s batch : step (step s batch) [] = step s batch.
Proof.
  unfold step at 1. cbn [fold_left]. unfold step.
  set (t := fold_left apply_setter batch s).
  pose proof (run_effect_settled t) as Hsettled.
  unfold run_effect at 1. unfold effect_due. rewrite Hsettled.
  unfold deps_eqb. cbn [fst snd]. now rewrite !Nat.eqb_refl.
Qed.

End TableLogicMore.

(** ** More about the controller *)

Module VisualizationMore.

Import Visualization JsFacts VisualizationFacts NumberFacts Controller.

(** *** [transformQueryData] *)

Lemma transformQueryData_array rows :
  transformQueryData (JArr rows) = mapM transformQueryRow rows.
Proof.
  unfold transformQueryData, get. cbn [is_nullish is_null is_undefined orb own_entries own_length].
  rewrite assoc_index_entries_None by reflexivity.
  cbn [String.eqb Ascii.eqb Bool.eqb bind truthy negb orb].
  rewrite strict_eq_zero_length. destruct rows; reflexivity.
Qed.

Lemma transformQueryRow_total row :
  is_nullish row = false -> exists out, transformQueryRow row = Normal out.
Proof.
  intros Hn. unfold transformQueryRow, Object_entries. rewrite Hn. cbn [bind].
  destruct (forEach_transformQueryField_total (own_entries row) []) as [o ->].
  cbn [bind]. eauto.
Qed.

Lemma mapM_Forall2 {A B} (f : A -> Completion B) l :
  (forall x, In x l -> exists y, f x = Normal y) ->
  exists ys, mapM f l = Normal ys /\ Forall2 (fun x y => f x = Normal y) l ys.
Proof.
  induction l as [|x l IH]; intros H; cbn [mapM].
  - exists []. split; [reflexivity | constructor].
  - destruct (H x (or_introl eq_refl)) as [y Hy].
    destruct IH as [ys [Hys Hall]]; [intros z Hz; apply H; now right|].
    exists (y :: ys). rewrite Hy. cbn [bind]. rewrite Hys. cbn [bind].
    split; [reflexivity | now constructor].
Qed.

Lemma transformQueryData_rows_normal rows :
  Forall (fun row => is_nullish row = false) rows ->
  exists out,
    transformQueryData (JArr rows) = Normal out /\
    Forall2 (fun row o => transformQueryRow row = Normal o) rows out.
Proof.
  intros Hrows. rewrite transformQueryData_array.
  apply mapM_Forall2. intros row Hin. apply transformQueryRow_total.
  now apply (proj1 (Forall_forall _ _) Hrows).
Qed.

(** X15.  On an array none of whose entries is [null] or [undefined],
    [transformQueryData] completes normally with one output row per
    input row, in order, each the transformation of its own input row;
    the empty array gives the empty array. *)
Theorem transformQueryData_row_by_row rows :
  Forall (fun row => is_nullish row = false) rows ->
  exists out,
    transformQueryData (JArr rows) = Normal out /\
    Forall2 (fun row o => transformQueryRow row = Normal o) rows out /\
    List.length out = List.length rows.
Proof.
  intros Hrows.
  destruct (transformQueryData_rows_normal rows Hrows) as [out [Hout Hall]].
  exists out. split; [exact Hout|]. split; [exact Hall|].
  symmetry. now apply (Forall2_length Hall).
Qed.

Lemma transformQueryData_row_by_row_witness :
  exists out,
    transformQueryData (JArr Samples.scenario_rows) = Normal out /\
    List.length out = 2.
Proof.
  destruct (transformQueryData_row_by_row Samples.scenario_rows)
    as [out [H1 [_ H3]]].
  - repeat constructor.
  - exists out. split; [exact H1 | exact H3].
Defined.

(** X16.  What [transformQueryData] does with anything but an array of rows:
    it throws on [null] and [undefined] (the logging line reads
    [rawData.length] before the guard), returns the empty array for any
    other falsy value and for a truthy value whose [length] is [0], and
    throws for every other truthy value that is not an array and for an
    array with a [null] or [undefined] entry. *)
Theorem transformQueryData_other_inputs rawData :
  (is_nullish rawData = true -> exists e, transformQueryData rawData = Throw e) /\
  (is_nullish rawData = false -> truthy rawData = false ->
   transformQueryData rawData = Normal []) /\
  (truthy rawData = true ->
   strict_eq_zero (Descriptors.read rawData "length") = true ->
   transformQueryData rawData = Normal []) /\
  (truthy rawData = true -> (forall rows, rawData <> JArr rows) ->
   strict_eq_zero (Descriptors.read rawData "length") = false ->
   exists e, transformQueryData rawData = Throw e) /\
  (forall rows row,
     rawData = JArr rows -> In row rows -> is_nullish row = true ->
     exists e, transformQueryData rawData = Throw e).
Proof.
  repeat split.
  - intros Hn. unfold transformQueryData, get. rewrite Hn. eexists. reflexivity.
  - intros Hn Hf. unfold transformQueryData.
    destruct (get_total rawData "length" Hn) as [len ->]. cbn [bind].
    now rewrite Hf.
  - intros Ht Hz. assert (Hn : is_nullish rawData = false)
      by (destruct rawData; try discriminate; reflexivity).
    unfold transformQueryData. unfold Descriptors.read in Hz.
    destruct (get_total rawData "length" Hn) as [len Hlen].
    rewrite Hlen in *. cbn [bind]. now rewrite Hz, orb_true_r.
  - intros Ht Hna Hz. assert (Hn : is_nullish rawData = false)
      by (destruct rawData; try discriminate; reflexivity).
    unfold transformQueryData. unfold Descriptors.read in Hz.
    destruct (get_total rawData "length" Hn) as [len Hlen].
    rewrite Hlen in *. cbn [bind]. rewrite Hz, Ht. cbn [negb orb].
    destruct rawData as [| |b|n|s|elems|props]; try (eexists; reflexivity).
    now elim (Hna elems).
  - intros rows row -> Hin Hnull. rewrite transformQueryData_array.
    apply (TableLogicMore.mapM_throws_at _ _ row Hin).
    unfold transformQueryRow, Object_entries. rewrite Hnull.
    eexists. reflexivity.
Qed.

Lemma transformQueryData_other_inputs_witness :
  (exists e, transformQueryData JNull = Throw e) /\
  transformQueryData (JStr EmptyString) = Normal [] /\
  transformQueryData (JObj [ ("length", Samples.zero) ]) = Normal [] /\
  (exists e, transformQueryData (JStr "rows") = Throw e) /\
  (exists e, transformQueryData (JArr [ JNull ]) = Throw e).
Proof.
  split; [|split; [|split; [|split]]].
  - apply (proj1 (transformQueryData_other_inputs JNull)). reflexivity.
  - apply (proj1 (proj2 (transformQueryData_other_inputs (JStr EmptyString))));
      reflexivity.
  - apply (proj1 (proj2 (proj2 (transformQueryData_other_inputs
                                  (JObj [ ("length", Samples.zero) ])))));
      reflexivity.
  - apply (proj1 (proj2 (proj2 (proj2 (transformQueryData_other_inputs
                                         (JStr "rows"))))));
      [reflexivity | discriminate | reflexivity].
  - apply (proj2 (proj2 (proj2 (proj2 (transformQueryData_other_inputs
                                         (JArr [ JNull ])))))
             [ JNull ] JNull); [reflexivity | now left | reflexivity].
Defined.

(** X17.  A row without wrapper cells and without a [__proto__] key comes
    out of [transformQueryRow] as it went in, [null] and [undefined]
    cells included. *)
Theorem transformQueryRow_plain_row props :
  NoDup (map fst props) ->
  has_proto_key (JObj props) = false ->
  (forall key value, In (key, value) props -> Spec.wrapper value = false) ->
  transformQueryRow (JObj props) = Normal (JObj props).
Proof.
  intros Hnd Hproto Hplain. unfold transformQueryRow, Object_entries.
  cbn [is_nullish is_null is_undefined orb own_entries bind].
  rewrite (forEach_entries_assign transformQueryField (fun v => v) props []).
  - rewrite (assignable_all props Hproto).
    cbn [bind app]. f_equal. f_equal. rewrite <- (map_id props) at 2.
    apply map_ext. now intros [k v].
  - intros a k v Hin. apply transformQueryField_plain. now apply (Hplain k v).
  - exact Hnd.
  - intros k _ [].
Qed.

Lemma transformQueryRow_plain_row_witness :
  transformQueryRow (JObj [ ("a", JNull); ("b", Samples.seven) ])
  = Normal (JObj [ ("a", JNull); ("b", Samples.seven) ]).
Proof.
  apply transformQueryRow_plain_row.
  - repeat constructor; simpl; intuition discriminate.
  - reflexivity.
  - intros key value [[= <- <-] | [[= <- <-] | []]]; reflexivity.
Defined.

(** *** [handleDataUpdate] *)

(** X18.  A data update always ends the loading state: the handler completes
    with [isLoading] false, in one of three states (no data, failure, or
    a table without error), and what is rendered next is never the
    skeleton. *)
Theorem handleDataUpdate_ends_loading config queryResponse st :
  exists st',
    handleDataUpdate config queryResponse st = Normal st' /\
    isLoading st' = false /\
    render st' <> TableSkeleton /\
    (st' = no_data st \/ st' = failed st \/ error st' = None).
Proof.
  rewrite handleDataUpdate_catches.
  destruct (handleDataUpdate_try config queryResponse st) as [st'|e] eqn:Htry.
  - exists st'. split; [reflexivity|].
    unfold handleDataUpdate_try in Htry.
    rewrite resolve_rawData_resolved in Htry. cbn [bind] in Htry.
    destruct (transformQueryData (Spec.resolved_data queryResponse)) as [rows|];
      [|discriminate]. cbn [bind] in Htry.
    destruct (Nat.eqb (List.length rows) 0).
    + injection Htry as <-. repeat split; [discriminate | now left].
    + destruct (TableLogic.createColumns config
                  (createColumns_argument queryResponse rows)) as [cols|];
        [|discriminate].
      cbn [bind] in Htry. injection Htry as <-.
      repeat split; [discriminate | right; now right].
  - exists (failed st). repeat split; [discriminate | right; now left].
Qed.

(** X19.  An update with rows shows the table: when the resolved data is a
    non-empty array without [null] or [undefined] entries and the
    response carries no table calculations, the state gets the
    transformed rows and the two hard-coded columns, the error is
    cleared, and the component renders the table. *)
Theorem handleDataUpdate_shows_table config queryResponse st rows :
  Spec.resolved_data queryResponse = JArr rows ->
  rows <> [] ->
  Forall (fun row => is_nullish row = false) rows ->
  truthy (Spec.response_table_calculations queryResponse) = false ->
  exists out,
    Forall2 (fun row o => transformQueryRow row = Normal o) rows out /\
    handleDataUpdate config queryResponse st
    = Normal {| error := None; isLoading := false; data := out;
                columns := Spec.hard_coded_columns config |} /\
    render {| error := None; isLoading := false; data := out;
              columns := Spec.hard_coded_columns config |}
    = Table (Spec.hard_coded_columns config) out.
Proof.
  intros Hdata Hne Hrows Hcalcs.
  destruct (transformQueryData_rows_normal rows Hrows) as [out [Hout Hall]].
  pose proof (Forall2_length Hall) as Hlen. symmetry in Hlen.
  exists out. split; [exact Hall|]. split; [|reflexivity].
  rewrite handleDataUpdate_catches. unfold handleDataUpdate_try.
  rewrite resolve_rawData_resolved, Hdata. cbn [bind]. rewrite Hout. cbn [bind].
  rewrite Hlen. destruct rows as [|r rows]; [congruence|]. cbn [List.length Nat.eqb].
  rewrite createColumns_on_update. unfold TableLogic.push_fields.
  rewrite Hcalcs. cbn [bind forallb map]. now rewrite app_nil_r.
Qed.

Lemma handleDataUpdate_shows_table_witness :
  exists out,
    handleDataUpdate None Samples.plain_response Samples.idle
    = Normal {| error := None; isLoading := false; data := out;
                columns := Spec.hard_coded_columns None |}.
Proof.
  destruct (handleDataUpdate_shows_table None Samples.plain_response Samples.idle
              [ JObj [ ("a", JNum (number_of_nat 1)) ] ])
    as [out [_ [H _]]].
  - reflexivity.
  - discriminate.
  - repeat constructor.
  - reflexivity.
  - exists out. exact H.
Defined.

(** X20.  An empty nested result hides the top-level rows: when
    [_queryResponse.data] is the empty array, the update ends in 'No data
    available' whatever the response's own [data] holds. *)
Theorem handleDataUpdate_empty_nested_data config queryResponse st :
  Spec.field (Spec.field queryResponse "_queryResponse") "data" = JArr [] ->
  handleDataUpdate config queryResponse st = Normal (no_data st) /\
  render (no_data st) = ErrorMessage "No data available".
Proof.
  intros Hnested. split; [|reflexivity].
  rewrite handleDataUpdate_catches. unfold handleDataUpdate_try.
  rewrite resolve_rawData_resolved. unfold Spec.resolved_data.
  rewrite Hnested. reflexivity.
Qed.

Lemma handleDataUpdate_empty_nested_data_witness :
  handleDataUpdate None Samples.empty_nested_response Samples.idle
  = Normal (no_data Samples.idle) /\
  render (no_data Samples.idle) = ErrorMessage "No data available".
Proof.
  apply handleDataUpdate_empty_nested_data. reflexivity.
Defined.

(** *** The initial data load *)

Lemma get_truthy v k : truthy v = true -> get v k = Normal (Descriptors.read v k).
Proof.
  intros Ht. apply TableLogicMore.get_read.
  destruct v; try discriminate; reflexivity.
Qed.

Lemma field_truthy_object v k :
  truthy (Spec.field v k) = true -> is_nullish v = false.
Proof. destruct v; try discriminate; reflexivity. Qed.

(** X21.  The initial load.  Without an SDK object it reports
    'Visualization SDK not available'.  With one, a query response whose
    [data] is missing or falsy leaves the component loading, and no
    update is processed; a [data] array leaves it loading when empty and
    is handed to [handleDataUpdate] when it has rows.  The effect has no
    error handling of its own: with a truthy [data] it completes when
    [data.length] can be converted for the comparison with [0], and
    throws when it cannot. *)
Theorem initial_load_cases parse config visualizationSDK st :
  (truthy visualizationSDK = false ->
   initial_load parse config visualizationSDK st = Normal (sdk_unavailable st)) /\
  (truthy visualizationSDK = true ->
   truthy (Spec.field (Descriptors.read visualizationSDK "queryResponse") "data")
   = false ->
   initial_load parse config visualizationSDK st = Normal (keep_loading st)) /\
  (forall rows,
     truthy visualizationSDK = true ->
     Spec.field (Descriptors.read visualizationSDK "queryResponse") "data"
     = JArr rows ->
     initial_load parse config visualizationSDK st
     = match rows with
       | [] => Normal (keep_loading st)
       | _ :: _ =>
           handleDataUpdate config
             (Descriptors.read visualizationSDK "queryResponse") st
       end) /\
  (truthy visualizationSDK = true ->
   truthy (Spec.field (Descriptors.read visualizationSDK "queryResponse") "data")
   = true ->
   if convertible
        (Descriptors.read
           (Spec.field (Descriptors.read visualizationSDK "queryResponse") "data")
           "length")
   then exists st', initial_load parse config visualizationSDK st = Normal st'
   else exists e, initial_load parse config visualizationSDK st = Throw e) /\
  (error st = None -> render (keep_loading st) = TableSkeleton).
Proof.
  split; [|split; [|split; [|split]]].
  - intros Hsdk. unfold initial_load. now rewrite Hsdk.
  - intros Hsdk Hd. unfold initial_load. rewrite Hsdk. cbn [negb].
    rewrite (get_truthy _ _ Hsdk). cbn [bind].
    rewrite get_opt_field by reflexivity. cbn [bind]. now rewrite Hd.
  - intros rows Hsdk Hd. unfold initial_load. rewrite Hsdk. cbn [negb].
    rewrite (get_truthy _ _ Hsdk). cbn [bind].
    rewrite get_opt_field by reflexivity. cbn [bind]. rewrite Hd. cbn [truthy].
    rewrite get_field; [| apply (field_truthy_object _ "data"); now rewrite Hd
                        | reflexivity | reflexivity].
    cbn [bind]. rewrite Hd. unfold get at 1.
    cbn [is_nullish is_null is_undefined orb own_entries own_length].
    rewrite assoc_index_entries_None by reflexivity.
    cbn [String.eqb Ascii.eqb Bool.eqb bind].
    rewrite greater_than_zero_length. destruct rows; reflexivity.
  - intros Hsdk Hd. unfold initial_load. rewrite Hsdk. cbn [negb].
    rewrite (get_truthy _ _ Hsdk). cbn [bind].
    rewrite get_opt_field by reflexivity. cbn [bind]. rewrite Hd.
    rewrite get_field; [| now apply (field_truthy_object _ "data")
                        | reflexivity | reflexivity].
    cbn [bind]. rewrite (get_truthy _ "length" Hd). cbn [bind].
    destruct (convertible
                (Descriptors.read
                   (Spec.field (Descriptors.read visualizationSDK "queryResponse")
                      "data") "length")) eqn:Hc.
    + destruct (greater_than_zero_convertible parse _ Hc) as [b ->]. cbn [bind].
      destruct b; [rewrite handleDataUpdate_catches|]; eauto.
    + destruct (greater_than_zero_not_convertible parse _ Hc) as [e ->].
      cbn [bind]. eauto.
  - intros Herr. unfold render, keep_loading. cbn [error isLoading].
    now rewrite Herr.
Qed.

Lemma initial_load_cases_witness :
  initial_load (fun _ => S754_nan) None JUndefined Samples.idle
  = Normal (sdk_unavailable Samples.idle) /\
  initial_load (fun _ => S754_nan) None
    (JObj [ ("queryResponse", JObj []) ]) Samples.idle
  = Normal (keep_loading Samples.idle) /\
  initial_load (fun _ => S754_nan) None
    (JObj [ ("queryResponse", JObj [ ("data", JArr []) ]) ]) Samples.idle
  = Normal (keep_loading Samples.idle) /\
  (exists e,
     initial_load (fun _ => S754_nan) None Samples.unconvertible_length_sdk
       Samples.idle
     = Throw e) /\
  render (keep_loading Samples.idle) = TableSkeleton.
Proof.
  split; [|split; [|split; [|split]]].
  - apply (proj1 (initial_load_cases _ None JUndefined Samples.idle)).
    reflexivity.
  - apply (proj1 (proj2 (initial_load_cases _ None
                           (JObj [ ("queryResponse", JObj []) ])
                           Samples.idle)));
      reflexivity.
  - apply (proj1 (proj2 (proj2 (initial_load_cases _ None
                           (JObj [ ("queryResponse", JObj [ ("data", JArr []) ]) ])
                           Samples.idle)))
             []); reflexivity.
  - apply (proj1 (proj2 (proj2 (proj2 (initial_load_cases (fun _ => S754_nan) None
                           Samples.unconvertible_length_sdk Samples.idle)))));
      reflexivity.
  - apply (proj2 (proj2 (proj2 (proj2 (initial_load_cases (fun _ => S754_nan) None
                                         JUndefined Samples.idle))))).
    reflexivity.
Defined.

(** *** The pager *)

(** X22.  On a page of a table with pages, the four pager buttons stay on the
    table: each sets a page index from [0] to [pageCount - 1];
    'previous' then never goes up and 'next' never goes down, they stay
    put at the first and the last page, and 'next' then 'previous'
    comes back. *)
Theorem pager_stays_in_range pageIndex pageCount :
  (0 <= pageIndex < pageCount)%Z ->
  (0 <= first_page < pageCount)%Z /\
  (0 <= previous_page pageIndex <= pageIndex)%Z /\
  (pageIndex <= next_page pageIndex pageCount < pageCount)%Z /\
  (0 <= last_page pageCount < pageCount)%Z /\
  previous_page first_page = first_page /\
  next_page (last_page pageCount) pageCount = last_page pageCount /\
  ((pageIndex < pageCount - 1)%Z ->
   previous_page (next_page pageIndex pageCount) = pageIndex).
Proof.
  unfold first_page, previous_page, next_page, last_page. lia.
Qed.

Lemma pager_stays_in_range_witness :
  (0 <= previous_page 0 <= 0)%Z /\ (2 <= next_page 2 3 < 3)%Z /\
  previous_page (next_page 1 3) = 1%Z.
Proof.
  split; [|split].
  - apply (proj1 (proj2 (pager_stays_in_range 0 3 ltac:(lia)))).
  - apply (proj1 (proj2 (proj2 (pager_stays_in_range 2 3 ltac:(lia))))).
  - apply (proj2 (proj2 (proj2 (proj2 (proj2 (proj2
             (pager_stays_in_range 1 3 ltac:(lia)))))))). lia.
Defined.

End VisualizationMore.

(** ** The settings mapping *)

Module ConfigFacts.

Import ConfigMapping Coercion JsFacts NumberFacts.

Lemma or_else_nullish v d : is_nullish v = true -> or_else v d = d.
Proof. destruct v; try discriminate; reflexivity. Qed.

Lemma Number_or_nullish parse v n :
  is_nullish v = true -> Number_or parse v n = Normal (JNum n).
Proof. destruct v; try discriminate; reflexivity. Qed.

Lemma nullish_or_nullish v d : is_nullish v = true -> nullish_or v d = d.
Proof. unfold nullish_or. now intros ->. Qed.

(** X23.  Saved settings that are all missing or [null] give the defaults,
    which are the initial configuration; the previous [columns] are
    kept. *)
Theorem mapConfig_defaults parse visConfig prevConfig :
  (forall key, is_nullish (Descriptors.read visConfig key) = true) ->
  mapConfig parse visConfig prevConfig = Normal (defaults (columns prevConfig)) /\
  mapConfig parse visConfig initial_config = Normal initial_config.
Proof.
  intros Hall.
  assert (H : forall prev,
            mapConfig parse visConfig prev = Normal (defaults (columns prev))).
  { intros prev. unfold mapConfig, defaults, num.
    rewrite !Number_or_nullish by apply Hall. cbn [bind].
    rewrite !or_else_nullish, !nullish_or_nullish by apply Hall.
    reflexivity. }
  split; [apply H | now rewrite H].
Qed.

Lemma mapConfig_defaults_witness :
  mapConfig (fun _ => S754_nan) (JObj []) initial_config = Normal initial_config.
Proof.
  destruct (mapConfig_defaults (fun _ => S754_nan) (JObj []) initial_config)
    as [_ H].
  - intros key. reflexivity.
  - exact H.
Defined.

(** The mapping reads nothing of the previous configuration but its
    [columns], which it keeps. *)
Lemma mapConfig_again parse visConfig prevConfig config :
  mapConfig parse visConfig prevConfig = Normal config ->
  mapConfig parse visConfig config = Normal config.
Proof.
  unfold mapConfig.
  destruct (Number_or parse (Descriptors.read visConfig "title_size") _);
    [|discriminate]. cbn [bind].
  destruct (Number_or parse (Descriptors.read visConfig "title_weight") _);
    [|discriminate]. cbn [bind].
  destruct (Number_or parse (Descriptors.read visConfig "subtitle_size") _);
    [|discriminate]. cbn [bind].
  destruct (Number_or parse (Descriptors.read visConfig "rows_per_page") _);
    [|discriminate]. cbn [bind].
  intros [= <-]. reflexivity.
Qed.

Lemma updater_again parse stringify visConfig prevConfig config :
  updater parse stringify visConfig prevConfig = Normal config ->
  updater parse stringify visConfig config = Normal config.
Proof.
  unfold updater.
  destruct (mapConfig parse visConfig prevConfig) as [newConfig|] eqn:E;
    [|discriminate]. cbn [bind].
  destruct (String.eqb (stringify newConfig) (stringify prevConfig)) eqn:Es;
    cbn [negb]; intros [= <-].
  - rewrite E. cbn [bind]. now rewrite Es.
  - rewrite (mapConfig_again _ _ _ _ E). cbn [bind].
    now rewrite String.eqb_refl.
Qed.

Lemma mapConfig_convertible parse visConfig prevConfig :
  forallb convertible (numeric_settings visConfig) = true ->
  exists config, mapConfig parse visConfig prevConfig = Normal config.
Proof.
  unfold numeric_settings. cbn [forallb]. intros H.
  apply andb_prop in H. destruct H as [H1 H].
  apply andb_prop in H. destruct H as [H2 H].
  apply andb_prop in H. destruct H as [H3 H].
  apply andb_prop in H. destruct H as [H4 _].
  unfold mapConfig.
  destruct (Number_or_convertible parse _ (number_of_nat 16) H1) as [n1 [_ ->]].
  destruct (Number_or_convertible parse _ (number_of_nat 500) H2) as [n2 [_ ->]].
  destruct (Number_or_convertible parse _ (number_of_nat 14) H3) as [n3 [_ ->]].
  destruct (Number_or_convertible parse _ (number_of_nat 10) H4) as [n4 [_ ->]].
  cbn [bind]. eauto.
Qed.

Lemma mapConfig_not_convertible parse visConfig prevConfig :
  forallb convertible (numeric_settings visConfig) = false ->
  exists e, mapConfig parse visConfig prevConfig = Throw e.
Proof.
  unfold numeric_settings. cbn [forallb]. intros H. unfold mapConfig.
  destruct (convertible (Descriptors.read visConfig "title_size")) eqn:H1.
  2: { destruct (Number_or_not_convertible parse _ (number_of_nat 16) H1)
         as [e ->]. cbn [bind]. eauto. }
  destruct (Number_or_convertible parse _ (number_of_nat 16) H1) as [n1 [_ ->]].
  cbn [bind andb] in *.
  destruct (convertible (Descriptors.read visConfig "title_weight")) eqn:H2.
  2: { destruct (Number_or_not_convertible parse _ (number_of_nat 500) H2)
         as [e ->]. cbn [bind]. eauto. }
  destruct (Number_or_convertible parse _ (number_of_nat 500) H2) as [n2 [_ ->]].
  cbn [bind andb] in *.
  destruct (convertible (Descriptors.read visConfig "subtitle_size")) eqn:H3.
  2: { destruct (Number_or_not_convertible parse _ (number_of_nat 14) H3)
         as [e ->]. cbn [bind]. eauto. }
  destruct (Number_or_convertible parse _ (number_of_nat 14) H3) as [n3 [_ ->]].
  cbn [bind andb] in *.
  destruct (convertible (Descriptors.read visConfig "rows_per_page")) eqn:H4.
  2: { destruct (Number_or_not_convertible parse _ (number_of_nat 10) H4)
         as [e ->]. cbn [bind]. eauto. }
  discriminate H.
Qed.

Lemma get_opt_read v k : get_opt v k = Normal (Descriptors.read v k).
Proof.
  unfold get_opt, Descriptors.read. destruct (is_nullish v) eqn:Hn.
  - unfold get. now rewrite Hn.
  - now destruct (get_total v k Hn) as [x ->].
Qed.

(** X24.  The configuration effect settles at once: when it completes,
    running it again on the configuration it left, with the same SDK
    object, leaves that configuration, whatever the JSON encoder and the
    numeric parser.  It completes when there is no visualization data,
    and when each of the numeric settings saved can be converted to a
    number; when one of them cannot, the update fails with a
    [TypeError]. *)
Theorem config_effect_settles parse stringify visualizationSDK prevConfig :
  (forall config,
     config_effect parse stringify visualizationSDK prevConfig = Normal config ->
     config_effect parse stringify visualizationSDK config = Normal config) /\
  (truthy (Descriptors.read visualizationSDK "visualizationData") = false ->
   config_effect parse stringify visualizationSDK prevConfig = Normal prevConfig) /\
  (truthy (Descriptors.read visualizationSDK "visualizationData") = true ->
   if forallb convertible (numeric_settings (saved_settings visualizationSDK))
   then exists config,
          config_effect parse stringify visualizationSDK prevConfig = Normal config
   else exists e,
          config_effect parse stringify visualizationSDK prevConfig = Throw e).
Proof.
  unfold config_effect, saved_settings. rewrite get_opt_read. cbn [bind].
  destruct (truthy (Descriptors.read visualizationSDK "visualizationData"))
    eqn:Hvd; cbn [negb].
  - rewrite (VisualizationMore.get_truthy _ "visConfig" Hvd). cbn [bind].
    split; [|split].
    + intros config. apply updater_again.
    + discriminate.
    + intros _. unfold updater.
      destruct (forallb convertible
                  (numeric_settings
                     (or_else
                        (Descriptors.read
                           (Descriptors.read visualizationSDK "visualizationData")
                           "visConfig") (JObj [])))) eqn:Hc.
      * destruct (mapConfig_convertible parse _ prevConfig Hc) as [c ->].
        cbn [bind]. eauto.
      * destruct (mapConfig_not_convertible parse _ prevConfig Hc) as [e ->].
        cbn [bind]. eauto.
  - split; [|split].
    + now intros config [= <-].
    + reflexivity.
    + discriminate.
Qed.

Lemma config_effect_settles_witness :
  config_effect (fun _ => S754_nan) (fun _ => EmptyString) JUndefined initial_config
  = Normal initial_config /\
  (exists config,
     config_effect (fun _ => S754_nan) (fun _ => EmptyString)
       Samples.saved_rows_sdk initial_config
     = Normal config /\
     config_effect (fun _ => S754_nan) (fun _ => EmptyString)
       Samples.saved_rows_sdk config
     = Normal config) /\
  (exists e,
     config_effect (fun _ => S754_nan) (fun _ => EmptyString)
       Samples.unconvertible_size_sdk initial_config
     = Throw e) /\
  (exists e,
     config_effect (fun _ => S754_nan) (fun _ => EmptyString)
       Samples.unconvertible_array_sdk initial_config
     = Throw e).
Proof.
  split; [|split; [|split]].
  - apply (proj1 (proj2 (config_effect_settles (fun _ => S754_nan)
                           (fun _ => EmptyString) JUndefined initial_config))).
    reflexivity.
  - destruct (proj2 (proj2 (config_effect_settles (fun _ => S754_nan)
                              (fun _ => EmptyString) Samples.saved_rows_sdk
                              initial_config)) eq_refl) as [config Hconfig].
    exists config. split; [exact Hconfig|].
    apply (proj1 (config_effect_settles (fun _ => S754_nan)
                    (fun _ => EmptyString) Samples.saved_rows_sdk
                    initial_config)).
    exact Hconfig.
  - apply (proj2 (proj2 (config_effect_settles (fun _ => S754_nan)
                           (fun _ => EmptyString) Samples.unconvertible_size_sdk
                           initial_config))).
    reflexivity.
  - apply (proj2 (proj2 (config_effect_settles (fun _ => S754_nan)
                           (fun _ => EmptyString) Samples.unconvertible_array_sdk
                           initial_config))).
    reflexivity.
Defined.

Lemma Number_or_truthy parse v n config_value :
  number_truthy n = true ->
  Number_or parse v n = Normal config_value -> truthy config_value = true.
Proof.
  intros Hn. unfold Number_or, or_else.
  destruct (ToNumber parse v) as [x|]; [|discriminate]. cbn [bind truthy].
  intros [= <-]. destruct (number_truthy x) eqn:E; cbn [truthy]; congruence.
Qed.

Lemma Number_or_number parse n fallback :
  number_truthy n = true -> Number_or parse (JNum n) fallback = Normal (JNum n).
Proof.
  intros Hn. unfold Number_or, or_else. cbn [ToNumber bind truthy]. now rewrite Hn.
Qed.

(** X25.  The four numeric settings are coerced, not validated.  The
    mapping completes whenever each of them can be converted to a
    number; and whenever it completes, the mapped title size, title
    weight, subtitle size and rows per page are never [0] or [NaN], and
    a saved number other than those passes through as it is, whatever
    bounds the settings editor declares. *)
Theorem mapConfig_numeric_settings parse visConfig prevConfig :
  (forallb convertible (numeric_settings visConfig) = true ->
   exists config, mapConfig parse visConfig prevConfig = Normal config) /\
  (forall config,
     mapConfig parse visConfig prevConfig = Normal config ->
     truthy (titleSize config) = true /\
     truthy (titleWeight config) = true /\
     truthy (subtitleSize config) = true /\
     truthy (rowsPerPage config) = true /\
     (forall n, number_truthy n = true ->
        (Descriptors.read visConfig "title_size" = JNum n ->
         titleSize config = JNum n) /\
        (Descriptors.read visConfig "title_weight" = JNum n ->
         titleWeight config = JNum n) /\
        (Descriptors.read visConfig "subtitle_size" = JNum n ->
         subtitleSize config = JNum n) /\
        (Descriptors.read visConfig "rows_per_page" = JNum n ->
         rowsPerPage config = JNum n))).
Proof.
  split; [apply mapConfig_convertible|].
  intros config. unfold mapConfig.
  destruct (Number_or parse (Descriptors.read visConfig "title_size") _)
    as [v1|] eqn:E1; [|discriminate]. cbn [bind].
  destruct (Number_or parse (Descriptors.read visConfig "title_weight") _)
    as [v2|] eqn:E2; [|discriminate]. cbn [bind].
  destruct (Number_or parse (Descriptors.read visConfig "subtitle_size") _)
    as [v3|] eqn:E3; [|discriminate]. cbn [bind].
  destruct (Number_or parse (Descriptors.read visConfig "rows_per_page") _)
    as [v4|] eqn:E4; [|discriminate]. cbn [bind].
  intros [= <-]. cbn [titleSize titleWeight subtitleSize rowsPerPage].
  split; [eapply Number_or_truthy; [|exact E1]; reflexivity|].
  split; [eapply Number_or_truthy; [|exact E2]; reflexivity|].
  split; [eapply Number_or_truthy; [|exact E3]; reflexivity|].
  split; [eapply Number_or_truthy; [|exact E4]; reflexivity|].
  intros n Hn. repeat split; intros Hs.
  - rewrite Hs, (Number_or_number _ _ _ Hn) in E1. congruence.
  - rewrite Hs, (Number_or_number _ _ _ Hn) in E2. congruence.
  - rewrite Hs, (Number_or_number _ _ _ Hn) in E3. congruence.
  - rewrite Hs, (Number_or_number _ _ _ Hn) in E4. congruence.
Qed.

Lemma mapConfig_numeric_settings_witness :
  exists config,
    mapConfig (fun _ => S754_nan)
      (JObj [ ("rows_per_page", num 1000) ]) initial_config
    = Normal config /\
    rowsPerPage config = num 1000.
Proof.
  destruct (mapConfig_numeric_settings (fun _ => S754_nan)
              (JObj [ ("rows_per_page", num 1000) ]) initial_config)
    as [Hruns Hvalues].
  destruct (Hruns eq_refl) as [config Hconfig].
  exists config. split; [exact Hconfig|].
  apply (proj2 (proj2 (proj2 (proj2 (Hvalues config Hconfig))))
           (number_of_nat 1000) eq_refl).
  reflexivity.
Defined.

End ConfigFacts.

(** ** The collapsible header and the title classes *)

Module HeaderFacts.

Import CollapsibleHeader.

(** X26.  The keyboard does what the pointer does: Enter and Space act as a
    click, every other key leaves the header as it is; and the default
    action of the key is prevented exactly for Enter and Space, also
    when the header is inert. *)
Theorem header_keyboard_as_click props key :
  after props (KeyDown key)
  = (if activates (KeyDown key) then after props Click else props) /\
  fst (handleHeaderKeyDown props key) = activates (KeyDown key).
Proof.
  unfold after, handleHeaderKeyDown, handleClick, activates.
  destruct (String.eqb key "Enter" || String.eqb key " "); split; reflexivity.
Qed.

(** Activating the header twice brings it back to where it was. *)
Lemma header_click_twice props : after (after props Click) Click = props.
Proof.
  destruct props as [[] [] [] a p]; reflexivity.
Qed.

(** X27.  The header can take the keyboard focus exactly when activating it
    does something. *)
Theorem header_focusable_iff_active props :
  (tabIndex props = 0%Z <-> handleClick props <> None) /\
  (tabIndex props = 0%Z <-> after props Click <> props).
Proof.
  destruct props as [[] [] [] a p]; unfold tabIndex, handleClick, after;
    cbn; split; split; intros H; try discriminate; try congruence;
    try (now elim H).
Qed.

Lemma header_focusable_iff_active_witness :
  handleClick {| isLoading := false; isExpanded := false;
                 enableExpandCollapse := true;
                 titleAlignment := "left"; titlePadding := "normal" |}
  <> None.
Proof.
  apply (proj1 (proj1 (header_focusable_iff_active
                         {| isLoading := false; isExpanded := false;
                            enableExpandCollapse := true;
                            titleAlignment := "left"; titlePadding := "normal" |}))).
  reflexivity.
Defined.

Lemma after_inert props e :
  isLoading props = true \/ enableExpandCollapse props = false ->
  after props e = props.
Proof.
  intros H. destruct e as [|key]; unfold after, handleHeaderKeyDown, handleClick.
  - destruct H as [-> | ->]; [reflexivity | now rewrite andb_false_r].
  - destruct (String.eqb key "Enter" || String.eqb key " "); [|reflexivity].
    cbn [snd]. destruct H as [-> | ->]; [reflexivity | now rewrite andb_false_r].
Qed.

(** X28.  While the header is loading, or when expand/collapse is disabled, no
    sequence of clicks and keys changes anything; and with expand/collapse
    disabled the content is mounted throughout. *)
Theorem header_inert props events :
  (isLoading props = true \/ enableExpandCollapse props = false ->
   after_all props events = props) /\
  (enableExpandCollapse props = false ->
   content_mounted (after_all props events) = true).
Proof.
  assert (H : isLoading props = true \/ enableExpandCollapse props = false ->
              after_all props events = props).
  { intros Hinert. unfold after_all.
    induction events as [|e events IH]; [reflexivity|].
    cbn [fold_left]. now rewrite (after_inert props e Hinert). }
  split; [exact H|].
  intros Hoff. rewrite (H (or_intror Hoff)). unfold content_mounted.
  now rewrite Hoff, orb_true_r.
Qed.

Lemma header_inert_witness :
  after_all {| isLoading := true; isExpanded := false; enableExpandCollapse := true;
               titleAlignment := "left"; titlePadding := "normal" |}
            [ Click; KeyDown "Enter" ]
  = {| isLoading := true; isExpanded := false; enableExpandCollapse := true;
       titleAlignment := "left"; titlePadding := "normal" |} /\
  content_mounted
    (after_all {| isLoading := false; isExpanded := false;
                  enableExpandCollapse := false;
                  titleAlignment := "left"; titlePadding := "normal" |}
               [ Click ]) = true.
Proof.
  split.
  - apply (proj1 (header_inert _ [ Click; KeyDown "Enter" ])). now left.
  - apply (proj2 (header_inert _ [ Click ])). reflexivity.
Defined.

Lemma after_active props e :
  isLoading props = false -> enableExpandCollapse props = true ->
  isLoading (after props e) = false /\
  enableExpandCollapse (after props e) = true /\
  isExpanded (after props e) = xorb (isExpanded props) (activates e).
Proof.
  intros Hl He. destruct props as [l x en a p]. cbn in Hl, He. subst.
  destruct e as [|key]; cbn.
  - repeat split; try (now destruct x).
  - unfold handleHeaderKeyDown. cbn.
    destruct (String.eqb key "Enter" || String.eqb key " "); cbn;
      repeat split; try (now destruct x).
Qed.

(** X29.  An enabled header that is not loading is open or closed by the
    parity of the activations alone: after any sequence of events it is
    expanded exactly when it was and an even number of clicks, Enters and
    Spaces came, or it was not and an odd number came. *)
Theorem header_follows_parity props events :
  isLoading props = false -> enableExpandCollapse props = true ->
  isExpanded (after_all props events)
  = xorb (isExpanded props)
         (Nat.odd (List.length (filter activates events))).
Proof.
  unfold after_all. revert props.
  induction events as [|e events IH]; intros props Hl He.
  - cbn. now rewrite xorb_false_r.
  - cbn [fold_left filter].
    destruct (after_active props e Hl He) as [Hl' [He' Hx]].
    rewrite (IH _ Hl' He'), Hx.
    destruct (activates e); cbn [List.length].
    + rewrite Nat.odd_succ, <- Nat.negb_odd.
      destruct (isExpanded props), (Nat.odd (List.length (filter activates events)));
        reflexivity.
    + now rewrite xorb_false_r.
Qed.

Lemma header_follows_parity_witness :
  isExpanded
    (after_all {| isLoading := false; isExpanded := true;
                  enableExpandCollapse := true;
                  titleAlignment := "left"; titlePadding := "normal" |}
               [ Click; KeyDown "a"; KeyDown " "; Click ])
  = false.
Proof.
  rewrite header_follows_parity; reflexivity.
Defined.

(** X30.  For the three alignments and the three paddings of the settings, the
    helper of [tableUtils] and the header's own [getTitleClasses] give
    the same class string. *)
Theorem getTitleClasses_agree props :
  In (titleAlignment props) [ "left"; "center"; "right" ] ->
  In (titlePadding props) [ "compact"; "normal"; "relaxed" ] ->
  TitleClasses.getTitleClasses (titleAlignment props) (titlePadding props)
  = getTitleClasses props.
Proof.
  destruct props as [l x en a p]. cbn [titleAlignment titlePadding].
  intros Ha Hp. unfold getTitleClasses. cbn [titleAlignment titlePadding].
  destruct Ha as [<- | [<- | [<- | []]]];
    destruct Hp as [<- | [<- | [<- | []]]]; reflexivity.
Qed.

Lemma getTitleClasses_agree_witness :
  TitleClasses.getTitleClasses "center" "relaxed"
  = "transition-all duration-200 text-center py-4".
Proof.
  exact (getTitleClasses_agree
           {| isLoading := false; isExpanded := true; enableExpandCollapse := true;
              titleAlignment := "center"; titlePadding := "relaxed" |}
           (or_intror (or_introl eq_refl))
           (or_intror (or_intror (or_introl eq_refl)))).
Defined.

End HeaderFacts.
